(** * Leaflet scraper: date-range parser, record validator, assembler, pipeline

    A shallow embedding of [leaflet_scraper/parsers.py], [models.py],
    [config.py], [exceptions.py] and of
    [LeafletScraper.extract_leaflets_from_page] in [scrapers.py], followed
    by the properties of section 8 of the specification.

    Conventions of the embedding:
    - a Python computation is a value of [res A]: it returns or raises;
      [try]/[except] is a match on that outcome;
    - text is a [string] whose characters are the code points 0..255
      (Latin-1); the character classes are Python's for that range;
    - the regular expressions of the parser are interpreted by small
      matchers for exactly the constructs they use ([\d{n}], escaped
      literals, [\s*], [\b(w1|...)\b] under [re.IGNORECASE]);
    - an HTML fragment is the record of what the assembler's selectors find
      in it; a page is the list of its item fragments;
    - [urljoin] and the clock are parameters of the assembler;
    - logging returns nothing and changes nothing, and is left out. *)

From Stdlib Require Import List Ascii String ZArith NArith Lia Bool DecimalString Permutation.
Import ListNotations.
Open Scope string_scope.
Open Scope list_scope.

(** ** Exceptions ([exceptions.py] and the builtins the code can meet) *)

Inductive exn : Type :=
  | ParsingException (msg : string)
  | ValidationException (msg : string)
  | FetchException (msg : string)
  | ScraperException (msg : string)
  | ValueError (msg : string)
  | IndexError (msg : string)
  | AttributeError (msg : string)
  | KeyboardInterrupt.

(** [isinstance(e, Exception)]: everything but the [BaseException]-only
    classes. *)
Definition is_Exception (e : exn) : bool :=
  match e with
  | KeyboardInterrupt => false
  | _ => true
  end.

(** [str(e)] *)
Definition exn_str (e : exn) : string :=
  match e with
  | ParsingException m | ValidationException m | FetchException m
  | ScraperException m | ValueError m | IndexError m | AttributeError m => m
  | KeyboardInterrupt => ""
  end.

(** The outcome of running a piece of Python: a value or a raised exception. *)
Inductive res (A : Type) : Type :=
  | Ret (a : A)
  | Raise (e : exn).
Arguments Ret {A} a.
Arguments Raise {A} e.

Definition bind {A B : Type} (m : res A) (k : A -> res B) : res B :=
  match m with
  | Ret a => k a
  | Raise e => Raise e
  end.

Notation "x <- m ;; k" := (bind m (fun x => k))
  (at level 61, m at next level, right associativity).

(** ** Character classes (Python [str], code points 0..255) *)

Definition code (c : ascii) : N := N_of_ascii c.

Definition in_range (lo hi : N) (c : ascii) : bool :=
  (lo <=? code c)%N && (code c <=? hi)%N.

(** [str.isspace] and the regex class [\s]. *)
Definition isspace (c : ascii) : bool :=
  in_range 9 13 c || in_range 28 32 c || (code c =? 133)%N || (code c =? 160)%N.

(** The regex class [\d]. *)
Definition isdigit (c : ascii) : bool := in_range 48 57 c.

Definition isupper_az (c : ascii) : bool := in_range 65 90 c.
Definition islower_az (c : ascii) : bool := in_range 97 122 c.
Definition isalpha_az (c : ascii) : bool := isupper_az c || islower_az c.

(** The regex class [\w]: alphanumeric or underscore. *)
Definition isword (c : ascii) : bool :=
  isdigit c || isalpha_az c || (code c =? 95)%N
  || (code c =? 170)%N || (code c =? 178)%N || (code c =? 179)%N
  || (code c =? 181)%N || (code c =? 185)%N || (code c =? 186)%N
  || in_range 188 190 c || in_range 192 214 c || in_range 216 246 c
  || in_range 248 255 c.

(** Lower-casing as the regex engine does it under [re.IGNORECASE]. *)
Definition tolower (c : ascii) : ascii :=
  if isupper_az c || (in_range 192 222 c && negb (code c =? 215)%N)
  then ascii_of_N (code c + 32)
  else c.

(** ** String helpers *)

Definition head (s : string) : option ascii :=
  match s with
  | EmptyString => None
  | String c _ => Some c
  end.

(** [str.lstrip()], [str.rstrip()], [str.strip()] *)
Fixpoint lstrip (s : string) : string :=
  match s with
  | EmptyString => EmptyString
  | String c t => if isspace c then lstrip t else s
  end.

Fixpoint rstrip (s : string) : string :=
  match s with
  | EmptyString => EmptyString
  | String c t =>
      match rstrip t with
      | EmptyString => if isspace c then EmptyString else String c EmptyString
      | r => String c r
      end
  end.

Definition strip (s : string) : string := rstrip (lstrip s).

(** [s.startswith(p)] *)
Definition startswith (p s : string) : bool := String.prefix p s.

(** [int(s)] for a string of ASCII digits with optional surrounding
    whitespace, which covers every string the regex groups supply;
    anything else is reported as the [ValueError] of a bad literal. *)
Definition digit_val (c : ascii) : Z := Z.of_N (code c) - 48.

Fixpoint int_digits (acc : Z) (s : string) : option Z :=
  match s with
  | EmptyString => Some acc
  | String c t => if isdigit c then int_digits (10 * acc + digit_val c) t else None
  end.

Definition py_int (s : string) : res Z :=
  match strip s with
  | EmptyString => Raise (ValueError ("invalid literal for int() with base 10: '" ++ s ++ "'"))
  | digits =>
      match int_digits 0 digits with
      | Some z => Ret z
      | None => Raise (ValueError ("invalid literal for int() with base 10: '" ++ s ++ "'"))
      end
  end.

(** [str(n)] for an integer. *)
Definition py_str (z : Z) : string := NilZero.string_of_int (Z.to_int z).

(** ** The fragment of [re] that the parser uses *)

Module Re.

(** Items of the three date patterns: a capturing group [(\d{n})], an
    escaped literal, and [\s*].  In every pattern [\s*] is followed by an
    item that cannot start with whitespace, so greedy matching never has to
    give characters back. *)
Inductive item : Type :=
  | Digits (n : nat)
  | Lit (c : ascii)
  | Spaces.

Definition regex := list item.

Fixpoint take_digits (n : nat) (s : string) : option (string * string) :=
  match n with
  | O => Some (EmptyString, s)
  | S k =>
      match s with
      | EmptyString => None
      | String c t =>
          if isdigit c then
            match take_digits k t with
            | Some (g, r) => Some (String c g, r)
            | None => None
            end
          else None
      end
  end.

Fixpoint skip_spaces (s : string) : string :=
  match s with
  | EmptyString => EmptyString
  | String c t => if isspace c then skip_spaces t else s
  end.

(** Match the pattern at the start of [s]: the groups and what is left. *)
Fixpoint match_here (p : regex) (s : string) : option (list string * string) :=
  match p with
  | [] => Some ([], s)
  | Digits n :: p' =>
      match take_digits n s with
      | Some (g, r) =>
          match match_here p' r with
          | Some (gs, r') => Some (g :: gs, r')
          | None => None
          end
      | None => None
      end
  | Lit c :: p' =>
      match s with
      | String c' t => if Ascii.eqb c' c then match_here p' t else None
      | EmptyString => None
      end
  | Spaces :: p' => match_here p' (skip_spaces s)
  end.

(** [re.search(p, s)]: the groups of the leftmost match, [match.groups()]. *)
Fixpoint search (p : regex) (s : string) : option (list string) :=
  match match_here p s with
  | Some (gs, _) => Some gs
  | None =>
      match s with
      | EmptyString => None
      | String _ t => search p t
      end
  end.

(** [\b]: a word character on exactly one side; the ends of the text
    count as non-word. *)
Definition isword_opt (c : option ascii) : bool :=
  match c with
  | Some c => isword c
  | None => false
  end.

Definition boundary (prev next : option ascii) : bool :=
  xorb (isword_opt prev) (isword_opt next).

(** A literal word under [re.IGNORECASE]: the last character consumed and
    the rest of the text. *)
Fixpoint match_lit_ci (k : string) (prev : option ascii) (s : string)
  : option (option ascii * string) :=
  match k with
  | EmptyString => Some (prev, s)
  | String p k' =>
      match s with
      | EmptyString => None
      | String c t =>
          if Ascii.eqb (tolower c) (tolower p) then match_lit_ci k' (Some c) t else None
      end
  end.

(** [\b(k1|k2|...)\b] at the current position, [prev] being the character
    before it: the length of the match. *)
Fixpoint match_word (alts : list string) (prev : option ascii) (s : string) : option nat :=
  match alts with
  | [] => None
  | k :: alts' =>
      match match_lit_ci k prev s with
      | Some (last, rest) =>
          if boundary last (head rest) then Some (String.length k)
          else match_word alts' prev s
      | None => match_word alts' prev s
      end
  end.

Definition match_word_at (alts : list string) (prev : option ascii) (s : string) : option nat :=
  if boundary prev (head s) then match_word alts prev s else None.

(** [re.sub(r'\b(k1|...)\b', '', s, flags=re.IGNORECASE)], scanning left to
    right; [skip] counts the characters of a match still to be dropped. *)
Fixpoint sub_aux (alts : list string) (prev : option ascii) (skip : nat) (s : string) : string :=
  match s with
  | EmptyString => EmptyString
  | String c t =>
      match skip with
      | S k => sub_aux alts (Some c) k t
      | O =>
          match match_word_at alts prev s with
          | Some (S k) => sub_aux alts (Some c) k t
          | _ => String c (sub_aux alts (Some c) 0 t)
          end
      end
  end.

Definition sub_words (alts : list string) (s : string) : string :=
  sub_aux alts None 0 s.

End Re.

(** ** [config.py] *)

Definition BASE_URL : string := "https://www.prospektmaschine.de".
Definition OPEN_ENDED_DATE : string := "9999-12-31".
Definition GERMAN_DAYS : list string :=
  ["montag"; "dienstag"; "mittwoch"; "donnerstag"; "freitag"; "samstag"; "sonntag"].

(** ** [DateParser.parse_date_range] *)

Module DateParser.

Import Re.

Definition dot : ascii := ".".
Definition dash : ascii := "-".

(** [(\d{2})\.(\d{2})\.(\d{4})\s*-\s*(\d{2})\.(\d{2})\.(\d{4})] *)
Definition pattern1 : regex :=
  [Digits 2; Lit dot; Digits 2; Lit dot; Digits 4; Spaces; Lit dash; Spaces;
   Digits 2; Lit dot; Digits 2; Lit dot; Digits 4].

(** [(\d{2})\.(\d{2})\.\s*-\s*(\d{2})\.(\d{2})\.(\d{4})] *)
Definition pattern2 : regex :=
  [Digits 2; Lit dot; Digits 2; Lit dot; Spaces; Lit dash; Spaces;
   Digits 2; Lit dot; Digits 2; Lit dot; Digits 4].

(** [(\d{2})\.(\d{2})\.(\d{4})] *)
Definition pattern3 : regex :=
  [Digits 2; Lit dot; Digits 2; Lit dot; Digits 4].

(** Lines 52-60: strip, drop the day names one after the other, drop the
    prefixes, strip again. *)
Definition normalize (date_string : string) : string :=
  let date_string := strip date_string in
  let date_string :=
    fold_left (fun s day => sub_words [day] s) GERMAN_DAYS date_string in
  let date_string := sub_words ["von"; "ab"; "seit"] date_string in
  strip date_string.

Definition iso (year month day : string) : string :=
  year ++ "-" ++ month ++ "-" ++ day.

Definition unpack_error : exn := ValueError "not enough values to unpack".

(** The body of the [try] block. *)
Definition parse_date_range_body (date_string : string) : res (string * string) :=
  let original_string := date_string in
  let date_string := normalize date_string in
  match search pattern1 date_string with
  | Some groups =>
      match groups with
      | [day1; month1; year1; day2; month2; year2] =>
          Ret (iso year1 month1 day1, iso year2 month2 day2)
      | _ => Raise unpack_error
      end
  | None =>
      match search pattern2 date_string with
      | Some groups =>
          match groups with
          | [day1; month1; day2; month2; year2] =>
              m1 <- py_int month1 ;;
              m2 <- py_int month2 ;;
              year1 <- (if (m1 <=? m2)%Z then Ret year2
                        else y2 <- py_int year2 ;; Ret (py_str (y2 - 1))) ;;
              Ret (iso year1 month1 day1, iso year2 month2 day2)
          | _ => Raise unpack_error
          end
      | None =>
          match search pattern3 date_string with
          | Some groups =>
              match groups with
              | [day; month; year] => Ret (iso year month day, OPEN_ENDED_DATE)
              | _ => Raise unpack_error
              end
          | None =>
              Raise (ParsingException ("Unsupported date format: " ++ original_string))
          end
      end
  end.

(** [except ParsingException: raise] and
    [except Exception as e: raise ParsingException(...)].  The parameter
    [current_year] is read by nothing in the body. *)
Definition parse_date_range (date_string : string) (current_year : option Z)
  : res (string * string) :=
  match parse_date_range_body date_string with
  | Ret r => Ret r
  | Raise (ParsingException m) => Raise (ParsingException m)
  | Raise e =>
      if is_Exception e
      then Raise (ParsingException
                    ("Failed to parse date range '" ++ date_string ++ "': " ++ exn_str e))
      else Raise e
  end.

End DateParser.

(** ** [datetime.strptime] for the two formats of the validator *)

Module Strptime.

(** A directive is an ordered alternation of fixed-length character-class
    sequences, as in the regular expression [_strptime] builds; alternatives
    are tried in order, with backtracking into the next one when the rest of
    the format fails. *)
Inductive tok : Type :=
  | Dir (alts : list (list (ascii -> bool)))
  | Sep (c : ascii)
  | Ws.

Definition only (c : ascii) : ascii -> bool := Ascii.eqb c.
Definition between (lo hi : ascii) : ascii -> bool := in_range (code lo) (code hi).

(** [%Y]: [\d\d\d\d] *)
Definition dir_Y : tok := Dir [[isdigit; isdigit; isdigit; isdigit]].
(** [%m]: [1[0-2]|0[1-9]|[1-9]] *)
Definition dir_m : tok :=
  Dir [[only "1"; between "0" "2"]; [only "0"; between "1" "9"]; [between "1" "9"]].
(** [%d]: [3[0-1]|[1-2]\d|0[1-9]|[1-9]| [1-9]] *)
Definition dir_d : tok :=
  Dir [[only "3"; between "0" "1"]; [between "1" "2"; isdigit];
       [only "0"; between "1" "9"]; [between "1" "9"]; [only " "; between "1" "9"]].
(** [%H]: [2[0-3]|[0-1]\d|\d] *)
Definition dir_H : tok :=
  Dir [[only "2"; between "0" "3"]; [between "0" "1"; isdigit]; [isdigit]].
(** [%M]: [[0-5]\d|\d] *)
Definition dir_M : tok := Dir [[between "0" "5"; isdigit]; [isdigit]].
(** [%S]: [6[0-1]|[0-5]\d|\d] *)
Definition dir_S : tok :=
  Dir [[only "6"; between "0" "1"]; [between "0" "5"; isdigit]; [isdigit]].

(** ['%Y-%m-%d'] *)
Definition fmt_date : list tok := [dir_Y; Sep "-"; dir_m; Sep "-"; dir_d].
(** ['%Y-%m-%d %H:%M:%S'], the blank of the format standing for [\s+]. *)
Definition fmt_datetime : list tok :=
  [dir_Y; Sep "-"; dir_m; Sep "-"; dir_d; Ws; dir_H; Sep ":"; dir_M; Sep ":"; dir_S].

Fixpoint match_classes (cs : list (ascii -> bool)) (s : string) : option (string * string) :=
  match cs with
  | [] => Some (EmptyString, s)
  | p :: cs' =>
      match s with
      | EmptyString => None
      | String c t =>
          if p c then
            match match_classes cs' t with
            | Some (g, r) => Some (String c g, r)
            | None => None
            end
          else None
      end
  end.

Fixpoint match_fmt (fmt : list tok) (s : string) : option (list string * string) :=
  match fmt with
  | [] => Some ([], s)
  | Dir alts :: fmt' =>
      (fix try (alts : list (list (ascii -> bool))) : option (list string * string) :=
         match alts with
         | [] => None
         | a :: alts' =>
             match match_classes a s with
             | Some (g, r) =>
                 match match_fmt fmt' r with
                 | Some (gs, r') => Some (g :: gs, r')
                 | None => try alts'
                 end
             | None => try alts'
             end
         end) alts
  | Sep c :: fmt' =>
      match s with
      | String c' t => if Ascii.eqb c' c then match_fmt fmt' t else None
      | EmptyString => None
      end
  | Ws :: fmt' =>
      match s with
      | String c t => if isspace c then match_fmt fmt' (lstrip t) else None
      | EmptyString => None
      end
  end.

Record datetime : Type := mkdatetime {
  year : Z; month : Z; day : Z; hour : Z; minute : Z; second : Z }.

Definition is_leap (y : Z) : bool :=
  (y mod 4 =? 0)%Z && (negb (y mod 100 =? 0)%Z || (y mod 400 =? 0)%Z).

Definition days_in_month (y m : Z) : Z :=
  if (m =? 2)%Z then (if is_leap y then 29 else 28)%Z
  else if ((m =? 4) || (m =? 6) || (m =? 9) || (m =? 11))%Z then 30%Z
  else 31%Z.

(** The constructor [datetime(y, m, d, H, M, S)] and its range checks. *)
Definition make_datetime (y m d hh mm ss : Z) : res datetime :=
  if negb ((1 <=? y) && (y <=? 9999))%Z then
    Raise (ValueError ("year " ++ py_str y ++ " is out of range"))
  else if negb ((1 <=? m) && (m <=? 12))%Z then
    Raise (ValueError "month must be in 1..12")
  else if negb ((1 <=? d) && (d <=? days_in_month y m))%Z then
    Raise (ValueError "day is out of range for month")
  else if negb ((0 <=? hh) && (hh <=? 23))%Z then
    Raise (ValueError "hour must be in 0..23")
  else if negb ((0 <=? mm) && (mm <=? 59))%Z then
    Raise (ValueError "minute must be in 0..59")
  else if negb ((0 <=? ss) && (ss <=? 59))%Z then
    Raise (ValueError "second must be in 0..59")
  else Ret (mkdatetime y m d hh mm ss).

Definition mismatch (s fmt : string) : exn :=
  ValueError ("time data '" ++ s ++ "' does not match format '" ++ fmt ++ "'").
Definition unconverted (rest : string) : exn :=
  ValueError ("unconverted data remains: " ++ rest).

(** [datetime.strptime(s, '%Y-%m-%d')] *)
Definition strptime_date (s : string) : res datetime :=
  match match_fmt fmt_date s with
  | Some ([gy; gm; gd], rest) =>
      if negb (rest =? "")%string then Raise (unconverted rest)
      else
        y <- py_int gy ;; m <- py_int gm ;; d <- py_int gd ;;
        make_datetime y m d 0 0 0
  | _ => Raise (mismatch s "%Y-%m-%d")
  end.

(** [datetime.strptime(s, '%Y-%m-%d %H:%M:%S')] *)
Definition strptime_datetime (s : string) : res datetime :=
  match match_fmt fmt_datetime s with
  | Some ([gy; gm; gd; gH; gM; gS], rest) =>
      if negb (rest =? "")%string then Raise (unconverted rest)
      else
        y <- py_int gy ;; m <- py_int gm ;; d <- py_int gd ;;
        hh <- py_int gH ;; mm <- py_int gM ;; ss <- py_int gS ;;
        make_datetime y m d hh mm ss
  | _ => Raise (mismatch s "%Y-%m-%d %H:%M:%S")
  end.

(** Comparison of [datetime] objects is lexicographic on their fields. *)
Definition key (t : datetime) : list Z :=
  [year t; month t; day t; hour t; minute t; second t].

Fixpoint lex_gt (a b : list Z) : bool :=
  match a, b with
  | x :: a', y :: b' => (y <? x)%Z || ((x =? y)%Z && lex_gt a' b')
  | _, _ => false
  end.

Definition datetime_gt (a b : datetime) : bool := lex_gt (key a) (key b).
Definition datetime_le (a b : datetime) : bool := negb (datetime_gt a b).

End Strptime.

(** ** [models.py]: the record and its validator *)

Record Leaflet : Type := mkLeaflet {
  title : string;
  thumbnail : string;
  shop_name : string;
  valid_from : string;
  valid_to : string;
  parsed_time : string }.

(** Truth value of a [str]. *)
Definition truthy (s : string) : bool := negb (s =? "")%string.

Module Model.

Import Strptime.

(** The [try] block of [validate]: the three [strptime] calls, a
    [ValueError] turned into a [ValidationException]. *)
Definition check_formats (l : Leaflet) : res unit :=
  match (_ <- strptime_date (valid_from l) ;;
         _ <- strptime_date (valid_to l) ;;
         _ <- strptime_datetime (parsed_time l) ;;
         Ret tt) with
  | Ret _ => Ret tt
  | Raise (ValueError m) => Raise (ValidationException ("Invalid date format: " ++ m))
  | Raise e => Raise e
  end.

Definition order_error (l : Leaflet) : exn :=
  ValidationException
    ("valid_from (" ++ valid_from l ++ ") is after valid_to (" ++ valid_to l ++ ")").

(** The last block of [validate]: date logic, skipped for open-ended
    leaflets. *)
Definition check_order (l : Leaflet) : res unit :=
  if negb (valid_to l =? OPEN_ENDED_DATE)%string then
    from_date <- strptime_date (valid_from l) ;;
    to_date <- strptime_date (valid_to l) ;;
    if datetime_gt from_date to_date then Raise (order_error l) else Ret tt
  else Ret tt.

(** [Leaflet.validate] *)
Definition validate (l : Leaflet) : res bool :=
  if negb (truthy (title l)) || negb (truthy (strip (title l))) then
    Raise (ValidationException "Title cannot be empty")
  else if negb (truthy (thumbnail l)) || negb (startswith "http" (thumbnail l)) then
    Raise (ValidationException ("Invalid thumbnail URL: " ++ thumbnail l))
  else if negb (truthy (shop_name l)) || negb (truthy (strip (shop_name l))) then
    Raise (ValidationException "Shop name cannot be empty")
  else
    _ <- check_formats l ;;
    _ <- check_order l ;;
    Ret true.

(** [Leaflet.is_open_ended] *)
Definition is_open_ended (l : Leaflet) : bool := (valid_to l =? OPEN_ENDED_DATE)%string.

End Model.

(** ** [parsers.py]: the item assembler *)

(** An [img] element as the assembler reads it: [img.get(name)] for the
    three attributes it asks for. *)
Record Img : Type := mkImg {
  src : option string;
  data_src : option string;
  srcset : option string }.

(** A leaflet fragment as the assembler reads it: what each
    [select_one(selector)] finds, text nodes already rendered by
    [get_text(strip=True)]. *)
Record Tag : Type := mkTag {
  h2 : option string;              (* 'h2' *)
  picture_img : option Img;        (* 'div.image-wrapper picture img' *)
  wrapper_img : option Img;        (* 'div.image-wrapper img' *)
  figure_img : option Img;         (* 'figure img' *)
  shop_name_span : option string;  (* 'span.shop-name' *)
  hidden_sm : option string;       (* 'span.hidden-sm' *)
  visible_sm : option string }.    (* 'span.visible-sm' *)

(** The argument [element] is dynamically typed: a tag, or some other
    object (of the named type) that has no [select_one]. *)
Inductive pyobj : Type :=
  | Element (t : Tag)
  | NotElement (type_name : string).

Definition select_one {A : Type} (element : pyobj) (selector : string)
  (found : Tag -> option A) : res (option A) :=
  match element with
  | Element t => Ret (found t)
  | NotElement ty =>
      Raise (AttributeError ("'" ++ ty ++ "' object has no attribute 'select_one'"))
  end.

(** Truth value of [str | None]. *)
Definition truthy_opt (v : option string) : bool :=
  match v with
  | Some s => truthy s
  | None => false
  end.

(** [a or b] *)
Definition py_or (a b : option string) : option string :=
  if truthy_opt a then a else b.

(** [s.split(sep)[0]] *)
Fixpoint before (sep : ascii) (s : string) : string :=
  match s with
  | EmptyString => EmptyString
  | String c t => if Ascii.eqb c sep then EmptyString else String c (before sep t)
  end.

Fixpoint until_space (s : string) : string :=
  match s with
  | EmptyString => EmptyString
  | String c t => if isspace c then EmptyString else String c (until_space t)
  end.

(** [s.split()[0]]: the first whitespace-delimited token, if there is one. *)
Definition first_token (s : string) : res string :=
  match lstrip s with
  | EmptyString => Raise (IndexError "list index out of range")
  | s' => Ret (until_space s')
  end.

Module LeafletParser.

Record t : Type := mk { base_url : string; debug : bool }.

Section Assembler.

(** [urllib.parse.urljoin], which lives outside the repository; it may
    raise (a [ValueError] on a malformed authority, for instance). *)
Variable urljoin : string -> string -> res string.

Variable self : t.

(** [img.get('src') or img.get('data-src')], returned when truthy. *)
Definition src_or_data_src (img : Img) : option string :=
  let thumbnail := py_or (src img) (data_src img) in
  if truthy_opt thumbnail then thumbnail else None.

(** [LeafletParser._extract_thumbnail] *)
Definition _extract_thumbnail (element : pyobj) : res (option string) :=
  (* Strategy 1: standard selector *)
  img_elem <- select_one element "div.image-wrapper picture img" picture_img ;;
  first <-
    match img_elem with
    | Some img =>
        if truthy_opt (src img) then Ret (src img)
        else if truthy_opt (data_src img) then Ret (data_src img)
        else
          match srcset img with
          | Some set =>
              if truthy set then
                thumbnail <- first_token (before "," set) ;;
                Ret (Some thumbnail)
              else Ret None
          | None => Ret None
          end
    | None => Ret None
    end ;;
  match first with
  | Some thumbnail => Ret (Some thumbnail)
  | None =>
      (* Strategy 2: without the picture wrapper *)
      img_elem <- select_one element "div.image-wrapper img" wrapper_img ;;
      match match img_elem with
            | Some img => src_or_data_src img
            | None => None
            end with
      | Some thumbnail => Ret (Some thumbnail)
      | None =>
          (* Strategy 3: any img in a figure *)
          img_elem <- select_one element "figure img" figure_img ;;
          match img_elem with
          | Some img => Ret (src_or_data_src img)
          | None => Ret None
          end
      end
  end.

(** The body of the [try] block of [parse]; [now] is the clock reading
    [datetime.now().strftime('%Y-%m-%d %H:%M:%S')]. *)
Definition parse_body (element : pyobj) (shop_name : option string) (index : nat)
  (now : string) : res (option Leaflet) :=
  title_elem <- select_one element "h2" h2 ;;
  match title_elem with
  | None => Ret None
  | Some title =>
      thumbnail <- _extract_thumbnail element ;;
      if negb (truthy_opt thumbnail) then Ret None
      else
        let thumbnail := match thumbnail with Some u => u | None => "" end in
        (* Ensure absolute URL *)
        thumbnail <- (if negb (startswith "http" thumbnail)
                      then urljoin (base_url self) thumbnail
                      else Ret thumbnail) ;;
        (* Shop name, the override first *)
        shop <- (if negb (truthy_opt shop_name) then
                   select_one element "span.shop-name" shop_name_span
                 else Ret shop_name) ;;
        match shop with
        | None => Ret None
        | Some shop_name =>
            (* Date range: hidden-sm first, then visible-sm *)
            date_elem <- select_one element "span.hidden-sm" hidden_sm ;;
            date_elem <- (if negb (truthy_opt date_elem)
                          then select_one element "span.visible-sm" visible_sm
                          else Ret date_elem) ;;
            match date_elem with
            | None => Ret None
            | Some date_string =>
                dates <- DateParser.parse_date_range date_string None ;;
                let leaflet :=
                  mkLeaflet title thumbnail shop_name (fst dates) (snd dates) now in
                _ <- Model.validate leaflet ;;
                Ret (Some leaflet)
            end
        end
  end.

(** [LeafletParser.parse]: [except Exception] turns every exception of
    that class into [None]. *)
Definition parse (element : pyobj) (shop_name : option string) (index : nat)
  (now : string) : res (option Leaflet) :=
  match parse_body element shop_name index now with
  | Ret r => Ret r
  | Raise e => if is_Exception e then Ret None else Raise e
  end.

End Assembler.

End LeafletParser.

(** ** [models.py]: shops *)

Record Shop : Type := mkShop {
  name : string;
  url : string }.

(** The right-hand operand of [==]: a shop, or an object of another type. *)
Inductive pyother : Type :=
  | AShop (s : Shop)
  | NotAShop.

Module ShopModel.

(** [Shop.__eq__]: by URL; [False] against anything that is no [Shop]. *)
Definition eq (self : Shop) (other : pyother) : bool :=
  match other with
  | NotAShop => false
  | AShop o => (url self =? url o)%string
  end.

Section Hash.

(** The builtin [hash] on [str]. *)
Variable hash : string -> Z.

(** [Shop.__hash__] *)
Definition hash_ (self : Shop) : Z := hash (url self).

End Hash.

End ShopModel.

(** ** [extractors.py]: the shop list of the sidebar *)

(** A link of the sidebar menu as the extractor reads it:
    [link.get_text(strip=True)] and [link.get('href')]. *)
Record Link : Type := mkLink {
  link_text : string;
  href : option string }.

(** A page as the extractor reads it: the links
    [sidebar.select('ul#left-category-shops li a')] in document order, when
    [soup.select_one('div#sidebar')] finds the sidebar. *)
Record Menu : Type := mkMenu { sidebar : option (list Link) }.

Module ShopExtractor.

Record t : Type := mk { base_url : string }.

Section Extractor.

Variable urljoin : string -> string -> res string.

Variable self : t.

(** The [for link in shop_links] loop. *)
Fixpoint extract_loop (shop_links : list Link) (shops : list Shop) : res (list Shop) :=
  match shop_links with
  | [] => Ret shops
  | link :: rest =>
      let name := link_text link in
      let url := href link in
      if negb (truthy_opt url) then extract_loop rest shops
      else
        let url := match url with Some u => u | None => "" end in
        (* Ensure absolute URL *)
        url <- (if negb (startswith "http" url)
                then urljoin (base_url self) url
                else Ret url) ;;
        extract_loop rest (shops ++ [mkShop name url])
  end.

(** [ShopExtractor.extract_shops] *)
Definition extract_shops (html : Menu) : res (list Shop) :=
  match sidebar html with
  | None => Ret []
  | Some shop_links => extract_loop shop_links []
  end.

End Extractor.

End ShopExtractor.

(** [config.py] *)
Definition HYPERMARKETS_URL : string := "https://www.prospektmaschine.de/hypermarkte/".

(** ** [scrapers.py]: the page pipeline *)

(** A page as the pipeline reads it: the item fragments
    [container.select('div.brochure-thumb.grid-item')] in document order,
    when [soup.select_one('div.letaky-grid')] finds a container. *)
Record Page : Type := mkPage { letaky_grid : option (list Tag) }.

Module LeafletScraper.

Section Pipeline.

Variable urljoin : string -> string -> res string.

(** [self.leaflet_parser = LeafletParser(BASE_URL, debug=debug)] *)
Definition leaflet_parser (debug : bool) : LeafletParser.t :=
  LeafletParser.mk BASE_URL debug.

Variable debug : bool.

(** The clock reading taken while the fragment of a given ordinal is
    assembled. *)
Variable clock : nat -> string.

(** The [for idx, element in enumerate(leaflet_elements, 1)] loop. *)
Fixpoint extract_loop (shop_name : option string) (elements : list Tag) (idx : nat)
  (leaflets : list Leaflet) : res (list Leaflet) :=
  match elements with
  | [] => Ret leaflets
  | element :: rest =>
      leaflet <- LeafletParser.parse urljoin (leaflet_parser debug)
                   (Element element) shop_name idx (clock idx) ;;
      let leaflets :=
        match leaflet with
        | Some l => leaflets ++ [l]
        | None => leaflets
        end in
      extract_loop shop_name rest (S idx) leaflets
  end.

(** [LeafletScraper.extract_leaflets_from_page] *)
Definition extract_leaflets_from_page (page : Page) (shop_name : option string)
  : res (list Leaflet) :=
  match letaky_grid page with
  | None => Ret []
  | Some leaflet_elements =>
      match leaflet_elements with
      | [] => Ret []
      | _ => extract_loop shop_name leaflet_elements 1 []
      end
  end.

End Pipeline.

Section Scraping.

Variable urljoin : string -> string -> res string.

Variable debug : bool.

(** [self.fetch_page(url)] for the request of a given ordinal: the page
    text, or the exception the request ends with. *)
Variable fetch_page : nat -> string -> res string.

(** [BeautifulSoup(html, 'html.parser')] as the two readers see it. *)
Variable page_of : string -> Page.
Variable menu_of : string -> Menu.

(** The clock reading taken while the fragment of a given ordinal of the
    request of a given ordinal is assembled. *)
Variable clock : nat -> nat -> string.

(** [self.shop_extractor = ShopExtractor(BASE_URL)] *)
Definition shop_extractor : ShopExtractor.t := ShopExtractor.mk BASE_URL.

(** [sum(1 for l in leaflets if l.is_open_ended())] *)
Definition count_open_ended (leaflets : list Leaflet) : nat :=
  List.length (filter Model.is_open_ended leaflets).

(** [LeafletScraper.scrape_shop], as the request of ordinal [visit]. *)
Definition scrape_shop (visit : nat) (shop : Shop) : res (list Leaflet) :=
  match (html <- fetch_page visit (url shop) ;;
         leaflets <- extract_leaflets_from_page urljoin debug (clock visit)
                       (page_of html) (Some (name shop)) ;;
         Ret leaflets) with
  | Ret leaflets => Ret leaflets
  | Raise e => if is_Exception e then Ret [] else Raise e
  end.

(** The variables of the loop of [scrape_all_shops]. *)
Record Totals : Type := mkTotals {
  all_leaflets : list Leaflet;
  successful_shops : nat;
  failed_shops : nat;
  open_ended_total : nat }.

(** The [for idx, shop in enumerate(shops, 1)] loop. *)
Fixpoint scrape_loop (shops : list Shop) (idx : nat) (st : Totals) : res Totals :=
  match shops with
  | [] => Ret st
  | shop :: rest =>
      leaflets <- scrape_shop idx shop ;;
      let st :=
        match leaflets with
        | [] => mkTotals (all_leaflets st) (successful_shops st)
                         (failed_shops st + 1) (open_ended_total st)
        | _ => mkTotals (all_leaflets st ++ leaflets) (successful_shops st + 1)
                        (failed_shops st)
                        (open_ended_total st + count_open_ended leaflets)
        end in
      scrape_loop rest (S idx) st
  end.

(** [scrape_all_shops] up to the end of its loop: the loop variables. *)
Definition scrape_all_shops_totals : res Totals :=
  html <- fetch_page 0 HYPERMARKETS_URL ;;
  shops <- ShopExtractor.extract_shops urljoin shop_extractor (menu_of html) ;;
  match shops with
  | [] => Raise (ScraperException "No shops found in sidebar menu")
  | _ => scrape_loop shops 1 (mkTotals [] 0 0 0)
  end.

(** [LeafletScraper.scrape_all_shops] *)
Definition scrape_all_shops : res (list Leaflet) :=
  st <- scrape_all_shops_totals ;;
  Ret (all_leaflets st).

(** [LeafletScraper.scrape] *)
Definition scrape : res (list Leaflet) := scrape_all_shops.

End Scraping.

End LeafletScraper.

(** ** Reference values used in the statements below *)

(** The sentinel as a [datetime]: [strptime(OPEN_ENDED_DATE, '%Y-%m-%d')]. *)
Definition sentinel : Strptime.datetime := Strptime.mkdatetime 9999 12 31 0 0 0.

Definition open_ended_sample : Leaflet :=
  mkLeaflet "Angebote" "https://www.prospektmaschine.de/img/a.jpg" "Lidl"
            "2025-10-01" "9999-12-31" "2026-02-03 10:15:00".

(** An instance of [urljoin] for the closed examples: on a reference that
    is an absolute path (["/..."], not ["//..."]) free of dot segments,
    joined to a base without a path, the library function returns the base
    followed by the reference.  The examples resolve no other reference;
    for those this instance reports a [ValueError]. *)
Definition urljoin_sample (base url : string) : res string :=
  match url with
  | String "/" (String "/" _) => Raise (ValueError "reference not covered")
  | String "/" _ => Ret (base ++ url)%string
  | _ => Raise (ValueError "reference not covered")
  end.

Definition parser_sample : LeafletParser.t := LeafletParser.mk BASE_URL false.

Definition now_sample : string := "2026-02-03 10:15:00".

(** Follows the specification's words: an absolute thumbnail URL is one
    that begins with an HTTP(S) scheme. *)
Definition has_http_scheme (url : string) : bool :=
  startswith "http://" url || startswith "https://" url.

(** The record [l] with another thumbnail. *)
Definition with_thumbnail (l : Leaflet) (url : string) : Leaflet :=
  mkLeaflet (title l) url (shop_name l) (valid_from l) (valid_to l) (parsed_time l).

(** [only_Exception m]: whatever [m] raises is an instance of [Exception]. *)
Definition only_Exception {A : Type} (m : res A) : Prop :=
  forall e, m = Raise e -> is_Exception e = true.

(** A fragment whose image source is a relative reference that happens to
    begin with the letters [http]. *)
Definition tag_httpdocs : Tag :=
  mkTag (Some "Angebote") (Some (mkImg (Some "httpdocs/a.png") None None))
        None None (Some "Lidl") (Some "02.02.2026 - 07.02.2026") None.

Definition leaflet_httpdocs : Leaflet :=
  mkLeaflet "Angebote" "httpdocs/a.png" "Lidl" "2026-02-02" "2026-02-07" now_sample.

(** A fragment with a rooted image path, one without a shop-name label,
    and one with a lazy-loaded image and the compact date label. *)
Definition tag_rooted : Tag :=
  mkTag (Some "Wochenangebote") (Some (mkImg (Some "/img/a.jpg") None None))
        None None (Some "Lidl") (Some "02.02.2026 - 07.02.2026") None.

Definition tag_no_shop : Tag :=
  mkTag (Some "Prospekt") (Some (mkImg (Some "/img/b.jpg") None None))
        None None None (Some "02.02.2026 - 07.02.2026") None.

Definition tag_lazy : Tag :=
  mkTag (Some "Dauerangebote") (Some (mkImg None (Some "https://cdn.example/c.jpg") None))
        None None (Some "Kaufland") None (Some "ab 01.10.2025").

Definition leaflet_rooted : Leaflet :=
  mkLeaflet "Wochenangebote" "https://www.prospektmaschine.de/img/a.jpg" "Lidl"
            "2026-02-02" "2026-02-07" now_sample.

Definition leaflet_relative : Leaflet := with_thumbnail leaflet_rooted "/img/a.jpg".

Definition leaflet_lazy : Leaflet :=
  mkLeaflet "Dauerangebote" "https://cdn.example/c.jpg" "Kaufland"
            "2025-10-01" "9999-12-31" now_sample.

Definition page_sample : Page := mkPage (Some [tag_rooted; tag_no_shop; tag_lazy]).

Definition clock_sample (idx : nat) : string := now_sample.

(** The assembler's results for the fragments of a page, in document
    order, ordinals counted from [idx]. *)
Definition assembled (urljoin : string -> string -> res string) (debug : bool)
  (clock : nat -> string) (shop_name : option string) (idx : nat) (elements : list Tag)
  : list (res (option Leaflet)) :=
  map (fun ie : nat * Tag =>
         LeafletParser.parse urljoin (LeafletScraper.leaflet_parser debug)
           (Element (snd ie)) shop_name (fst ie) (clock (fst ie)))
      (combine (seq idx (List.length elements)) elements).

(** The non-null entries of a list of results, in order. *)
Definition non_null (rs : list (option Leaflet)) : list Leaflet :=
  flat_map (fun r => match r with Some l => [l] | None => [] end) rs.

(** ** Predicates on texts used in the statements below *)

(** Every character of [s] satisfies [p]. *)
Fixpoint all (p : ascii -> bool) (s : string) : bool :=
  match s with
  | EmptyString => true
  | String c t => p c && all p t
  end.

(** The number of characters of [s] that satisfy [p]. *)
Fixpoint count (p : ascii -> bool) (s : string) : nat :=
  match s with
  | EmptyString => O
  | String c t => (if p c then 1 else 0) + count p t
  end.

(** [s] is whitespace only. *)
Definition spaces (s : string) : bool := all isspace s.

(** [s] consists of exactly [n] digits. *)
Definition digits (n : nat) (s : string) : bool :=
  (String.length s =? n)%nat && all isdigit s.

Fixpoint last_char (s : string) : option ascii :=
  match s with
  | EmptyString => None
  | String c EmptyString => Some c
  | String _ t => last_char t
  end.

(** [s] with every character lower-cased. *)
Fixpoint lower (s : string) : string :=
  match s with
  | EmptyString => EmptyString
  | String c t => String (tolower c) (lower t)
  end.

(** The ten words the normalisation removes. *)
Definition PREFIXES : list string := ["von"; "ab"; "seit"].
Definition removed_words : list string := GERMAN_DAYS ++ PREFIXES.

(** Keywords are non-empty and made of ASCII letters. *)
Definition keyword (k : string) : bool := negb (k =? "")%string && all isalpha_az k.

(** One alternative of [\b(k1|...)\b] tried at the current position. *)
Definition attempt (k : string) (prev : option ascii) (s : string) : bool :=
  match Re.match_lit_ci k prev s with
  | Some (last, rest) => Re.boundary last (head rest)
  | None => false
  end.

(** [K] is, up to letter case, one of the alternatives. *)
Definition among (ks : list string) (K : string) : bool :=
  existsb (fun k => (lower k =? lower K)%string) ks.

(** The passes of the normalisation (lines 55-59), in order: one per day
    name, then the prefixes. *)
Definition passes : list (list string) :=
  map (fun day => [day]) GERMAN_DAYS ++ [PREFIXES].

(** A sequence of [re.sub] passes applied one after the other. *)
Definition run (L : list (list string)) (s : string) : string :=
  fold_left (fun s alts => Re.sub_words alts s) L s.

Definition remove_words (s : string) : string := run passes s.

(** [a] is empty or ends with a non-word character. *)
Definition ends_nonword (a : string) : Prop :=
  a = "" \/ exists a' x, a = (a' ++ String x "")%string /\ isword x = false.

Definition nonalpha (c : ascii) : bool := negb (isalpha_az c).
Definition nondigit (c : ascii) : bool := negb (isdigit c).

(** The three textual forms of section 4.1, from their parts: day, month
    and year groups and the whitespace around the dash. *)
Definition single_date (d m y : string) : string :=
  (d ++ "." ++ m ++ "." ++ y)%string.

Definition full_range (d1 m1 y1 w1 w2 d2 m2 y2 : string) : string :=
  (d1 ++ "." ++ m1 ++ "." ++ y1 ++ w1 ++ "-" ++ w2 ++ d2 ++ "." ++ m2 ++ "." ++ y2)%string.

Definition short_range (d1 m1 w1 w2 d2 m2 y2 : string) : string :=
  (d1 ++ "." ++ m1 ++ "." ++ w1 ++ "-" ++ w2 ++ d2 ++ "." ++ m2 ++ "." ++ y2)%string.

(** The number of digits a pattern consumes, and the sizes of its groups. *)
Fixpoint need (p : Re.regex) : nat :=
  match p with
  | [] => O
  | Re.Digits n :: p' => (n + need p')%nat
  | _ :: p' => need p'
  end.

Fixpoint group_sizes (p : Re.regex) : list nat :=
  match p with
  | [] => []
  | Re.Digits n :: p' => n :: group_sizes p'
  | _ :: p' => group_sizes p'
  end.

(** ** Words of a text *)

(** A text cut into its maximal runs of word characters and its single
    non-word characters. *)
Inductive token : Type :=
  | Word (w : string)
  | Other (c : ascii).

Fixpoint tokenize (s : string) : list token :=
  match s with
  | EmptyString => []
  | String c t =>
      if isword c then
        match tokenize t with
        | Word w :: ts => Word (String c w) :: ts
        | ts => Word (String c EmptyString) :: ts
        end
      else Other c :: tokenize t
  end.

Fixpoint untokenize (ts : list token) : string :=
  match ts with
  | [] => EmptyString
  | Word w :: ts' => (w ++ untokenize ts')%string
  | Other c :: ts' => String c (untokenize ts')
  end.

(** A token survives a pass unless it is a word that is, up to letter
    case, one of the alternatives. *)
Definition kept (alts : list string) (t : token) : bool :=
  match t with
  | Word w => negb (among alts w)
  | Other _ => true
  end.

Definition kept_by_all (L : list (list string)) (t : token) : bool :=
  forallb (fun alts => kept alts t) L.

(** Runs are non-empty, made of word characters and never adjacent; the
    other tokens are non-word characters. *)
Fixpoint canon (ts : list token) : bool :=
  match ts with
  | [] => true
  | Other c :: r => negb (isword c) && canon r
  | Word w :: r =>
      negb (w =? "")%string && all isword w
      && match r with Word _ :: _ => false | _ => true end
      && canon r
  end.

(** A token stays in the normalised text unless it is a word that is, up
    to letter case, one of the ten removed words. *)
Definition stays (t : token) : bool :=
  match t with
  | Word w => negb (existsb (String.eqb (lower w)) removed_words)
  | Other _ => true
  end.

(** The ten digits, and a text of two characters. *)
Definition digit_chars : list ascii :=
  ["0"; "1"; "2"; "3"; "4"; "5"; "6"; "7"; "8"; "9"]%char.

Definition two (c1 c2 : ascii) : string := String c1 (String c2 EmptyString).

(** For a two-digit month and a two-digit day: the directives [%m-%d]
    consume both groups whole exactly when the month is 1..12 and the day
    1..31. *)
Definition month_day_check (c1 c2 e1 e2 : ascii) : bool :=
  let m := two c1 c2 in
  let d := two e1 e2 in
  match py_int m, py_int d with
  | Ret b, Ret c =>
      let ok := ((1 <=? b) && (b <=? 12) && (1 <=? c) && (c <=? 31))%Z in
      match Strptime.match_fmt [Strptime.dir_m; Strptime.Sep "-"; Strptime.dir_d]
              (m ++ "-" ++ d) with
      | Some ([gm; gd], EmptyString) => ok && (gm =? m)%string && (gd =? d)%string
      | _ => negb ok
      end
  | _, _ => false
  end.

(** The item fragments of a page, none when it has no container. *)
Definition fragments (page : Page) : list Tag :=
  match letaky_grid page with
  | Some elements => elements
  | None => []
  end.

(** The results of [scrape_shop] for the shops of a list, in order, the
    requests counted from [idx]. *)
Definition visits (urljoin : string -> string -> res string) (debug : bool)
  (fetch_page : nat -> string -> res string) (page_of : string -> Page)
  (clock : nat -> nat -> string) (idx : nat) (shops : list Shop)
  : list (res (list Leaflet)) :=
  map (fun ishop : nat * Shop =>
         LeafletScraper.scrape_shop urljoin debug fetch_page page_of clock
           (fst ishop) (snd ishop))
      (combine (seq idx (List.length shops)) shops).

(** What the pipeline guarantees of a record collected for a shop-name
    override [shop] from the fragments [elements]. *)
Definition collected (shop : option string) (elements : list Tag) (l : Leaflet) : Prop :=
  Model.validate l = Ret true /\
  (truthy_opt shop = true -> Some (shop_name l) = shop) /\
  exists tag, In tag elements /\ h2 tag = Some (title l).

(** The number of shops that gave at least one record, and of those that
    gave none. *)
Definition with_leaflets (outs : list (list Leaflet)) : nat :=
  List.length (filter (fun o => match o with [] => false | _ => true end) outs).

Definition without_leaflets (outs : list (list Leaflet)) : nat :=
  List.length (filter (fun o => match o with [] => true | _ => false end) outs).

(** Instances of the request, of the two readers and of the clock for the
    closed examples: the hypermarket page lists two shops, the page of the
    first holds the fragments of [page_sample], and the request for the
    second fails. *)
Definition fetch_sample (visit : nat) (url : string) : res string :=
  if (url =? HYPERMARKETS_URL)%string then Ret "menu"
  else if (url =? "https://www.prospektmaschine.de/lidl/")%string then Ret "lidl"
  else Raise (FetchException "Failed to fetch page: 404 Client Error").

Definition page_of_sample (html : string) : Page :=
  if (html =? "lidl")%string then page_sample else mkPage None.

Definition menu_of_sample (html : string) : Menu :=
  if (html =? "menu")%string then
    mkMenu (Some [mkLink "Lidl" (Some "/lidl/");
                  mkLink "Angebote" None;
                  mkLink "Kaufland" (Some "https://www.prospektmaschine.de/kaufland/")])
  else mkMenu None.

Definition visit_clock_sample (visit idx : nat) : string := now_sample.

(** The links the extractor keeps (those with a non-empty [href]) and the
    shop it makes of a kept link. *)
Definition has_href (link : Link) : bool := truthy_opt (href link).

Definition shop_of (urljoin : string -> string -> res string) (base : string)
  (link : Link) : res Shop :=
  let u := match href link with Some u => u | None => "" end in
  url <- (if startswith "http" u then Ret u else urljoin base u) ;;
  Ret (mkShop (link_text link) url).

(** * Properties *)

(** ** Generic facts *)

Lemma truthy_true (s : string) : truthy s = true <-> s <> "".
Proof.
  unfold truthy. rewrite negb_true_iff. apply String.eqb_neq.
Qed.

Lemma bind_ret_inv {A B : Type} (m : res A) (k : A -> res B) (b : B) :
  bind m k = Ret b -> exists a, m = Ret a /\ k a = Ret b.
Proof.
  destruct m as [a|e]; simpl; intros H; [exists a; auto | discriminate].
Qed.

Ltac bind_inv H :=
  let a := fresh "v" in
  let Ha := fresh "Hv" in
  apply bind_ret_inv in H; destruct H as [a [Ha H]].

(** ** The validator *)

Section ValidatorFacts.

Import Strptime Model.

Lemma check_formats_inv (l : Leaflet) :
  check_formats l = Ret tt ->
  exists d1 d2 t,
    strptime_date (valid_from l) = Ret d1 /\
    strptime_date (valid_to l) = Ret d2 /\
    strptime_datetime (parsed_time l) = Ret t.
Proof.
  unfold check_formats.
  destruct (strptime_date (valid_from l)) as [d1|e1]; simpl;
    [|destruct e1; discriminate].
  destruct (strptime_date (valid_to l)) as [d2|e2]; simpl;
    [|destruct e2; discriminate].
  destruct (strptime_datetime (parsed_time l)) as [t|e3]; simpl;
    [|destruct e3; discriminate].
  intros _. exists d1, d2, t. auto.
Qed.

Lemma check_formats_ok (l : Leaflet) d1 d2 t :
  strptime_date (valid_from l) = Ret d1 ->
  strptime_date (valid_to l) = Ret d2 ->
  strptime_datetime (parsed_time l) = Ret t ->
  check_formats l = Ret tt.
Proof.
  intros H1 H2 H3. unfold check_formats. rewrite H1, H2, H3. reflexivity.
Qed.

Lemma check_order_inv (l : Leaflet) d1 d2 :
  strptime_date (valid_from l) = Ret d1 ->
  strptime_date (valid_to l) = Ret d2 ->
  check_order l = Ret tt ->
  valid_to l <> OPEN_ENDED_DATE -> datetime_le d1 d2 = true.
Proof.
  intros H1 H2. unfold check_order, datetime_le.
  destruct (valid_to l =? OPEN_ENDED_DATE)%string eqn:E; simpl.
  - apply String.eqb_eq in E. intros _ Hne. contradiction.
  - rewrite H1, H2. simpl.
    destruct (datetime_gt d1 d2); [discriminate | reflexivity].
Qed.

(** What a successful [validate] has checked. *)
Lemma validate_inv (l : Leaflet) (b : bool) :
  validate l = Ret b ->
  b = true /\
  strip (title l) <> "" /\
  startswith "http" (thumbnail l) = true /\
  strip (shop_name l) <> "" /\
  exists d1 d2 t,
    strptime_date (valid_from l) = Ret d1 /\
    strptime_date (valid_to l) = Ret d2 /\
    strptime_datetime (parsed_time l) = Ret t /\
    (valid_to l <> OPEN_ENDED_DATE -> datetime_le d1 d2 = true).
Proof.
  unfold validate.
  destruct (negb (truthy (title l)) || negb (truthy (strip (title l)))) eqn:Et;
    [discriminate|].
  destruct (negb (truthy (thumbnail l)) || negb (startswith "http" (thumbnail l))) eqn:Eu;
    [discriminate|].
  destruct (negb (truthy (shop_name l)) || negb (truthy (strip (shop_name l)))) eqn:Es;
    [discriminate|].
  apply orb_false_iff in Et, Eu, Es.
  destruct Et as [_ Et], Eu as [_ Eu], Es as [_ Es].
  apply negb_false_iff in Et, Eu, Es.
  intros H. bind_inv H. bind_inv H. injection H as <-.
  destruct v. destruct v0.
  destruct (check_formats_inv _ Hv) as (d1 & d2 & t & H1 & H2 & H3).
  repeat split; try (apply truthy_true; assumption); try assumption.
  exists d1, d2, t. repeat split; try assumption.
  eapply check_order_inv; eassumption.
Qed.

End ValidatorFacts.

(** ** Calendar dates and the open-ended sentinel *)

Section SentinelFacts.

Import Strptime Model.

Lemma days_in_month_le_31 (y m : Z) : (days_in_month y m <= 31)%Z.
Proof.
  unfold days_in_month.
  destruct (m =? 2)%Z; [destruct (is_leap y); lia|].
  destruct ((m =? 4) || (m =? 6) || (m =? 9) || (m =? 11))%Z; lia.
Qed.

Lemma make_datetime_inv (y m d hh mm ss : Z) (t : datetime) :
  make_datetime y m d hh mm ss = Ret t ->
  t = mkdatetime y m d hh mm ss /\
  (1 <= y <= 9999)%Z /\ (1 <= m <= 12)%Z /\ (1 <= d <= days_in_month y m)%Z /\
  (0 <= hh <= 23)%Z /\ (0 <= mm <= 59)%Z /\ (0 <= ss <= 59)%Z.
Proof.
  unfold make_datetime.
  repeat match goal with
  | |- context [if negb (?a && ?b) then _ else _] =>
      destruct a eqn:?; destruct b eqn:?; simpl; try discriminate
  end.
  intros H. injection H as <-. repeat split; lia.
Qed.

Lemma strptime_date_inv (s : string) (t : datetime) :
  strptime_date s = Ret t ->
  exists y m d, make_datetime y m d 0 0 0 = Ret t.
Proof.
  unfold strptime_date.
  destruct (match_fmt fmt_date s) as [[gs rest]|]; [|discriminate].
  destruct gs as [|gy [|gm [|gd [|? ?]]]]; try discriminate.
  destruct (negb (rest =? "")%string); [discriminate|].
  intros H. bind_inv H. bind_inv H. bind_inv H. eauto.
Qed.

(** No calendar date the constructor accepts lies after the sentinel, and
    every other one lies strictly before it. *)
Lemma sentinel_is_greatest (y m d : Z) (t : datetime) :
  make_datetime y m d 0 0 0 = Ret t ->
  datetime_gt t sentinel = false /\ (t <> sentinel -> datetime_gt sentinel t = true).
Proof.
  intros H. apply make_datetime_inv in H.
  destruct H as (-> & Hy & Hm & Hd & _).
  pose proof (days_in_month_le_31 y m) as H31.
  unfold datetime_gt, key, sentinel; simpl.
  split.
  - destruct (9999 <? y)%Z eqn:E1; [lia|]. simpl.
    destruct (y =? 9999)%Z eqn:E2; simpl; [|reflexivity].
    destruct (12 <? m)%Z eqn:E3; [lia|]. simpl.
    destruct (m =? 12)%Z eqn:E4; simpl; [|reflexivity].
    destruct (31 <? d)%Z eqn:E5; [lia|]. simpl.
    destruct (d =? 31)%Z; reflexivity.
  - intros Hne.
    destruct (y <? 9999)%Z eqn:E1; [reflexivity|]. simpl.
    assert (y = 9999%Z) by lia. subst y. simpl.
    destruct (m <? 12)%Z eqn:E3; [reflexivity|]. simpl.
    assert (m = 12%Z) by lia. subst m. simpl.
    destruct (d <? 31)%Z eqn:E5; [reflexivity|]. simpl.
    assert (d = 31%Z) by lia. subst d. contradiction.
Qed.

Lemma strptime_sentinel : strptime_date OPEN_ENDED_DATE = Ret sentinel.
Proof. reflexivity. Qed.

Lemma check_order_open_ended (l : Leaflet) :
  valid_to l = OPEN_ENDED_DATE -> check_order l = Ret tt.
Proof.
  intros H. unfold check_order. rewrite H. reflexivity.
Qed.

End SentinelFacts.

Import Strptime Model.

(** C6.  A record whose [valid_to] is the open-ended sentinel passes the
    ordering check of [validate] whatever its [valid_from] is: the check
    returns normally, and [validate] succeeds as soon as the title,
    thumbnail and shop name pass and [valid_from] and [parsed_time] are
    well formed.  The sentinel is itself the calendar date 9999-12-31, no
    calendar date sorts after it, and every other one sorts strictly
    before it. *)
Theorem C6_open_ended_sentinel :
  (forall l : Leaflet,
      valid_to l = OPEN_ENDED_DATE ->
      check_order l = Ret tt /\
      (forall d t,
          strip (title l) <> "" ->
          startswith "http" (thumbnail l) = true ->
          strip (shop_name l) <> "" ->
          strptime_date (valid_from l) = Ret d ->
          strptime_datetime (parsed_time l) = Ret t ->
          validate l = Ret true)) /\
  strptime_date OPEN_ENDED_DATE = Ret sentinel /\
  (forall y m d t,
      make_datetime y m d 0 0 0 = Ret t ->
      datetime_gt t sentinel = false /\
      (t <> sentinel -> datetime_gt sentinel t = true)) /\
  (forall s t,
      strptime_date s = Ret t ->
      datetime_gt t sentinel = false /\
      (t <> sentinel -> datetime_gt sentinel t = true)).
Proof.
  split; [|split; [|split]].
  - intros l Hto. split; [apply check_order_open_ended; assumption|].
    intros d t Ht Hu Hs Hd Hp.
    assert (Htt : truthy (title l) = true).
    { apply truthy_true. intros E. rewrite E in Ht. apply Ht. reflexivity. }
    assert (Hst : truthy (shop_name l) = true).
    { apply truthy_true. intros E. rewrite E in Hs. apply Hs. reflexivity. }
    assert (Hut : truthy (thumbnail l) = true).
    { apply truthy_true. intros E. rewrite E in Hu. discriminate. }
    apply truthy_true in Ht, Hs.
    unfold validate. rewrite Htt, Ht, Hut, Hu, Hst, Hs. simpl.
    rewrite (check_formats_ok l d sentinel t); try assumption.
    + simpl. rewrite check_order_open_ended by assumption. reflexivity.
    + rewrite Hto. apply strptime_sentinel.
  - apply strptime_sentinel.
  - apply sentinel_is_greatest.
  - intros s t H. apply strptime_date_inv in H. destruct H as (y & m & d & H).
    eapply sentinel_is_greatest; eassumption.
Qed.

Lemma C6_open_ended_sentinel_witness :
  valid_to open_ended_sample = OPEN_ENDED_DATE /\
  check_order open_ended_sample = Ret tt /\
  validate open_ended_sample = Ret true.
Proof.
  destruct C6_open_ended_sentinel as [H _].
  destruct (H open_ended_sample eq_refl) as [H1 H2].
  split; [reflexivity|]. split; [exact H1|].
  eapply H2; try reflexivity; simpl; discriminate.
Defined.

(** ** Exceptions that can leave a computation *)

Lemma only_Exception_ret {A : Type} (a : A) : only_Exception (Ret a).
Proof. intros e H. discriminate. Qed.

Lemma only_Exception_raise {A : Type} (e : exn) :
  is_Exception e = true -> only_Exception (@Raise A e).
Proof. intros He e' H. injection H as <-. exact He. Qed.

Lemma only_Exception_bind {A B : Type} (m : res A) (k : A -> res B) :
  only_Exception m -> (forall a, m = Ret a -> only_Exception (k a)) ->
  only_Exception (bind m k).
Proof.
  intros Hm Hk e. destruct m as [a|e']; simpl; intros H.
  - exact (Hk a eq_refl e H).
  - injection H as <-. apply Hm. reflexivity.
Qed.

Create HintDb exc.
#[local] Hint Resolve only_Exception_ret only_Exception_raise : exc.

Lemma py_int_only (s : string) : only_Exception (py_int s).
Proof.
  unfold py_int. destruct (strip s); auto with exc.
  destruct (int_digits _ _); auto with exc.
Qed.

Section StrptimeExceptions.

Import Strptime.

Lemma make_datetime_only y m d hh mm ss : only_Exception (make_datetime y m d hh mm ss).
Proof.
  unfold make_datetime.
  repeat match goal with
  | |- context [if ?b then _ else _] => destruct b
  end; auto with exc.
Qed.

Lemma make_datetime_ValueError y m d hh mm ss e :
  make_datetime y m d hh mm ss = Raise e -> exists msg, e = ValueError msg.
Proof.
  unfold make_datetime.
  repeat match goal with
  | |- context [if ?b then _ else _] => destruct b
  end; intros H; try discriminate; injection H as <-; eauto.
Qed.

Lemma py_int_ValueError s e : py_int s = Raise e -> exists msg, e = ValueError msg.
Proof.
  unfold py_int. destruct (strip s).
  - intros H. injection H as <-. eauto.
  - destruct (int_digits _ _); intros H; [discriminate|]. injection H as <-. eauto.
Qed.

Lemma bind_ValueError {A B : Type} (m : res A) (k : A -> res B) :
  (forall e, m = Raise e -> exists msg, e = ValueError msg) ->
  (forall a e, k a = Raise e -> exists msg, e = ValueError msg) ->
  forall e, bind m k = Raise e -> exists msg, e = ValueError msg.
Proof.
  intros Hm Hk e. destruct m as [a|e']; simpl; intros H.
  - eapply Hk; eassumption.
  - injection H as <-. apply Hm. reflexivity.
Qed.

Lemma strptime_date_ValueError s e :
  strptime_date s = Raise e -> exists msg, e = ValueError msg.
Proof.
  unfold strptime_date, mismatch, unconverted.
  destruct (match_fmt fmt_date s) as [[gs rest]|];
    [|intros H; injection H as <-; eauto].
  destruct gs as [|gy [|gm [|gd [|? ?]]]];
    try (intros H; injection H as <-; eauto; fail).
  destruct (negb (rest =? "")%string); [intros H; injection H as <-; eauto|].
  repeat (apply bind_ValueError; [apply py_int_ValueError | intros ?]).
  apply make_datetime_ValueError.
Qed.

Lemma strptime_datetime_ValueError s e :
  strptime_datetime s = Raise e -> exists msg, e = ValueError msg.
Proof.
  unfold strptime_datetime, mismatch, unconverted.
  destruct (match_fmt fmt_datetime s) as [[gs rest]|];
    [|intros H; injection H as <-; eauto].
  destruct gs as [|gy [|gm [|gd [|gH [|gM [|gS [|? ?]]]]]]];
    try (intros H; injection H as <-; eauto; fail).
  destruct (negb (rest =? "")%string); [intros H; injection H as <-; eauto|].
  repeat (apply bind_ValueError; [apply py_int_ValueError | intros ?]).
  apply make_datetime_ValueError.
Qed.

End StrptimeExceptions.

(** [validate] raises nothing but [ValidationException]. *)
Lemma validate_raises (l : Leaflet) (e : exn) :
  Model.validate l = Raise e -> exists msg, e = ValidationException msg.
Proof.
  unfold Model.validate.
  repeat match goal with
  | |- context [if ?b then _ else _] =>
      destruct b; [intros H; injection H as <-; eauto|]
  end.
  unfold Model.check_formats, Model.check_order, Model.order_error.
  destruct (Strptime.strptime_date (valid_from l)) as [d1|e1] eqn:E1; simpl.
  2:{ destruct (strptime_date_ValueError _ _ E1) as [m ->].
      intros H. injection H as <-. eauto. }
  destruct (Strptime.strptime_date (valid_to l)) as [d2|e2] eqn:E2; simpl.
  2:{ destruct (strptime_date_ValueError _ _ E2) as [m ->].
      intros H. injection H as <-. eauto. }
  destruct (Strptime.strptime_datetime (parsed_time l)) as [t|e3] eqn:E3; simpl.
  2:{ destruct (strptime_datetime_ValueError _ _ E3) as [m ->].
      intros H. injection H as <-. eauto. }
  destruct (negb (valid_to l =? OPEN_ENDED_DATE)%string); simpl; [|discriminate].
  destruct (Strptime.datetime_gt d1 d2); simpl; [|discriminate].
  intros H. injection H as <-. eauto.
Qed.

Lemma validate_only (l : Leaflet) : only_Exception (Model.validate l).
Proof.
  intros e H. destruct (validate_raises _ _ H) as [m ->]. reflexivity.
Qed.

(** [parse_date_range] raises nothing but [ParsingException]. *)
Lemma parse_date_range_body_only (s : string) :
  only_Exception (DateParser.parse_date_range_body s).
Proof.
  unfold DateParser.parse_date_range_body, DateParser.unpack_error.
  destruct (Re.search _ _) as [gs|].
  { destruct gs as [|? [|? [|? [|? [|? [|? [|? ?]]]]]]]; auto with exc. }
  destruct (Re.search _ _) as [gs|].
  { destruct gs as [|? [|? [|? [|? [|? [|? ?]]]]]]; auto with exc.
    apply only_Exception_bind; [apply py_int_only|intros m1 _].
    apply only_Exception_bind; [apply py_int_only|intros m2 _].
    apply only_Exception_bind; [|intros; auto with exc].
    destruct (m1 <=? m2)%Z; auto with exc.
    apply only_Exception_bind; [apply py_int_only|intros; auto with exc]. }
  destruct (Re.search _ _) as [gs|].
  { destruct gs as [|? [|? [|? [|? ?]]]]; auto with exc. }
  auto with exc.
Qed.

Lemma parse_date_range_raises (s : string) (cy : option Z) (e : exn) :
  DateParser.parse_date_range s cy = Raise e -> exists msg, e = ParsingException msg.
Proof.
  unfold DateParser.parse_date_range.
  pose proof (parse_date_range_body_only s) as Hb.
  destruct (DateParser.parse_date_range_body s) as [r|e']; [discriminate|].
  specialize (Hb e' eq_refl).
  destruct e'; simpl in *; try discriminate;
    intros H; injection H as <-; eauto.
Qed.

Lemma parse_date_range_only (s : string) (cy : option Z) :
  only_Exception (DateParser.parse_date_range s cy).
Proof.
  intros e H. destruct (parse_date_range_raises _ _ _ H) as [m ->]. reflexivity.
Qed.

(** ** The assembler *)

Section AssemblerFacts.

Import LeafletParser.

Variable urljoin : string -> string -> res string.
Hypothesis urljoin_only : forall b u, only_Exception (urljoin b u).
Variable self : LeafletParser.t.

Lemma select_one_only {A : Type} element sel (f : Tag -> option A) :
  only_Exception (select_one element sel f).
Proof. destruct element; simpl; auto with exc. Qed.

Lemma first_token_only s : only_Exception (first_token s).
Proof. unfold first_token. destruct (lstrip s); auto with exc. Qed.

Lemma extract_thumbnail_only element :
  only_Exception (_extract_thumbnail element).
Proof.
  unfold _extract_thumbnail.
  apply only_Exception_bind; [apply select_one_only|intros img1 _].
  apply only_Exception_bind.
  - destruct img1 as [img|]; auto with exc.
    destruct (truthy_opt (src img)); auto with exc.
    destruct (truthy_opt (data_src img)); auto with exc.
    destruct (srcset img) as [set|]; auto with exc.
    destruct (truthy set); auto with exc.
    apply only_Exception_bind; [apply first_token_only|intros; auto with exc].
  - intros [u|] _; auto with exc.
    apply only_Exception_bind; [apply select_one_only|intros img2 _].
    destruct (match img2 with Some img => src_or_data_src img | None => None end);
      auto with exc.
    apply only_Exception_bind; [apply select_one_only|intros img3 _].
    destruct img3; auto with exc.
Qed.

Lemma parse_body_only element shop index now :
  only_Exception (parse_body urljoin self element shop index now).
Proof.
  unfold parse_body.
  apply only_Exception_bind; [apply select_one_only|intros title_elem _].
  destruct title_elem as [ttl|]; auto with exc.
  apply only_Exception_bind; [apply extract_thumbnail_only|intros thumb _].
  destruct (negb (truthy_opt thumb)); auto with exc.
  apply only_Exception_bind.
  { destruct (negb (startswith "http" _)); auto with exc. }
  intros u _.
  apply only_Exception_bind.
  { destruct (negb (truthy_opt shop)); auto with exc. apply select_one_only. }
  intros [shop'|] _; auto with exc.
  apply only_Exception_bind; [apply select_one_only|intros d1 _].
  apply only_Exception_bind.
  { destruct (negb (truthy_opt d1)); auto with exc. apply select_one_only. }
  intros [ds|] _; auto with exc.
  apply only_Exception_bind; [apply parse_date_range_only|intros dates _].
  apply only_Exception_bind; [apply validate_only|intros; auto with exc].
Qed.

(** [parse] always returns: a record when the body produced one, [None]
    when the body returned [None] or raised. *)
Lemma parse_returns element shop index now :
  exists r, parse urljoin self element shop index now = Ret r /\
    (forall e, parse_body urljoin self element shop index now = Raise e -> r = None) /\
    (forall l, r = Some l ->
               parse_body urljoin self element shop index now = Ret (Some l)).
Proof.
  unfold parse.
  pose proof (parse_body_only element shop index now) as Hb.
  destruct (parse_body urljoin self element shop index now) as [r|e].
  - exists r. split; [reflexivity|]. split; [discriminate|].
    intros l ->. reflexivity.
  - rewrite (Hb e eq_refl). exists None. split; [reflexivity|].
    split; [reflexivity|discriminate].
Qed.

End AssemblerFacts.

Section AssemblerInversion.

Import LeafletParser.

Variable urljoin : string -> string -> res string.
Variable self : LeafletParser.t.

(** Everything that went right when the body hands out a record. *)
Lemma parse_body_some_inv element shop index now l :
  parse_body urljoin self element shop index now = Ret (Some l) ->
  exists tag raw date_string,
    element = Element tag /\
    h2 tag = Some (title l) /\
    _extract_thumbnail element = Ret (Some raw) /\
    (if negb (startswith "http" raw) then urljoin (base_url self) raw else Ret raw)
      = Ret (thumbnail l) /\
    (if negb (truthy_opt shop) then shop_name_span tag else shop) = Some (shop_name l) /\
    (if negb (truthy_opt (hidden_sm tag)) then visible_sm tag else hidden_sm tag)
      = Some date_string /\
    DateParser.parse_date_range date_string None = Ret (valid_from l, valid_to l) /\
    parsed_time l = now /\
    Model.validate l = Ret true.
Proof.
  unfold parse_body. intros H.
  destruct element as [tag|ty]; [|discriminate].
  simpl in H.
  destruct (h2 tag) as [ttl|] eqn:Eh; [|discriminate].
  apply bind_ret_inv in H. destruct H as (thumb & Hthumb & H).
  destruct thumb as [raw|]; [|discriminate].
  destruct (negb (truthy_opt (Some raw))); [discriminate|].
  apply bind_ret_inv in H. destruct H as (u & Hu & H).
  apply bind_ret_inv in H. destruct H as (shop' & Hshop & H).
  destruct shop' as [sn|]; [|discriminate].
  apply bind_ret_inv in H. destruct H as (d2 & Hd2 & H).
  destruct d2 as [ds|]; [|discriminate].
  apply bind_ret_inv in H. destruct H as ([vf vt] & Hdates & H).
  apply bind_ret_inv in H. destruct H as (b & Hval & H).
  injection H as <-. simpl in *.
  exists tag, raw, ds.
  repeat split; try assumption; try reflexivity.
  - destruct (negb (truthy_opt shop)); simpl in Hshop; congruence.
  - destruct (negb (truthy_opt (hidden_sm tag))); simpl in Hd2; congruence.
  - destruct (validate_inv _ _ Hval) as [-> _]. exact Hval.
Qed.

End AssemblerInversion.

Lemma urljoin_sample_only (b u : string) : only_Exception (urljoin_sample b u).
Proof.
  intros e. unfold urljoin_sample.
  destruct u as [|c u]; [intros H; injection H as <-; reflexivity|].
  destruct (Ascii.ascii_dec c "/") as [->|Hc].
  - destruct u as [|c' u]; [discriminate|].
    destruct (Ascii.ascii_dec c' "/") as [->|Hc'].
    + intros H; injection H as <-; reflexivity.
    + destruct c' as [[] [] [] [] [] [] [] []]; try discriminate;
        intros H; injection H as <-; reflexivity.
  - destruct c as [[] [] [] [] [] [] [] []]; try discriminate;
      try (intros H; injection H as <-; reflexivity).
    contradiction Hc. reflexivity.
Qed.

Lemma parse_some_body urljoin self element shop index now l :
  LeafletParser.parse urljoin self element shop index now = Ret (Some l) ->
  LeafletParser.parse_body urljoin self element shop index now = Ret (Some l).
Proof.
  unfold LeafletParser.parse.
  destruct (LeafletParser.parse_body _ _ _ _ _ _) as [r|e]; [auto|].
  destruct (is_Exception e); discriminate.
Qed.

(** Every record returned by [LeafletParser.parse] has passed [validate]:
    title and shop name are non-empty after stripping, the thumbnail
    begins with the four characters [http], [valid_from], [valid_to] and
    [parsed_time] are accepted by [strptime] in their formats, and
    [valid_from <= valid_to] unless [valid_to] is the open-ended
    sentinel. *)
Theorem returned_record_validated
  (urljoin : string -> string -> res string) (self : LeafletParser.t)
  (element : pyobj) (shop : option string) (index : nat) (now : string) (l : Leaflet) :
  LeafletParser.parse urljoin self element shop index now = Ret (Some l) ->
  validate l = Ret true /\
  strip (title l) <> "" /\
  strip (shop_name l) <> "" /\
  startswith "http" (thumbnail l) = true /\
  exists d1 d2 t,
    strptime_date (valid_from l) = Ret d1 /\
    strptime_date (valid_to l) = Ret d2 /\
    strptime_datetime (parsed_time l) = Ret t /\
    (valid_to l <> OPEN_ENDED_DATE -> datetime_le d1 d2 = true).
Proof.
  intros H. apply parse_some_body in H.
  apply parse_body_some_inv in H.
  destruct H as (tag & raw & ds & _ & _ & _ & _ & _ & _ & _ & _ & Hval).
  destruct (validate_inv _ _ Hval) as (_ & Ht & Hu & Hs & Hd).
  repeat split; assumption.
Qed.

Lemma returned_record_validated_example :
  LeafletParser.parse urljoin_sample parser_sample (Element tag_rooted) None 1 now_sample
    = Ret (Some leaflet_rooted) /\
  validate leaflet_rooted = Ret true /\
  startswith "http" (thumbnail leaflet_rooted) = true.
Proof.
  assert (H : LeafletParser.parse urljoin_sample parser_sample (Element tag_rooted)
                None 1 now_sample = Ret (Some leaflet_rooted)) by reflexivity.
  split; [exact H|].
  destruct (returned_record_validated _ _ _ _ _ _ _ H) as (Hv & _ & _ & Hu & _).
  split; assumption.
Defined.

(** C1.  Of the invariants a returned record must satisfy, the absolute
    thumbnail is not ensured: for a fragment whose image source is the
    relative reference [httpdocs/a.png], [LeafletParser.parse] returns a
    validated record whose thumbnail is that reference, unresolved, which
    begins with no HTTP(S) scheme. *)
Lemma C1_relative_thumbnail_returned :
  LeafletParser.parse urljoin_sample parser_sample (Element tag_httpdocs) None 1 now_sample
    = Ret (Some leaflet_httpdocs) /\
  validate leaflet_httpdocs = Ret true /\
  thumbnail leaflet_httpdocs = "httpdocs/a.png" /\
  has_http_scheme (thumbnail leaflet_httpdocs) = false.
Proof. repeat split. Qed.

(** C4 (amended).  [LeafletParser.parse] never raises an [Exception]
    past its boundary, whatever the cause: it returns a record only when
    the fragment is a tag, every field was resolved, the date text parsed
    and the record validated; in every other case, a fragment of the wrong
    type included, it returns [None]. *)
Theorem C4_parse_never_raises
  (urljoin : string -> string -> res string) (self : LeafletParser.t)
  (element : pyobj) (shop : option string) (index : nat) (now : string) :
  (forall b u, only_Exception (urljoin b u)) ->
  exists r,
    LeafletParser.parse urljoin self element shop index now = Ret r /\
    (forall e, LeafletParser.parse_body urljoin self element shop index now = Raise e ->
               r = None) /\
    (forall ty, element = NotElement ty -> r = None) /\
    (forall l, r = Some l ->
       exists tag raw date_string,
         element = Element tag /\
         h2 tag = Some (title l) /\
         LeafletParser._extract_thumbnail element = Ret (Some raw) /\
         (if negb (startswith "http" raw)
          then urljoin (LeafletParser.base_url self) raw else Ret raw)
           = Ret (thumbnail l) /\
         (if negb (truthy_opt shop) then shop_name_span tag else shop)
           = Some (shop_name l) /\
         (if negb (truthy_opt (hidden_sm tag)) then visible_sm tag else hidden_sm tag)
           = Some date_string /\
         DateParser.parse_date_range date_string None = Ret (valid_from l, valid_to l) /\
         parsed_time l = now /\
         validate l = Ret true).
Proof.
  intros Hu.
  destruct (parse_returns urljoin Hu self element shop index now) as (r & Hr & He & Hl).
  exists r. split; [exact Hr|]. split; [exact He|]. split.
  - intros ty ->. eapply He. reflexivity.
  - intros l ->.
    apply (parse_body_some_inv urljoin self element shop index now).
    apply Hl. reflexivity.
Qed.

Lemma C4_parse_never_raises_witness :
  (forall b u, only_Exception (urljoin_sample b u)) /\
  LeafletParser.parse urljoin_sample parser_sample (Element tag_no_shop) None 2 now_sample
    = Ret None.
Proof.
  split; [exact urljoin_sample_only|].
  destruct (C4_parse_never_raises urljoin_sample parser_sample (Element tag_no_shop)
              None 2 now_sample urljoin_sample_only) as (r & Hr & _).
  rewrite Hr. f_equal. vm_compute in Hr. injection Hr as <-. reflexivity.
Defined.

(** C4 as stated fails: a fragment of the wrong type makes the body raise
    an [AttributeError], and [parse] returns [None] instead of letting it
    propagate. *)
Lemma C4_counterexample :
  LeafletParser.parse_body urljoin_sample parser_sample (NotElement "NoneType") None 1
    now_sample
    = Raise (AttributeError "'NoneType' object has no attribute 'select_one'") /\
  LeafletParser.parse urljoin_sample parser_sample (NotElement "NoneType") None 1
    now_sample = Ret None /\
  ~ (exists e, LeafletParser.parse urljoin_sample parser_sample (NotElement "NoneType")
                 None 1 now_sample = Raise e).
Proof.
  split; [reflexivity|]. split; [reflexivity|].
  intros [e H]. discriminate H.
Qed.

(** ** Thumbnail resolution and the validator's prefix test *)

Lemma validate_rejects_thumbnail (l : Leaflet) :
  startswith "http" (thumbnail l) = false ->
  exists msg, validate l = Raise (ValidationException msg).
Proof.
  intros H. unfold validate.
  destruct (negb (truthy (title l)) || negb (truthy (strip (title l)))); [eauto|].
  rewrite H. rewrite orb_true_r. eauto.
Qed.

Lemma validate_thumbnail_message (l : Leaflet) :
  strip (title l) <> "" ->
  startswith "http" (thumbnail l) = false ->
  validate l = Raise (ValidationException ("Invalid thumbnail URL: " ++ thumbnail l)).
Proof.
  intros Ht H. unfold validate.
  assert (Htt : truthy (title l) = true).
  { apply truthy_true. intros E. rewrite E in Ht. apply Ht. reflexivity. }
  apply truthy_true in Ht. rewrite Htt, Ht, H. simpl.
  rewrite orb_true_r. reflexivity.
Qed.

Lemma validate_with_thumbnail (l : Leaflet) (url : string) :
  strip (title l) <> "" ->
  strip (shop_name l) <> "" ->
  check_formats l = Ret tt ->
  check_order l = Ret tt ->
  startswith "http" url = true ->
  validate (with_thumbnail l url) = Ret true.
Proof.
  intros Ht Hs Hf Ho Hu. unfold validate, with_thumbnail. simpl.
  assert (Htt : truthy (title l) = true).
  { apply truthy_true. intros E. rewrite E in Ht. apply Ht. reflexivity. }
  assert (Hst : truthy (shop_name l) = true).
  { apply truthy_true. intros E. rewrite E in Hs. apply Hs. reflexivity. }
  assert (Hut : truthy url = true).
  { apply truthy_true. intros E. rewrite E in Hu. discriminate. }
  apply truthy_true in Ht, Hs.
  rewrite Htt, Ht, Hut, Hu, Hst, Hs. simpl.
  change (check_formats (mkLeaflet (title l) url (shop_name l) (valid_from l)
                                   (valid_to l) (parsed_time l)))
    with (check_formats l).
  rewrite Hf. simpl.
  change (check_order (mkLeaflet (title l) url (shop_name l) (valid_from l)
                                 (valid_to l) (parsed_time l)))
    with (check_order l).
  rewrite Ho. reflexivity.
Qed.

(** Resolution and validation both test the literal four-character
    prefix [http].  A thumbnail found for a record is handed to [urljoin]
    with the base URL exactly when it does not begin with [http], and is
    kept as found otherwise; a record passes validation only when its
    thumbnail begins with [http]; a record whose thumbnail does not begin
    with [http] fails validation with the thumbnail error, and the same
    record passes once the thumbnail is replaced by a resolved URL that
    begins with [http]. *)
Theorem thumbnail_http_prefix
  (urljoin : string -> string -> res string) (self : LeafletParser.t) :
  (forall element shop index now l,
      LeafletParser.parse urljoin self element shop index now = Ret (Some l) ->
      exists raw,
        LeafletParser._extract_thumbnail element = Ret (Some raw) /\
        (if negb (startswith "http" raw)
         then urljoin (LeafletParser.base_url self) raw else Ret raw)
          = Ret (thumbnail l) /\
        startswith "http" (thumbnail l) = true) /\
  (forall l b, validate l = Ret b -> startswith "http" (thumbnail l) = true) /\
  (forall l, startswith "http" (thumbnail l) = false ->
             exists msg, validate l = Raise (ValidationException msg)) /\
  (forall l resolved,
      strip (title l) <> "" ->
      strip (shop_name l) <> "" ->
      check_formats l = Ret tt ->
      check_order l = Ret tt ->
      startswith "http" (thumbnail l) = false ->
      urljoin (LeafletParser.base_url self) (thumbnail l) = Ret resolved ->
      startswith "http" resolved = true ->
      validate l
        = Raise (ValidationException ("Invalid thumbnail URL: " ++ thumbnail l)) /\
      validate (with_thumbnail l resolved) = Ret true).
Proof.
  split; [|split; [|split]].
  - intros element shop index now l H.
    pose proof (C := H). apply parse_some_body in H.
    apply parse_body_some_inv in H.
    destruct H as (tag & raw & ds & _ & _ & Hraw & Hres & _ & _ & _ & _ & Hval).
    exists raw. split; [exact Hraw|]. split; [exact Hres|].
    apply validate_inv in Hval. tauto.
  - intros l b H. apply validate_inv in H. tauto.
  - apply validate_rejects_thumbnail.
  - intros l resolved Ht Hs Hf Ho Hrel _ Hres. split.
    + apply validate_thumbnail_message; assumption.
    + apply validate_with_thumbnail; assumption.
Qed.

Lemma thumbnail_http_prefix_example :
  startswith "http" (thumbnail leaflet_relative) = false /\
  urljoin_sample BASE_URL (thumbnail leaflet_relative)
    = Ret "https://www.prospektmaschine.de/img/a.jpg" /\
  validate leaflet_relative
    = Raise (ValidationException "Invalid thumbnail URL: /img/a.jpg") /\
  validate leaflet_rooted = Ret true.
Proof.
  destruct (thumbnail_http_prefix urljoin_sample parser_sample) as (_ & _ & _ & H).
  split; [reflexivity|]. split; [reflexivity|].
  apply (H leaflet_relative "https://www.prospektmaschine.de/img/a.jpg");
    try reflexivity; simpl; discriminate.
Defined.

(** C8.  A relative thumbnail reference that begins with the letters
    [http] escapes both the resolution and the validation: the record with
    thumbnail [httpdocs/a.png], which begins with no HTTP(S) scheme,
    passes [validate] as it is, and the assembler returns it without
    having resolved the reference against the base URL. *)
Lemma C8_relative_thumbnail_passes :
  has_http_scheme (thumbnail leaflet_httpdocs) = false /\
  validate leaflet_httpdocs = Ret true /\
  LeafletParser._extract_thumbnail (Element tag_httpdocs) = Ret (Some "httpdocs/a.png") /\
  LeafletParser.parse urljoin_sample parser_sample (Element tag_httpdocs) None 1 now_sample
    = Ret (Some leaflet_httpdocs).
Proof. repeat split. Qed.

(** ** The page pipeline *)

Section PipelineFacts.

Variable urljoin : string -> string -> res string.
Hypothesis urljoin_only : forall b u, only_Exception (urljoin b u).
Variable debug : bool.
Variable clock : nat -> string.
Variable shop : option string.

Lemma extract_loop_spec (elements : list Tag) :
  forall idx acc,
  exists rs,
    assembled urljoin debug clock shop idx elements = map Ret rs /\
    LeafletScraper.extract_loop urljoin debug clock shop elements idx acc
      = Ret (acc ++ non_null rs).
Proof.
  induction elements as [|element rest IH]; intros idx acc.
  - exists []. split; [reflexivity|]. simpl. rewrite app_nil_r. reflexivity.
  - destruct (parse_returns urljoin urljoin_only (LeafletScraper.leaflet_parser debug)
                (Element element) shop idx (clock idx)) as (r & Hr & _).
    destruct (IH (S idx) (match r with Some l => acc ++ [l] | None => acc end))
      as (rs & Hmap & Hloop).
    exists (r :: rs). split.
    + unfold assembled in *. simpl. rewrite Hr, Hmap. reflexivity.
    + simpl. rewrite Hr. simpl. rewrite Hloop.
      destruct r as [l|]; simpl; [rewrite <- app_assoc|]; reflexivity.
Qed.

End PipelineFacts.

(** C9.  [extract_leaflets_from_page] returns the empty list, without
    raising, when the page has no item container or the container holds no
    item fragment; otherwise every fragment is assembled in document
    order, with ordinals from 1, and the output is exactly the non-null
    results in that order. *)
Theorem C9_pipeline_collects_in_order
  (urljoin : string -> string -> res string) (debug : bool) (clock : nat -> string)
  (shop : option string) :
  (forall b u, only_Exception (urljoin b u)) ->
  LeafletScraper.extract_leaflets_from_page urljoin debug clock (mkPage None) shop
    = Ret [] /\
  LeafletScraper.extract_leaflets_from_page urljoin debug clock (mkPage (Some [])) shop
    = Ret [] /\
  forall elements,
    exists rs,
      assembled urljoin debug clock shop 1 elements = map Ret rs /\
      LeafletScraper.extract_leaflets_from_page urljoin debug clock
        (mkPage (Some elements)) shop = Ret (non_null rs).
Proof.
  intros Hu. split; [reflexivity|]. split; [reflexivity|].
  intros elements.
  destruct (extract_loop_spec urljoin Hu debug clock shop elements 1 [])
    as (rs & Hmap & Hloop).
  exists rs. split; [exact Hmap|].
  unfold LeafletScraper.extract_leaflets_from_page. simpl.
  destruct elements as [|e rest].
  - destruct rs; [reflexivity|discriminate].
  - exact Hloop.
Qed.

Lemma C9_pipeline_collects_in_order_witness :
  (forall b u, only_Exception (urljoin_sample b u)) /\
  assembled urljoin_sample false clock_sample None 1 [tag_rooted; tag_no_shop; tag_lazy]
    = [Ret (Some leaflet_rooted); Ret None; Ret (Some leaflet_lazy)] /\
  LeafletScraper.extract_leaflets_from_page urljoin_sample false clock_sample
    page_sample None = Ret [leaflet_rooted; leaflet_lazy].
Proof.
  split; [exact urljoin_sample_only|]. split; [reflexivity|].
  destruct (C9_pipeline_collects_in_order urljoin_sample false clock_sample None
              urljoin_sample_only) as (_ & _ & H).
  destruct (H [tag_rooted; tag_no_shop; tag_lazy]) as (rs & Hmap & Hout).
  unfold page_sample. rewrite Hout.
  vm_compute in Hmap.
  destruct rs as [|r1 [|r2 [|r3 [|? ?]]]]; try discriminate.
  injection Hmap as <- <- <-. reflexivity.
Defined.

(** ** Facts about the character classes *)

Ltac by_cases_on c :=
  destruct c as [[] [] [] [] [] [] [] []]; try reflexivity; try discriminate.

Lemma digit_not_space c : isdigit c = true -> isspace c = false.
Proof. by_cases_on c. Qed.

Lemma digit_not_alpha c : isdigit c = true -> isalpha_az c = false.
Proof. by_cases_on c. Qed.

Lemma digit_is_word c : isdigit c = true -> isword c = true.
Proof. by_cases_on c. Qed.

Lemma space_not_word c : isspace c = true -> isword c = false.
Proof. by_cases_on c. Qed.

Lemma space_not_digit c : isspace c = true -> isdigit c = false.
Proof. by_cases_on c. Qed.

Lemma alpha_is_word c : isalpha_az c = true -> isword c = true.
Proof. by_cases_on c. Qed.

Lemma alpha_not_space c : isalpha_az c = true -> isspace c = false.
Proof. by_cases_on c. Qed.

Lemma nonword_not_alpha c : isword c = false -> isalpha_az c = false.
Proof. by_cases_on c. Qed.

Lemma tolower_alpha c : isalpha_az (tolower c) = isalpha_az c.
Proof. by_cases_on c. Qed.

Lemma tolower_idem c : tolower (tolower c) = tolower c.
Proof. by_cases_on c. Qed.

(** ** Texts *)

Lemma sapp_nil_r (s : string) : (s ++ "")%string = s.
Proof. induction s; simpl; congruence. Qed.

Lemma sapp_assoc (a b c : string) : ((a ++ b) ++ c)%string = (a ++ (b ++ c))%string.
Proof. induction a; simpl; congruence. Qed.

Lemma slength_app (a b : string) :
  String.length (a ++ b) = (String.length a + String.length b)%nat.
Proof. induction a; simpl; congruence. Qed.

Lemma all_app p (a b : string) : all p (a ++ b) = all p a && all p b.
Proof. induction a; simpl; [reflexivity|]. rewrite IHa. apply andb_assoc. Qed.

Lemma count_app p (a b : string) : count p (a ++ b) = (count p a + count p b)%nat.
Proof. induction a; simpl; [reflexivity|]. rewrite IHa. lia. Qed.

Lemma count_all_false p q (s : string) :
  (forall c, p c = true -> q c = false) -> all p s = true -> count q s = 0%nat.
Proof.
  intros Hpq. induction s as [|c t IH]; simpl; [reflexivity|].
  intros H. apply andb_true_iff in H. destruct H as [Hc Ht].
  rewrite (Hpq c Hc). simpl. auto.
Qed.

Lemma count_all p (s : string) : all p s = true -> count p s = String.length s.
Proof.
  induction s as [|c t IH]; simpl; [reflexivity|].
  intros H. apply andb_true_iff in H. destruct H as [-> Ht]. simpl. auto.
Qed.

Lemma all_impl (p q : ascii -> bool) (s : string) :
  (forall c, p c = true -> q c = true) -> all p s = true -> all q s = true.
Proof.
  intros Hpq. induction s as [|c t IH]; simpl; [reflexivity|].
  intros H. apply andb_true_iff in H. destruct H as [Hc Ht].
  rewrite (Hpq c Hc). simpl. auto.
Qed.

Lemma last_char_snoc (s : string) (c : ascii) : last_char (s ++ String c "") = Some c.
Proof.
  induction s as [|d t IH]; simpl; [reflexivity|].
  rewrite IH. destruct (t ++ String c "")%string eqn:E; [|reflexivity].
  destruct t; discriminate.
Qed.

Lemma snoc_cases (s : string) : s = "" \/ exists t c, s = (t ++ String c "")%string.
Proof.
  induction s as [|d t IH]; [left; reflexivity|right].
  destruct IH as [->|(t' & c & ->)].
  - exists "", d. reflexivity.
  - exists (String d t'), c. reflexivity.
Qed.

(** ** Stripping *)

Lemma lstrip_spaces_app (ws s : string) :
  spaces ws = true -> lstrip (ws ++ s) = lstrip s.
Proof.
  induction ws as [|c t IH]; simpl; [reflexivity|].
  intros H. apply andb_true_iff in H. destruct H as [-> Ht]. auto.
Qed.

Lemma lstrip_nonspace (c : ascii) (s : string) :
  isspace c = false -> lstrip (String c s) = String c s.
Proof. intros H. simpl. rewrite H. reflexivity. Qed.

Lemma lstrip_spaces (ws : string) : spaces ws = true -> lstrip ws = "".
Proof.
  intros H. rewrite <- (sapp_nil_r ws). rewrite lstrip_spaces_app by assumption.
  reflexivity.
Qed.

Lemma lstrip_decompose (s : string) :
  exists ws, spaces ws = true /\ s = (ws ++ lstrip s)%string.
Proof.
  induction s as [|c t IH]; [exists ""; split; reflexivity|].
  simpl. destruct (isspace c) eqn:E.
  - destruct IH as (ws & Hws & Ht). exists (String c ws). simpl.
    unfold spaces in *. simpl. rewrite E, Hws. split; [reflexivity|congruence].
  - exists "". split; reflexivity.
Qed.

Lemma rstrip_spaces (ws : string) : spaces ws = true -> rstrip ws = "".
Proof.
  induction ws as [|c t IH]; simpl; [reflexivity|].
  intros H. apply andb_true_iff in H. destruct H as [-> Ht].
  rewrite IH by assumption. reflexivity.
Qed.

Lemma rstrip_app_spaces (s ws : string) :
  spaces ws = true -> rstrip (s ++ ws) = rstrip s.
Proof.
  intros H. induction s as [|c t IH]; simpl.
  - apply rstrip_spaces. assumption.
  - rewrite IH. reflexivity.
Qed.

Lemma rstrip_app_nonempty (s t : string) :
  rstrip t <> "" -> rstrip (s ++ t) = (s ++ rstrip t)%string.
Proof.
  intros H. induction s as [|c s IH]; simpl; [reflexivity|].
  rewrite IH. destruct (s ++ rstrip t)%string eqn:E; [|reflexivity].
  destruct s; simpl in E; [contradiction|discriminate].
Qed.

Lemma rstrip_snoc_nonspace (s : string) (c : ascii) :
  isspace c = false -> rstrip (s ++ String c "") = (s ++ String c "")%string.
Proof.
  intros H.
  assert (E : rstrip (String c "") = String c "") by (simpl; rewrite H; reflexivity).
  rewrite rstrip_app_nonempty; rewrite E; [reflexivity|discriminate].
Qed.

Lemma rstrip_decompose (s : string) :
  exists ws, spaces ws = true /\ s = (rstrip s ++ ws)%string.
Proof.
  induction s as [|c t IH]; [exists ""; split; reflexivity|].
  destruct IH as (ws & Hws & Ht). simpl.
  destruct (rstrip t) eqn:E.
  - destruct (isspace c) eqn:Ec.
    + exists (String c ws). unfold spaces in *. simpl. rewrite Ec, Hws.
      split; [reflexivity|]. simpl in Ht. congruence.
    + exists ws. split; [assumption|]. simpl in *. congruence.
  - exists ws. split; [assumption|]. simpl in *. congruence.
Qed.

Lemma strip_decompose (s : string) :
  exists ws ws', spaces ws = true /\ spaces ws' = true /\
                 s = (ws ++ strip s ++ ws')%string.
Proof.
  destruct (lstrip_decompose s) as (ws & Hws & Hs).
  destruct (rstrip_decompose (lstrip s)) as (ws' & Hws' & Hl).
  exists ws, ws'. unfold strip. repeat split; try assumption.
  rewrite <- Hl. exact Hs.
Qed.

Lemma strip_spaces_around (ws x ws' : string) :
  spaces ws = true -> spaces ws' = true -> strip (ws ++ x ++ ws') = strip x.
Proof.
  intros H H'. unfold strip. rewrite lstrip_spaces_app by assumption.
  destruct (lstrip_decompose x) as (w & Hw & Hx).
  destruct (lstrip x) as [|c t] eqn:E.
  - rewrite sapp_nil_r in Hx. subst x.
    rewrite lstrip_spaces; [reflexivity|].
    unfold spaces in *. rewrite all_app, Hw, H'. reflexivity.
  - assert (Hc : isspace c = false).
    { destruct x as [|d x']; [discriminate|]. clear Hx.
      revert E. clear. revert d. induction x' as [|e x'' IH]; intros d; simpl.
      - destruct (isspace d) eqn:Ed; [discriminate|]. congruence.
      - destruct (isspace d) eqn:Ed.
        + apply IH.
        + intros H. injection H as <- _. assumption. }
    rewrite Hx at 1. rewrite sapp_assoc, lstrip_spaces_app by assumption.
    change ((String c t ++ ws')%string) with (String c (t ++ ws')).
    rewrite lstrip_nonspace by assumption.
    change (String c (t ++ ws')) with ((String c t ++ ws')%string).
    apply rstrip_app_spaces. assumption.
Qed.

Lemma strip_fixed (s : string) (c d : ascii) (t u : string) :
  s = String c t -> s = (u ++ String d "")%string ->
  isspace c = false -> isspace d = false -> strip s = s.
Proof.
  intros Hs Hs' Hc Hd. unfold strip.
  rewrite Hs at 1. rewrite lstrip_nonspace by assumption. rewrite <- Hs.
  rewrite Hs'. apply rstrip_snoc_nonspace. assumption.
Qed.

(** ** Word removal *)

Section SubFacts.

Import Re.

Variable alts : list string.
Hypothesis alts_keywords : forallb keyword alts = true.

Lemma match_word_cons k ks prev s :
  match_word (k :: ks) prev s =
  if attempt k prev s then Some (String.length k) else match_word ks prev s.
Proof.
  unfold attempt. simpl. destruct (match_lit_ci k prev s) as [[last rest]|]; reflexivity.
Qed.

Lemma keyword_inv k :
  keyword k = true ->
  exists p k', k = String p k' /\ isalpha_az p = true /\ all isalpha_az k' = true.
Proof.
  unfold keyword. destruct k as [|p k']; [discriminate|]. simpl.
  intros H. apply andb_true_iff in H. eauto.
Qed.

Lemma tolower_eqb_alpha c p :
  Ascii.eqb (tolower c) (tolower p) = true -> isalpha_az c = isalpha_az p.
Proof.
  intros H. apply Ascii.eqb_eq in H.
  rewrite <- (tolower_alpha c), <- (tolower_alpha p). congruence.
Qed.

(** What a successful literal match has consumed. *)
Lemma match_lit_ci_inv k :
  forall prev s last rest,
  match_lit_ci k prev s = Some (last, rest) ->
  exists m, s = (m ++ rest)%string /\ lower m = lower k /\
            String.length m = String.length k.
Proof.
  induction k as [|p k IH]; intros prev s last rest; simpl.
  - intros H. injection H as <- <-. exists "". auto.
  - destruct s as [|c t]; [discriminate|].
    destruct (Ascii.eqb (tolower c) (tolower p)) eqn:E; [|discriminate].
    intros H. apply IH in H. destruct H as (m & -> & Hl & Hn).
    exists (String c m). simpl. apply Ascii.eqb_eq in E.
    repeat split; congruence.
Qed.

Lemma lower_alpha (m k : string) :
  lower m = lower k -> all isalpha_az k = true -> all isalpha_az m = true.
Proof.
  revert k. induction m as [|c m IH]; intros [|p k]; simpl; try discriminate; auto.
  intros H Hk. injection H as Hc Hm. apply andb_true_iff in Hk. destruct Hk as [Hp Hk].
  rewrite <- (tolower_alpha c), Hc, tolower_alpha, Hp. simpl. eauto.
Qed.

Lemma match_word_inv ks :
  forallb keyword ks = true ->
  forall prev s n,
  match_word ks prev s = Some n ->
  exists m rest, s = (m ++ rest)%string /\ String.length m = n /\
                 all isalpha_az m = true /\ (0 < n)%nat.
Proof.
  induction ks as [|k ks IH]; intros Hks prev s n; [discriminate|].
  simpl in Hks. apply andb_true_iff in Hks. destruct Hks as [Hk Hks].
  rewrite match_word_cons. unfold attempt.
  destruct (match_lit_ci k prev s) as [[last rest]|] eqn:E; [|apply IH; assumption].
  destruct (boundary last (head rest)); [|apply IH; assumption].
  intros H. injection H as <-.
  apply match_lit_ci_inv in E. destruct E as (m & -> & Hl & Hn).
  destruct (keyword_inv _ Hk) as (p & k' & -> & Hp & Hk').
  exists m, rest. repeat split; try assumption.
  - eapply lower_alpha; [eassumption|]. simpl. rewrite Hp, Hk'. reflexivity.
  - simpl. lia.
Qed.

Lemma match_word_at_inv prev s n :
  match_word_at alts prev s = Some n ->
  exists m rest, s = (m ++ rest)%string /\ String.length m = n /\
                 all isalpha_az m = true /\ (0 < n)%nat.
Proof.
  unfold match_word_at. destruct (boundary prev (head s)); [|discriminate].
  apply match_word_inv. exact alts_keywords.
Qed.

(** A keyword cannot start at a character that is no letter, nor at the
    end of the text. *)
Lemma attempt_nonalpha k prev s :
  keyword k = true ->
  match head s with Some c => isalpha_az c = false | None => True end ->
  attempt k prev s = false.
Proof.
  intros Hk Hs. destruct (keyword_inv _ Hk) as (p & k' & -> & Hp & _).
  unfold attempt. simpl. destruct s as [|c t]; [reflexivity|]. simpl in Hs.
  destruct (Ascii.eqb (tolower c) (tolower p)) eqn:E; [|reflexivity].
  apply tolower_eqb_alpha in E. congruence.
Qed.

Lemma match_word_nonalpha ks prev s :
  forallb keyword ks = true ->
  match head s with Some c => isalpha_az c = false | None => True end ->
  match_word ks prev s = None.
Proof.
  intros Hks Hs. induction ks as [|k ks IH]; [reflexivity|].
  simpl in Hks. apply andb_true_iff in Hks. destruct Hks as [Hk Hks].
  rewrite match_word_cons, attempt_nonalpha by assumption. auto.
Qed.

Lemma match_word_at_nonalpha prev s :
  match head s with Some c => isalpha_az c = false | None => True end ->
  match_word_at alts prev s = None.
Proof.
  intros Hs. unfold match_word_at.
  rewrite match_word_nonalpha by assumption.
  destruct (boundary prev (head s)); reflexivity.
Qed.

(** The character before the position matters only through [\b]. *)
Lemma attempt_prev k prev prev' s :
  keyword k = true -> attempt k prev s = attempt k prev' s.
Proof.
  intros Hk. destruct (keyword_inv _ Hk) as (p & k' & -> & _ & _).
  unfold attempt. simpl. destruct s as [|c t]; reflexivity.
Qed.

Lemma match_word_prev ks prev prev' s :
  forallb keyword ks = true -> match_word ks prev s = match_word ks prev' s.
Proof.
  intros Hks. induction ks as [|k ks IH]; [reflexivity|].
  simpl in Hks. apply andb_true_iff in Hks. destruct Hks as [Hk Hks].
  rewrite !match_word_cons, (attempt_prev k prev prev') by assumption.
  rewrite IH by assumption. reflexivity.
Qed.

Lemma match_word_at_prev prev prev' s :
  isword_opt prev = isword_opt prev' ->
  match_word_at alts prev s = match_word_at alts prev' s.
Proof.
  intros H. unfold match_word_at, boundary. rewrite H.
  rewrite (match_word_prev alts prev prev') by assumption. reflexivity.
Qed.

Lemma sub_aux_prev prev prev' s :
  isword_opt prev = isword_opt prev' ->
  sub_aux alts prev 0 s = sub_aux alts prev' 0 s.
Proof.
  intros H. destruct s as [|c t]; [reflexivity|].
  simpl. rewrite (match_word_at_prev prev prev') by assumption. reflexivity.
Qed.

(** Text without letters is copied. *)
Lemma sub_aux_no_alpha s :
  forall prev, all (fun c => negb (isalpha_az c)) s = true ->
  sub_aux alts prev 0 s = s.
Proof.
  induction s as [|c t IH]; intros prev; simpl; [reflexivity|].
  intros H. apply andb_true_iff in H. destruct H as [Hc Ht].
  apply negb_true_iff in Hc.
  rewrite (match_word_at_nonalpha prev (String c t)) by exact Hc.
  rewrite IH by assumption. reflexivity.
Qed.

Lemma sub_aux_no_alpha_app m :
  forall prev r, all (fun c => negb (isalpha_az c)) m = true ->
  exists prev', sub_aux alts prev 0 (m ++ r) = (m ++ sub_aux alts prev' 0 r)%string.
Proof.
  induction m as [|c t IH]; intros prev r; simpl.
  - intros _. exists prev. reflexivity.
  - intros H. apply andb_true_iff in H. destruct H as [Hc Ht].
    apply negb_true_iff in Hc.
    rewrite (match_word_at_nonalpha prev (String c (t ++ r))) by exact Hc.
    destruct (IH (Some c) r Ht) as (prev' & E). rewrite E. eauto.
Qed.

(** The output is made of characters of the input. *)
Lemma sub_aux_all p s :
  forall prev skip, all p s = true -> all p (sub_aux alts prev skip s) = true.
Proof.
  induction s as [|c t IH]; intros prev skip; simpl; [reflexivity|].
  intros H. apply andb_true_iff in H. destruct H as [Hc Ht].
  destruct skip as [|k]; [|auto].
  destruct (match_word_at alts prev (String c t)) as [[|k]|]; simpl;
    try rewrite Hc; simpl; auto.
Qed.

(** *** A character that is no letter stops every keyword *)

Lemma attempt_cons p k prev c t :
  attempt (String p k) prev (String c t) =
  if Ascii.eqb (tolower c) (tolower p) then attempt k (Some c) t else false.
Proof. unfold attempt. simpl. destruct (Ascii.eqb _ _); reflexivity. Qed.

Lemma attempt_lookahead k :
  all isalpha_az k = true ->
  forall a prev x r1 r2, isalpha_az x = false ->
  attempt k prev (a ++ String x r1) = attempt k prev (a ++ String x r2).
Proof.
  induction k as [|p k IH]; intros Hk a prev x r1 r2 Hx.
  - unfold attempt. simpl. destruct a; reflexivity.
  - simpl in Hk. apply andb_true_iff in Hk. destruct Hk as [Hp Hk].
    destruct a as [|c a]; simpl; rewrite !attempt_cons.
    + destruct (Ascii.eqb (tolower x) (tolower p)) eqn:E; [|reflexivity].
      apply tolower_eqb_alpha in E. congruence.
    + destruct (Ascii.eqb _ _); [|reflexivity]. apply IH; assumption.
Qed.

Lemma attempt_lookahead_nonword k :
  all isalpha_az k = true ->
  forall a prev x r, isword x = false ->
  attempt k prev (a ++ String x r) = attempt k prev a.
Proof.
  induction k as [|p k IH]; intros Hk a prev x r Hx.
  - unfold attempt, boundary. simpl. destruct a; simpl; [|reflexivity].
    rewrite Hx. reflexivity.
  - simpl in Hk. apply andb_true_iff in Hk. destruct Hk as [Hp Hk].
    destruct a as [|c a]; simpl.
    + rewrite attempt_cons.
      destruct (Ascii.eqb (tolower x) (tolower p)) eqn:E; [|reflexivity].
      apply tolower_eqb_alpha in E. apply nonword_not_alpha in Hx. congruence.
    + rewrite !attempt_cons. destruct (Ascii.eqb _ _); [|reflexivity].
      apply IH; assumption.
Qed.

Lemma keyword_alpha k : keyword k = true -> all isalpha_az k = true.
Proof. unfold keyword. intros H. apply andb_true_iff in H. tauto. Qed.

Lemma match_word_lookahead ks a prev x r1 r2 :
  forallb keyword ks = true -> isalpha_az x = false ->
  match_word ks prev (a ++ String x r1) = match_word ks prev (a ++ String x r2).
Proof.
  intros Hks Hx. induction ks as [|k ks IH]; [reflexivity|].
  simpl in Hks. apply andb_true_iff in Hks. destruct Hks as [Hk Hks].
  rewrite !match_word_cons.
  rewrite (attempt_lookahead k (keyword_alpha _ Hk) a prev x r1 r2 Hx).
  rewrite IH by assumption. reflexivity.
Qed.

Lemma match_word_lookahead_nonword ks a prev x r :
  forallb keyword ks = true -> isword x = false ->
  match_word ks prev (a ++ String x r) = match_word ks prev a.
Proof.
  intros Hks Hx. induction ks as [|k ks IH]; [reflexivity|].
  simpl in Hks. apply andb_true_iff in Hks. destruct Hks as [Hk Hks].
  rewrite !match_word_cons.
  rewrite (attempt_lookahead_nonword k (keyword_alpha _ Hk) a prev x r Hx).
  rewrite IH by assumption. reflexivity.
Qed.

Lemma match_word_at_lookahead a prev x r1 r2 :
  isalpha_az x = false ->
  match_word_at alts prev (a ++ String x r1) = match_word_at alts prev (a ++ String x r2).
Proof.
  intros Hx. unfold match_word_at.
  rewrite (match_word_lookahead alts a prev x r1 r2) by assumption.
  destruct a; reflexivity.
Qed.

Lemma match_word_at_lookahead_nonword a prev x r :
  isword x = false ->
  match_word_at alts prev (a ++ String x r) = match_word_at alts prev a.
Proof.
  intros Hx. unfold match_word_at.
  rewrite (match_word_lookahead_nonword alts a prev x r) by assumption.
  destruct a; simpl; [|reflexivity].
  unfold boundary. simpl. rewrite Hx. reflexivity.
Qed.

Lemma alpha_prefix_bound m :
  forall a rest x r,
  (m ++ rest)%string = (a ++ String x r)%string ->
  all isalpha_az m = true -> isalpha_az x = false ->
  (String.length m <= String.length a)%nat.
Proof.
  induction m as [|c m IH]; intros a rest x r E Hm Hx; simpl; [lia|].
  simpl in Hm. apply andb_true_iff in Hm. destruct Hm as [Hc Hm].
  destruct a as [|d a]; simpl in E; injection E as -> E.
  - congruence.
  - simpl. apply IH in E; try assumption. lia.
Qed.

(** Up to a character [x] that is no letter, the outcome does not depend
    on what follows [x]. *)
Lemma sub_aux_upto a x :
  isalpha_az x = false ->
  forall prev skip, (skip <= String.length a)%nat ->
  exists a',
    (forall r, sub_aux alts prev skip (a ++ String x r)
               = (a' ++ String x (sub_aux alts (Some x) 0 r))%string) /\
    (forall p, all p a = true -> all p a' = true).
Proof.
  intros Hx. induction a as [|c a IH]; intros prev skip Hskip.
  - exists "". split; [|auto]. intros r. simpl in *.
    assert (skip = 0%nat) as -> by lia.
    rewrite (match_word_at_nonalpha prev (String x r)) by exact Hx. reflexivity.
  - destruct skip as [|k].
    + destruct (match_word_at alts prev (String c a ++ String x "")) as [[|k]|] eqn:M.
      * destruct (IH (Some c) 0%nat ltac:(lia)) as (a' & Ha' & Hall).
        exists (String c a'). split.
        -- intros r. simpl.
           change (String c (a ++ String x r)) with ((String c a ++ String x r)%string).
           rewrite (match_word_at_lookahead (String c a) prev x r "" Hx), M.
           rewrite Ha'. reflexivity.
        -- intros p H. simpl in *. apply andb_true_iff in H. destruct H as [Hc H].
           rewrite Hc. simpl. auto.
      * pose proof (match_word_at_inv _ _ _ M) as (m & rest & E & Hn & Hm & _).
        pose proof (alpha_prefix_bound m (String c a) rest x "" (eq_sym E) Hm Hx) as Hb.
        simpl in Hb.
        destruct (IH (Some c) k ltac:(lia)) as (a' & Ha' & Hall).
        exists a'. split.
        -- intros r. simpl.
           change (String c (a ++ String x r)) with ((String c a ++ String x r)%string).
           rewrite (match_word_at_lookahead (String c a) prev x r "" Hx), M.
           apply Ha'.
        -- intros p H. simpl in H. apply andb_true_iff in H. destruct H as [_ H]. auto.
      * destruct (IH (Some c) 0%nat ltac:(lia)) as (a' & Ha' & Hall).
        exists (String c a'). split.
        -- intros r. simpl.
           change (String c (a ++ String x r)) with ((String c a ++ String x r)%string).
           rewrite (match_word_at_lookahead (String c a) prev x r "" Hx), M.
           rewrite Ha'. reflexivity.
        -- intros p H. simpl in *. apply andb_true_iff in H. destruct H as [Hc H].
           rewrite Hc. simpl. auto.
    + simpl in Hskip. destruct (IH (Some c) k ltac:(lia)) as (a' & Ha' & Hall).
      exists a'. split.
      * intros r. simpl. apply Ha'.
      * intros p H. simpl in H. apply andb_true_iff in H. destruct H as [_ H]. auto.
Qed.

(** At a non-word character the text splits into independent parts. *)
Lemma sub_aux_split a x r :
  isword x = false ->
  forall prev skip, (skip <= String.length a)%nat ->
  sub_aux alts prev skip (a ++ String x r)
  = (sub_aux alts prev skip a ++ String x (sub_aux alts None 0 r))%string.
Proof.
  intros Hx. pose proof (nonword_not_alpha _ Hx) as Hx'.
  induction a as [|c a IH]; intros prev skip Hskip.
  - simpl in *. assert (skip = 0%nat) as -> by lia.
    rewrite (match_word_at_nonalpha prev (String x r)) by exact Hx'.
    rewrite (sub_aux_prev (Some x) None); [reflexivity|].
    simpl. assumption.
  - destruct skip as [|k]; simpl in *.
    + change (String c (a ++ String x r)) with ((String c a ++ String x r)%string).
      rewrite (match_word_at_lookahead_nonword (String c a) prev x r Hx).
      destruct (match_word_at alts prev (String c a)) as [[|k]|] eqn:M.
      * rewrite IH by lia. reflexivity.
      * pose proof (match_word_at_inv _ _ _ M) as (m & rest & E & Hn & Hm & _).
        assert (String.length m <= String.length (String c a))%nat.
        { rewrite E, slength_app. lia. }
        simpl in *. apply IH. lia.
      * rewrite IH by lia. reflexivity.
    + apply IH. lia.
Qed.

(** *** A keyword standing as a whole word *)

Lemma lower_length s : String.length (lower s) = String.length s.
Proof. induction s; simpl; congruence. Qed.

Lemma attempt_whole_word b :
  isword_opt (head b) = false ->
  forall k K prev,
  all isalpha_az k = true -> all isalpha_az K = true -> isword_opt prev = true ->
  attempt k prev (K ++ b) = (lower k =? lower K)%string.
Proof.
  intros Hb. induction k as [|p k IH]; intros K prev Hk HK Hprev.
  - unfold attempt, boundary. simpl. rewrite Hprev.
    destruct K as [|c K]; simpl.
    + rewrite Hb. reflexivity.
    + simpl in HK. apply andb_true_iff in HK. destruct HK as [Hc _].
      rewrite (alpha_is_word _ Hc). reflexivity.
  - simpl in Hk. apply andb_true_iff in Hk. destruct Hk as [Hp Hk].
    destruct K as [|c K]; simpl.
    + apply attempt_nonalpha.
      * unfold keyword. simpl. rewrite Hp, Hk. reflexivity.
      * destruct b as [|y b]; simpl in *; [exact I|].
        apply nonword_not_alpha. assumption.
    + simpl in HK. apply andb_true_iff in HK. destruct HK as [Hc HK].
      rewrite attempt_cons, (Ascii.eqb_sym (tolower p) (tolower c)).
      destruct (Ascii.eqb (tolower c) (tolower p)); [|reflexivity].
      simpl. apply IH; try assumption.
      simpl. apply alpha_is_word. assumption.
Qed.

Lemma match_word_whole_word ks K b prev :
  forallb keyword ks = true ->
  keyword K = true -> isword_opt (head b) = false ->
  match_word ks prev (K ++ b) =
  if among ks K then Some (String.length K) else None.
Proof.
  intros Hks HK Hb. induction ks as [|k ks IH]; [reflexivity|].
  simpl in Hks. apply andb_true_iff in Hks. destruct Hks as [Hk Hks].
  rewrite match_word_cons. unfold among in *. simpl.
  destruct (keyword_inv _ Hk) as (p & k' & -> & Hp & Hk').
  destruct (keyword_inv _ HK) as (c & K' & -> & Hc & HK').
  change ((String c K' ++ b)%string) with (String c (K' ++ b)).
  rewrite attempt_cons.
  change (lower (String p k') =? lower (String c K'))%string
    with (Ascii.eqb (tolower p) (tolower c) && (lower k' =? lower K')%string).
  rewrite (Ascii.eqb_sym (tolower p) (tolower c)).
  destruct (Ascii.eqb (tolower c) (tolower p)); simpl.
  - rewrite (attempt_whole_word b Hb k' K' (Some c) Hk' HK')
      by (simpl; apply alpha_is_word; assumption).
    destruct (lower k' =? lower K')%string eqn:E; simpl.
    + apply String.eqb_eq in E. f_equal. f_equal.
      rewrite <- (lower_length k'), E, lower_length. reflexivity.
    + apply IH. assumption.
  - apply IH. assumption.
Qed.

Lemma sub_aux_head_nonword prev b :
  isword_opt (head b) = false ->
  sub_aux alts prev 0 b = sub_aux alts None 0 b.
Proof.
  intros Hb. destruct b as [|y b]; [reflexivity|]. simpl in *.
  rewrite !(match_word_at_nonalpha _ (String y b))
    by (simpl; apply nonword_not_alpha; assumption).
  reflexivity.
Qed.

Lemma sub_aux_skip u :
  forall prev b, isword_opt (head b) = false ->
  sub_aux alts prev (String.length u) (u ++ b) = sub_aux alts None 0 b.
Proof.
  induction u as [|c u IH]; intros prev b Hb; simpl.
  - apply sub_aux_head_nonword. assumption.
  - apply IH. assumption.
Qed.

Lemma sub_aux_inside_word K :
  forall p b,
  isword p = true -> all isalpha_az K = true -> isword_opt (head b) = false ->
  sub_aux alts (Some p) 0 (K ++ b) = (K ++ sub_aux alts None 0 b)%string.
Proof.
  induction K as [|c K IH]; intros p b Hp HK Hb; simpl.
  - apply sub_aux_head_nonword. assumption.
  - simpl in HK. apply andb_true_iff in HK. destruct HK as [Hc HK].
    unfold match_word_at, boundary. simpl.
    rewrite Hp, (alpha_is_word _ Hc). simpl.
    rewrite IH; try assumption; [reflexivity|].
    apply alpha_is_word. assumption.
Qed.

(** A keyword between non-word neighbours is dropped when it is among the
    alternatives and copied otherwise. *)
Lemma sub_aux_whole_word K b prev :
  keyword K = true -> isword_opt prev = false -> isword_opt (head b) = false ->
  sub_aux alts prev 0 (K ++ b)
  = ((if among alts K then "" else K) ++ sub_aux alts None 0 b)%string.
Proof.
  intros HK Hprev Hb.
  destruct (keyword_inv _ HK) as (c & K' & -> & Hc & HK').
  change ((String c K' ++ b)%string) with (String c (K' ++ b)).
  cbn [sub_aux].
  change (String c (K' ++ b)) with ((String c K' ++ b)%string).
  unfold match_word_at.
  assert (Hbd : boundary prev (head (String c K' ++ b)) = true).
  { unfold boundary. simpl. rewrite Hprev, (alpha_is_word _ Hc). reflexivity. }
  rewrite Hbd.
  rewrite (match_word_whole_word alts (String c K') b prev alts_keywords HK Hb).
  destruct (among alts (String c K')).
  - simpl. apply sub_aux_skip. assumption.
  - simpl. rewrite sub_aux_inside_word; try assumption; [reflexivity|].
    apply alpha_is_word. assumption.
Qed.

End SubFacts.

(** ** The normalisation as a sequence of passes *)

Lemma normalize_passes (s : string) :
  DateParser.normalize s = strip (remove_words (strip s)).
Proof. reflexivity. Qed.

Lemma passes_keywords : forallb (forallb keyword) passes = true.
Proof. reflexivity. Qed.

Lemma ends_nonword_last (a : string) :
  Re.isword_opt (last_char a) = false -> ends_nonword a.
Proof.
  destruct (snoc_cases a) as [->|(a' & x & ->)]; [left; reflexivity|].
  rewrite last_char_snoc. simpl. intros H. right. eauto.
Qed.

Section PassFacts.

Import Re.

Variable alts : list string.
Hypothesis alts_keywords : forallb keyword alts = true.

Lemma sub_words_split a x r :
  isword x = false ->
  sub_words alts (a ++ String x r)
  = (sub_words alts a ++ String x (sub_words alts r))%string.
Proof.
  intros Hx. unfold sub_words. apply sub_aux_split; [assumption|assumption|lia].
Qed.

Lemma sub_words_spaces_l ws s :
  spaces ws = true -> sub_words alts (ws ++ s) = (ws ++ sub_words alts s)%string.
Proof.
  induction ws as [|c ws IH]; simpl; [reflexivity|].
  intros H. apply andb_true_iff in H. destruct H as [Hc Hws].
  change (String c (ws ++ s)) with (("" ++ String c (ws ++ s))%string).
  rewrite sub_words_split by (apply space_not_word; assumption).
  rewrite IH by assumption. reflexivity.
Qed.

Lemma sub_words_spaces_r s ws :
  spaces ws = true -> sub_words alts (s ++ ws) = (sub_words alts s ++ ws)%string.
Proof.
  destruct ws as [|c ws]; [rewrite !sapp_nil_r; reflexivity|].
  intros H. pose proof H as H'. simpl in H'.
  apply andb_true_iff in H'. destruct H' as [Hc Hws]. fold (spaces ws) in Hws.
  rewrite sub_words_split by (apply space_not_word; assumption).
  assert (E : sub_words alts ws = ws).
  { pose proof (sub_words_spaces_l ws "" Hws) as E.
    rewrite sapp_nil_r in E. rewrite E. apply sapp_nil_r. }
  rewrite E. reflexivity.
Qed.

Lemma sub_words_app a b :
  ends_nonword a ->
  sub_words alts (a ++ b) = (sub_words alts a ++ sub_words alts b)%string.
Proof.
  intros [->|(a' & x & -> & Hx)]; [reflexivity|].
  rewrite sapp_assoc. simpl.
  rewrite !sub_words_split by assumption.
  rewrite sapp_assoc. reflexivity.
Qed.

Lemma sub_words_whole_word a K b :
  ends_nonword a -> keyword K = true -> isword_opt (head b) = false ->
  sub_words alts (a ++ K ++ b)
  = (sub_words alts a ++ (if among alts K then "" else K) ++ sub_words alts b)%string.
Proof.
  intros Ha HK Hb. rewrite sub_words_app by assumption. f_equal.
  unfold sub_words. apply sub_aux_whole_word; auto.
Qed.

Lemma sub_words_ends_nonword a : ends_nonword a -> ends_nonword (sub_words alts a).
Proof.
  intros [->|(a' & x & -> & Hx)]; [left; reflexivity|].
  right. exists (sub_words alts a'), x. split; [|assumption].
  rewrite sub_words_split by assumption. reflexivity.
Qed.

Lemma sub_words_head_nonword b :
  isword_opt (head b) = false -> isword_opt (head (sub_words alts b)) = false.
Proof.
  destruct b as [|y b]; [auto|]. simpl. intros Hy.
  unfold sub_words. simpl.
  rewrite (match_word_at_nonalpha alts alts_keywords None (String y b))
    by (simpl; apply nonword_not_alpha; assumption).
  exact Hy.
Qed.

(** Around a stretch [m] without letters, which starts with [x], a pass
    changes only the surrounding text, and only by dropping characters. *)
Lemma sub_words_around x m pre post :
  all nonalpha (String x m) = true ->
  exists pre' post',
    sub_words alts (pre ++ String x m ++ post) = (pre' ++ String x m ++ post')%string /\
    (forall p, all p pre = true -> all p pre' = true) /\
    (forall p, all p post = true -> all p post' = true).
Proof.
  intros Hm. simpl in Hm. apply andb_true_iff in Hm. destruct Hm as [Hx Hm].
  apply negb_true_iff in Hx.
  destruct (sub_aux_upto alts alts_keywords pre x Hx None 0%nat ltac:(lia))
    as (pre' & Hpre & Hall).
  destruct (sub_aux_no_alpha_app alts alts_keywords m (Some x) post Hm) as (prev' & Hpost).
  exists pre', (sub_aux alts prev' 0 post). split; [|split].
  - unfold sub_words. simpl. rewrite Hpre, Hpost. reflexivity.
  - exact Hall.
  - intros p. apply sub_aux_all.
Qed.

End PassFacts.

Section FoldFacts.

Import Re.

Lemma run_spaces L :
  forallb (forallb keyword) L = true ->
  forall ws s ws', spaces ws = true -> spaces ws' = true ->
  run L (ws ++ s ++ ws') = (ws ++ run L s ++ ws')%string.
Proof.
  induction L as [|alts L IH]; intros HL ws s ws' Hws Hws'; [reflexivity|].
  simpl in HL. apply andb_true_iff in HL. destruct HL as [Ha HL].
  unfold run in *. simpl.
  rewrite sub_words_spaces_l, sub_words_spaces_r by assumption.
  apply IH; assumption.
Qed.

Lemma run_app L :
  forallb (forallb keyword) L = true ->
  forall a b, ends_nonword a ->
  run L (a ++ b) = (run L a ++ run L b)%string.
Proof.
  induction L as [|alts L IH]; intros HL a b Ha; [reflexivity|].
  simpl in HL. apply andb_true_iff in HL. destruct HL as [Hk HL].
  unfold run in *. simpl.
  rewrite sub_words_app by assumption.
  apply IH; [assumption|]. apply sub_words_ends_nonword; assumption.
Qed.

Lemma run_whole_word L :
  forallb (forallb keyword) L = true ->
  forall a K b,
  ends_nonword a -> keyword K = true -> isword_opt (head b) = false ->
  run L (a ++ K ++ b)
  = (run L a ++ (if existsb (fun alts => among alts K) L then "" else K) ++ run L b)%string.
Proof.
  induction L as [|alts L IH]; intros HL a K b Ha HK Hb; [reflexivity|].
  simpl in HL. apply andb_true_iff in HL. destruct HL as [Hk HL].
  unfold run in *. simpl.
  rewrite sub_words_whole_word by assumption.
  destruct (among alts K); simpl.
  - apply run_app; [assumption|]. apply sub_words_ends_nonword; assumption.
  - apply IH; try assumption.
    + apply sub_words_ends_nonword; assumption.
    + apply sub_words_head_nonword; assumption.
Qed.

Lemma run_around L :
  forallb (forallb keyword) L = true ->
  forall x m pre post,
  all nonalpha (String x m) = true ->
  exists pre' post',
    run L (pre ++ String x m ++ post) = (pre' ++ String x m ++ post')%string /\
    (forall p, all p pre = true -> all p pre' = true) /\
    (forall p, all p post = true -> all p post' = true).
Proof.
  induction L as [|alts L IH]; intros HL x m pre post Hm.
  - exists pre, post. auto.
  - simpl in HL. apply andb_true_iff in HL. destruct HL as [Hk HL].
    destruct (sub_words_around alts Hk x m pre post Hm) as (pre1 & post1 & E & H1 & H2).
    destruct (IH HL x m pre1 post1 Hm) as (pre2 & post2 & E' & H1' & H2').
    exists pre2, post2. split; [|split].
    + unfold run in *. cbn [fold_left]. rewrite E. exact E'.
    + auto.
    + auto.
Qed.

End FoldFacts.

(** The first [strip] is absorbed by the second one. *)
Lemma normalize_strip_once (s : string) :
  DateParser.normalize s = strip (remove_words s).
Proof.
  rewrite normalize_passes.
  destruct (strip_decompose s) as (ws & ws' & Hws & Hws' & E).
  rewrite E at 2. unfold remove_words.
  rewrite run_spaces by (assumption || apply passes_keywords).
  rewrite strip_spaces_around by assumption. reflexivity.
Qed.

(** ** Matching *)

Section MatchFacts.

Import Re.

Lemma digits_inv n g :
  digits n g = true -> String.length g = n /\ all isdigit g = true.
Proof.
  unfold digits. intros H. apply andb_true_iff in H. destruct H as [H1 H2].
  apply Nat.eqb_eq in H1. auto.
Qed.

Lemma digits_cons n c g :
  digits (S n) (String c g) = true -> isdigit c = true /\ digits n g = true.
Proof.
  unfold digits. simpl. intros H.
  apply andb_true_iff in H. destruct H as [H1 H2].
  apply andb_true_iff in H2. destruct H2 as [Hc Hg].
  rewrite H1, Hg. auto.
Qed.

Lemma take_digits_app n :
  forall g r, digits n g = true -> take_digits n (g ++ r) = Some (g, r).
Proof.
  induction n as [|n IH]; intros g r H.
  - destruct g; [reflexivity|discriminate].
  - destruct g as [|c g]; [discriminate|].
    apply digits_cons in H. destruct H as [Hc Hg].
    simpl. rewrite Hc, (IH g r Hg). reflexivity.
Qed.

Lemma take_digits_inv n :
  forall s g r, take_digits n s = Some (g, r) ->
  s = (g ++ r)%string /\ digits n g = true.
Proof.
  induction n as [|n IH]; intros s g r; simpl.
  - intros H. injection H as <- <-. auto.
  - destruct s as [|c t]; [discriminate|].
    destruct (isdigit c) eqn:Ec; [|discriminate].
    destruct (take_digits n t) as [[g' r']|] eqn:E; [|discriminate].
    intros H. injection H as <- <-.
    apply IH in E. destruct E as [-> Hg]. split; [reflexivity|].
    unfold digits in *. simpl. rewrite Ec.
    apply andb_true_iff in Hg. destruct Hg as [H1 H2]. rewrite H2.
    simpl. rewrite andb_true_r. exact H1.
Qed.

Lemma skip_spaces_app w c r :
  spaces w = true -> isspace c = false ->
  skip_spaces (w ++ String c r) = String c r.
Proof.
  intros Hw Hc. induction w as [|d w IH]; simpl.
  - rewrite Hc. reflexivity.
  - simpl in Hw. apply andb_true_iff in Hw. destruct Hw as [-> Hw]. auto.
Qed.

Lemma skip_spaces_count s : count isdigit (skip_spaces s) = count isdigit s.
Proof.
  induction s as [|c t IH]; simpl; [reflexivity|].
  destruct (isspace c) eqn:E; [|reflexivity].
  rewrite (space_not_digit _ E). simpl. exact IH.
Qed.

Lemma count_le_cons p c t : (count p t <= count p (String c t))%nat.
Proof. simpl. lia. Qed.

(** A match consumes at least the digits of its groups. *)
Lemma match_here_count p :
  forall s gs r, match_here p s = Some (gs, r) ->
  (need p + count isdigit r <= count isdigit s)%nat.
Proof.
  induction p as [|it p IH]; intros s gs r; simpl.
  - intros H. injection H as <- <-. lia.
  - destruct it as [n|c|].
    + destruct (take_digits n s) as [[g r1]|] eqn:E; [|discriminate].
      destruct (match_here p r1) as [[gs' r']|] eqn:E'; [|discriminate].
      intros H. injection H as <- <-.
      apply take_digits_inv in E. destruct E as [-> Hg].
      apply digits_inv in Hg. destruct Hg as [Hn Hg].
      apply IH in E'. rewrite count_app, (count_all _ _ Hg), Hn. lia.
    + destruct s as [|c' t]; [discriminate|].
      destruct (Ascii.eqb c' c); [|discriminate].
      intros H. apply IH in H. pose proof (count_le_cons isdigit c' t). lia.
    + intros H. apply IH in H. rewrite skip_spaces_count in H. exact H.
Qed.

Lemma search_count p :
  forall s gs, search p s = Some gs -> (need p <= count isdigit s)%nat.
Proof.
  induction s as [|c t IH]; intros gs; simpl.
  - destruct (match_here p "") as [[gs' r]|] eqn:E; [|discriminate].
    intros _. apply match_here_count in E. simpl in *. lia.
  - destruct (match_here p (String c t)) as [[gs' r]|] eqn:E.
    + intros _. apply match_here_count in E. simpl in *. lia.
    + intros H. apply IH in H. lia.
Qed.

Lemma search_too_few_digits p s :
  (count isdigit s < need p)%nat -> search p s = None.
Proof.
  intros H. destruct (search p s) as [gs|] eqn:E; [|reflexivity].
  apply search_count in E. lia.
Qed.

(** The groups of a match are digit strings of the sizes of the pattern. *)
Lemma match_here_groups p :
  forall s gs r, match_here p s = Some (gs, r) ->
  Forall2 (fun n g => digits n g = true) (group_sizes p) gs.
Proof.
  induction p as [|it p IH]; intros s gs r; simpl.
  - intros H. injection H as <- <-. constructor.
  - destruct it as [n|c|].
    + destruct (take_digits n s) as [[g r1]|] eqn:E; [|discriminate].
      destruct (match_here p r1) as [[gs' r']|] eqn:E'; [|discriminate].
      intros H. injection H as <- <-.
      apply take_digits_inv in E. destruct E as [_ Hg].
      constructor; [assumption|]. eapply IH; eassumption.
    + destruct s as [|c' t]; [discriminate|].
      destruct (Ascii.eqb c' c); [|discriminate]. apply IH.
    + apply IH.
Qed.

Lemma search_inv p :
  forall s gs, search p s = Some gs ->
  exists pre rest r, s = (pre ++ rest)%string /\ match_here p rest = Some (gs, r) /\
    (forall pre1 pre2, pre = (pre1 ++ pre2)%string -> pre2 <> "" ->
                       match_here p (pre2 ++ rest) = None).
Proof.
  induction s as [|c t IH]; intros gs; simpl.
  - destruct (match_here p "") as [[gs' r]|] eqn:E; [|discriminate].
    intros H. injection H as <-. exists "", "", r. repeat split; try assumption.
    intros pre1 pre2 H. destruct pre1; destruct pre2; try discriminate. congruence.
  - destruct (match_here p (String c t)) as [[gs' r]|] eqn:E.
    + intros H. injection H as <-. exists "", (String c t), r.
      repeat split; try assumption.
      intros pre1 pre2 H. destruct pre1; destruct pre2; try discriminate. congruence.
    + intros H. apply IH in H. destruct H as (pre & rest & r & -> & Hm & Hleft).
      exists (String c pre), rest, r. repeat split; try assumption.
      intros pre1 pre2 Hp Hne. destruct pre1 as [|d pre1]; simpl in Hp.
      * subst pre2. exact E.
      * injection Hp as -> Hp. eapply Hleft; eassumption.
Qed.

Lemma search_groups p s gs :
  search p s = Some gs -> Forall2 (fun n g => digits n g = true) (group_sizes p) gs.
Proof.
  intros H. apply search_inv in H. destruct H as (pre & rest & r & _ & Hm & _).
  eapply match_here_groups; eassumption.
Qed.

Lemma search_here p s gs r : match_here p s = Some (gs, r) -> search p s = Some gs.
Proof. intros H. destruct s; simpl; rewrite H; reflexivity. Qed.

(** The leftmost match wins. *)
Lemma search_leftmost p pre rest gs r :
  match_here p rest = Some (gs, r) ->
  (forall pre1 pre2, pre = (pre1 ++ pre2)%string -> pre2 <> "" ->
                     match_here p (pre2 ++ rest) = None) ->
  search p (pre ++ rest) = Some gs.
Proof.
  intros Hm. induction pre as [|c pre IH]; intros Hleft.
  - simpl. eapply search_here; eassumption.
  - pose proof (Hleft "" (String c pre) eq_refl ltac:(discriminate)) as E.
    simpl in *. rewrite E.
    apply IH. intros pre1 pre2 -> Hne.
    apply (Hleft (String c pre1) pre2 eq_refl Hne).
Qed.

Lemma search_complete p pre rest gs r :
  match_here p rest = Some (gs, r) -> exists gs', search p (pre ++ rest) = Some gs'.
Proof.
  intros Hm. induction pre as [|c pre IH].
  - exists gs. eapply search_here; eassumption.
  - simpl. destruct (match_here p (String c (pre ++ rest))) as [[gs' r']|]; eauto.
Qed.

(** A pattern that begins with a digit cannot start in a text without
    digits. *)
Lemma search_skip_nondigit n p pre s :
  all nondigit pre = true ->
  search (Digits (S n) :: p) (pre ++ s) = search (Digits (S n) :: p) s.
Proof.
  induction pre as [|c pre IH]; [reflexivity|].
  intros H. simpl in H. apply andb_true_iff in H. destruct H as [Hc Hpre].
  apply negb_true_iff in Hc.
  cbn [String.append search match_here take_digits]. rewrite Hc. auto.
Qed.

(** What follows a complete match does not disturb it. *)
Lemma match_here_app p :
  forall m gs r post, match_here p m = Some (gs, r) ->
  exists r', match_here p (m ++ post) = Some (gs, r').
Proof.
  induction p as [|it p IH]; intros m gs r post; simpl.
  - intros H. injection H as <- <-. eauto.
  - destruct it as [n|c|].
    + destruct (take_digits n m) as [[g r1]|] eqn:E; [|discriminate].
      destruct (match_here p r1) as [[gs' r']|] eqn:E'; [|discriminate].
      intros H. injection H as <- <-.
      apply take_digits_inv in E. destruct E as [-> Hg].
      rewrite sapp_assoc, (take_digits_app n g (r1 ++ post) Hg).
      destruct (IH _ _ _ post E') as (r2 & ->). eauto.
    + destruct m as [|c' t]; [discriminate|]. simpl.
      destruct (Ascii.eqb c' c); [|discriminate]. apply IH.
    + intros H.
      assert (E : skip_spaces (m ++ post) = (skip_spaces m ++ post)%string
                  \/ (skip_spaces m = "" /\
                      skip_spaces (m ++ post) = skip_spaces post)).
      { clear. induction m as [|c t IHm]; simpl; [right; auto|].
        destruct (isspace c); [exact IHm|left; reflexivity]. }
      destruct E as [->|[E ->]].
      * eapply IH; eassumption.
      * rewrite E in H. apply (IH "" gs r (skip_spaces post) H).
Qed.

End MatchFacts.

(** ** Date texts in context *)

Lemma lstrip_app_nonspace a x s :
  isspace x = false -> lstrip (a ++ String x s) = (lstrip a ++ String x s)%string.
Proof.
  intros Hx. induction a as [|c a IH]; simpl.
  - rewrite Hx. reflexivity.
  - destruct (isspace c); [exact IH|reflexivity].
Qed.

Lemma lstrip_all p a : all p a = true -> all p (lstrip a) = true.
Proof.
  induction a as [|c a IH]; simpl; [reflexivity|].
  intros H. destruct (isspace c); [|exact H].
  apply andb_true_iff in H. tauto.
Qed.

Lemma rstrip_all p a : all p a = true -> all p (rstrip a) = true.
Proof.
  induction a as [|c a IH]; simpl; [reflexivity|].
  intros H. apply andb_true_iff in H. destruct H as [Hc Ha].
  specialize (IH Ha). destruct (rstrip a) as [|d r].
  - destruct (isspace c); simpl; [reflexivity|]. rewrite Hc. reflexivity.
  - simpl in *. rewrite Hc. exact IH.
Qed.

Lemma rstrip_cons_nonspace z t :
  isspace z = false -> rstrip (String z t) = String z (rstrip t).
Proof. intros Hz. simpl. rewrite Hz. destruct (rstrip t); reflexivity. Qed.

Lemma rstrip_app_mid u z t :
  isspace z = false -> rstrip (u ++ String z t) = (u ++ String z (rstrip t))%string.
Proof.
  intros Hz. rewrite rstrip_app_nonempty; rewrite rstrip_cons_nonspace by assumption;
    [reflexivity|discriminate].
Qed.

Lemma strip_all_nonspace s : all (fun c => negb (isspace c)) s = true -> strip s = s.
Proof.
  intros H. unfold strip.
  assert (E : lstrip s = s).
  { destruct s as [|c t]; [reflexivity|]. simpl in *.
    apply andb_true_iff in H. destruct H as [Hc _].
    apply negb_true_iff in Hc. rewrite Hc. reflexivity. }
  rewrite E. clear E. induction s as [|c t IH]; [reflexivity|].
  simpl in H. apply andb_true_iff in H. destruct H as [Hc Ht].
  apply negb_true_iff in Hc.
  rewrite rstrip_cons_nonspace by assumption. rewrite IH by assumption. reflexivity.
Qed.

(** A stretch [m] without letters that starts and ends with a non-space
    character survives the normalisation; the text around it can only lose
    characters. *)
Lemma normalize_around m pre post x m' z m'' :
  all nonalpha m = true ->
  m = String x m' -> isspace x = false ->
  m = (m'' ++ String z "")%string -> isspace z = false ->
  exists pre' post',
    DateParser.normalize (pre ++ m ++ post) = (pre' ++ m ++ post')%string /\
    (forall p, all p pre = true -> all p pre' = true) /\
    (forall p, all p post = true -> all p post' = true).
Proof.
  intros Hm Ehead Hx Elast Hz.
  rewrite normalize_strip_once. unfold remove_words.
  assert (Hm' : all nonalpha (String x m') = true) by (rewrite <- Ehead; assumption).
  destruct (run_around passes passes_keywords x m' pre post Hm')
    as (pre1 & post1 & E & Hpre & Hpost).
  rewrite <- Ehead in E. rewrite E.
  exists (lstrip pre1), (rstrip post1). split; [|split].
  - unfold strip. rewrite Ehead at 1.
    change ((String x m' ++ post1)%string) with (String x (m' ++ post1)).
    rewrite lstrip_app_nonspace by assumption.
    change (String x (m' ++ post1)) with ((String x m' ++ post1)%string).
    rewrite <- Ehead. rewrite Elast.
    rewrite (sapp_assoc m''). simpl.
    rewrite <- (sapp_assoc (lstrip pre1) m'').
    rewrite rstrip_app_mid by assumption.
    rewrite !sapp_assoc. reflexivity.
  - intros p H. apply lstrip_all. auto.
  - intros p H. apply rstrip_all. auto.
Qed.

Lemma digits_head n g :
  digits (S n) g = true -> exists c g', g = String c g' /\ isdigit c = true.
Proof.
  destruct g as [|c g']; [discriminate|]. intros H.
  apply digits_cons in H. destruct H as [Hc _]. eauto.
Qed.

Lemma digits_last n g :
  digits (S n) g = true -> exists g' z, g = (g' ++ String z "")%string /\ isdigit z = true.
Proof.
  intros H. destruct (snoc_cases g) as [->|(g' & z & ->)]; [discriminate|].
  apply digits_inv in H. destruct H as [_ H].
  rewrite all_app in H. apply andb_true_iff in H. destruct H as [_ H].
  simpl in H. rewrite andb_true_r in H. eauto.
Qed.

Lemma digits_nonalpha n g : digits n g = true -> all nonalpha g = true.
Proof.
  intros H. apply digits_inv in H. destruct H as [_ H].
  eapply all_impl; [|exact H]. intros c Hc. unfold nonalpha.
  rewrite (digit_not_alpha _ Hc). reflexivity.
Qed.

Lemma spaces_nonalpha w : spaces w = true -> all nonalpha w = true.
Proof.
  apply all_impl. intros c Hc. unfold nonalpha.
  destruct (isalpha_az c) eqn:E; [|reflexivity].
  apply alpha_not_space in E. congruence.
Qed.

Lemma digits_count n g : digits n g = true -> count isdigit g = n.
Proof.
  intros H. apply digits_inv in H. destruct H as [Hn H].
  rewrite (count_all _ _ H). exact Hn.
Qed.

Lemma spaces_count w : spaces w = true -> count isdigit w = 0%nat.
Proof. apply count_all_false. apply space_not_digit. Qed.

Lemma nondigit_count s : all nondigit s = true -> count isdigit s = 0%nat.
Proof.
  apply count_all_false. intros c H. apply negb_true_iff in H. exact H.
Qed.

(** ** [int] on the groups of a match *)

Lemma int_digits_total s :
  all isdigit s = true -> forall acc, exists z, int_digits acc s = Some z.
Proof.
  induction s as [|c t IH]; simpl; intros H acc; [eauto|].
  apply andb_true_iff in H. destruct H as [-> Ht]. auto.
Qed.

Lemma py_int_digits n g : digits (S n) g = true -> exists z, py_int g = Ret z.
Proof.
  intros H. pose proof (digits_inv _ _ H) as [Hn Hg].
  unfold py_int. rewrite strip_all_nonspace.
  - destruct g as [|c g']; [discriminate|].
    destruct (int_digits_total _ Hg 0%Z) as (z & ->). eauto.
  - eapply all_impl; [|exact Hg]. intros c Hc.
    rewrite (digit_not_space _ Hc). reflexivity.
Qed.

(** ** The three textual forms *)

Section DateTexts.

Import Re DateParser.

Lemma skip_spaces_digits w n g r :
  spaces w = true -> digits (S n) g = true ->
  skip_spaces (w ++ g ++ r) = (g ++ r)%string.
Proof.
  intros Hw Hg. destruct (digits_head _ _ Hg) as (c & g' & -> & Hc).
  simpl. apply skip_spaces_app; [assumption|]. apply digit_not_space. assumption.
Qed.

Lemma skip_spaces_dash w r :
  spaces w = true -> skip_spaces (w ++ String "-" r) = String "-" r.
Proof. intros Hw. apply skip_spaces_app; [assumption|reflexivity]. Qed.

Variables d1 m1 y1 w1 w2 d2 m2 y2 : string.
Hypothesis Hd1 : digits 2 d1 = true.
Hypothesis Hm1 : digits 2 m1 = true.
Hypothesis Hy1 : digits 4 y1 = true.
Hypothesis Hw1 : spaces w1 = true.
Hypothesis Hw2 : spaces w2 = true.
Hypothesis Hd2 : digits 2 d2 = true.
Hypothesis Hm2 : digits 2 m2 = true.
Hypothesis Hy2 : digits 4 y2 = true.

Ltac step :=
  first [ rewrite take_digits_app by assumption
        | rewrite skip_spaces_dash by assumption
        | rewrite (skip_spaces_digits w2 1 d2) by assumption
        | progress cbn [match_here String.append Ascii.eqb Bool.eqb dot dash] ].

Lemma match_single_date r :
  match_here pattern3 (single_date d1 m1 y1 ++ r) = Some ([d1; m1; y1], r).
Proof.
  unfold single_date, pattern3. rewrite !sapp_assoc. repeat step. reflexivity.
Qed.

Lemma match_full_range r :
  match_here pattern1 (full_range d1 m1 y1 w1 w2 d2 m2 y2 ++ r)
  = Some ([d1; m1; y1; d2; m2; y2], r).
Proof.
  unfold full_range, pattern1. rewrite !sapp_assoc. repeat step. reflexivity.
Qed.

Lemma match_short_range r :
  match_here pattern2 (short_range d1 m1 w1 w2 d2 m2 y2 ++ r)
  = Some ([d1; m1; d2; m2; y2], r).
Proof.
  unfold short_range, pattern2. rewrite !sapp_assoc. repeat step. reflexivity.
Qed.

Ltac pieces :=
  repeat rewrite all_app; repeat (apply andb_true_iff; split);
  try reflexivity;
  try (eapply digits_nonalpha; eassumption);
  try (apply spaces_nonalpha; assumption).

Lemma full_range_nonalpha : all nonalpha (full_range d1 m1 y1 w1 w2 d2 m2 y2) = true.
Proof. unfold full_range. pieces. Qed.

Lemma short_range_nonalpha : all nonalpha (short_range d1 m1 w1 w2 d2 m2 y2) = true.
Proof. unfold short_range. pieces. Qed.

Lemma full_range_head :
  exists x m, full_range d1 m1 y1 w1 w2 d2 m2 y2 = String x m /\ isspace x = false.
Proof.
  destruct (digits_head _ _ Hd1) as (c & g & E & Hc).
  unfold full_range. rewrite E. simpl. eexists _, _. split; [reflexivity|].
  apply digit_not_space. assumption.
Qed.

Lemma short_range_head :
  exists x m, short_range d1 m1 w1 w2 d2 m2 y2 = String x m /\ isspace x = false.
Proof.
  destruct (digits_head _ _ Hd1) as (c & g & E & Hc).
  unfold short_range. rewrite E. simpl. eexists _, _. split; [reflexivity|].
  apply digit_not_space. assumption.
Qed.

Lemma full_range_last :
  exists m z, full_range d1 m1 y1 w1 w2 d2 m2 y2 = (m ++ String z "")%string
              /\ isspace z = false.
Proof.
  destruct (digits_last _ _ Hy2) as (g & z & E & Hz).
  exists (d1 ++ "." ++ m1 ++ "." ++ y1 ++ w1 ++ "-" ++ w2 ++ d2 ++ "." ++ m2 ++ "." ++ g)%string, z.
  split; [|apply digit_not_space; assumption].
  unfold full_range. rewrite E, !sapp_assoc. reflexivity.
Qed.

Lemma short_range_last :
  exists m z, short_range d1 m1 w1 w2 d2 m2 y2 = (m ++ String z "")%string
              /\ isspace z = false.
Proof.
  destruct (digits_last _ _ Hy2) as (g & z & E & Hz).
  exists (d1 ++ "." ++ m1 ++ "." ++ w1 ++ "-" ++ w2 ++ d2 ++ "." ++ m2 ++ "." ++ g)%string, z.
  split; [|apply digit_not_space; assumption].
  unfold short_range. rewrite E, !sapp_assoc. reflexivity.
Qed.

Lemma short_range_count : count isdigit (short_range d1 m1 w1 w2 d2 m2 y2) = 12%nat.
Proof.
  unfold short_range. rewrite !count_app.
  rewrite (digits_count _ _ Hd1), (digits_count _ _ Hm1), (digits_count _ _ Hd2),
    (digits_count _ _ Hm2), (digits_count _ _ Hy2),
    (spaces_count _ Hw1), (spaces_count _ Hw2).
  reflexivity.
Qed.

(** The full range inside a text whose part before it has no digit. *)
Lemma parse_full_range pre post cy :
  all nondigit pre = true ->
  parse_date_range (pre ++ full_range d1 m1 y1 w1 w2 d2 m2 y2 ++ post) cy
  = Ret (iso y1 m1 d1, iso y2 m2 d2).
Proof.
  intros Hpre.
  destruct full_range_head as (x & m & Eh & Hx).
  destruct full_range_last as (m' & z & El & Hz).
  destruct (normalize_around _ pre post x m z m' full_range_nonalpha Eh Hx El Hz)
    as (pre' & post' & E & Hp & _).
  unfold parse_date_range, parse_date_range_body. rewrite E.
  unfold pattern1 at 1. rewrite search_skip_nondigit by auto. fold pattern1.
  rewrite (search_here _ _ _ _ (match_full_range post')). reflexivity.
Qed.

(** The abbreviated range inside a text that has no other digit. *)
Lemma parse_short_range pre post cy :
  all nondigit pre = true -> all nondigit post = true ->
  exists a b y,
    py_int m1 = Ret a /\ py_int m2 = Ret b /\ py_int y2 = Ret y /\
    parse_date_range (pre ++ short_range d1 m1 w1 w2 d2 m2 y2 ++ post) cy
    = Ret (iso (if (a <=? b)%Z then y2 else py_str (y - 1)) m1 d1, iso y2 m2 d2).
Proof.
  intros Hpre Hpost.
  destruct short_range_head as (x & m & Eh & Hx).
  destruct short_range_last as (m' & z & El & Hz).
  destruct (normalize_around _ pre post x m z m' short_range_nonalpha Eh Hx El Hz)
    as (pre' & post' & E & Hp & Hq).
  destruct (py_int_digits _ _ Hm1) as (a & Ha).
  destruct (py_int_digits _ _ Hm2) as (b & Hb).
  destruct (py_int_digits _ _ Hy2) as (y & Hy).
  exists a, b, y. repeat split; try assumption.
  unfold parse_date_range, parse_date_range_body. rewrite E.
  rewrite (search_too_few_digits pattern1).
  2:{ rewrite !count_app, short_range_count.
      rewrite (nondigit_count pre'), (nondigit_count post') by auto.
      simpl. lia. }
  unfold pattern2 at 1. rewrite search_skip_nondigit by auto. fold pattern2.
  rewrite (search_here _ _ _ _ (match_short_range post')).
  rewrite Ha, Hb. simpl.
  destruct (a <=? b)%Z; simpl; [reflexivity|].
  rewrite Hy. reflexivity.
Qed.

Lemma single_date_nonalpha : all nonalpha (single_date d1 m1 y1) = true.
Proof. unfold single_date. pieces. Qed.

Lemma single_date_head :
  exists x m, single_date d1 m1 y1 = String x m /\ isspace x = false.
Proof.
  destruct (digits_head _ _ Hd1) as (c & g & E & Hc).
  unfold single_date. rewrite E. simpl. eexists _, _. split; [reflexivity|].
  apply digit_not_space. assumption.
Qed.

Lemma single_date_last :
  exists m z, single_date d1 m1 y1 = (m ++ String z "")%string /\ isspace z = false.
Proof.
  destruct (digits_last _ _ Hy1) as (g & z & E & Hz).
  exists (d1 ++ "." ++ m1 ++ "." ++ g)%string, z.
  split; [|apply digit_not_space; assumption].
  unfold single_date. rewrite E, !sapp_assoc. reflexivity.
Qed.

Lemma single_date_count : count isdigit (single_date d1 m1 y1) = 8%nat.
Proof.
  unfold single_date. rewrite !count_app.
  rewrite (digits_count _ _ Hd1), (digits_count _ _ Hm1), (digits_count _ _ Hy1).
  reflexivity.
Qed.

(** A single date inside a text that has no other digit. *)
Lemma parse_single_date pre post cy :
  all nondigit pre = true -> all nondigit post = true ->
  parse_date_range (pre ++ single_date d1 m1 y1 ++ post) cy
  = Ret (iso y1 m1 d1, OPEN_ENDED_DATE).
Proof.
  intros Hpre Hpost.
  destruct single_date_head as (x & m & Eh & Hx).
  destruct single_date_last as (m' & z & El & Hz).
  destruct (normalize_around _ pre post x m z m' single_date_nonalpha Eh Hx El Hz)
    as (pre' & post' & E & Hp & Hq).
  unfold parse_date_range, parse_date_range_body. rewrite E.
  assert (Hc : count isdigit (pre' ++ single_date d1 m1 y1 ++ post') = 8%nat).
  { rewrite !count_app, single_date_count.
    rewrite (nondigit_count pre'), (nondigit_count post') by auto. reflexivity. }
  rewrite (search_too_few_digits pattern1) by (rewrite Hc; simpl; lia).
  rewrite (search_too_few_digits pattern2) by (rewrite Hc; simpl; lia).
  unfold pattern3 at 1. rewrite search_skip_nondigit by auto. fold pattern3.
  rewrite (search_here _ _ _ _ (match_single_date post')). reflexivity.
Qed.

End DateTexts.

(** C2.  For every text of the form [DD.MM.] dash [DD.MM.YYYY] (any
    whitespace around the dash, surrounded by text without digits),
    [parse_date_range] takes day, month and year of the end date from the
    text and gives the start date the end year when
    [int(start month) <= int(end month)], and [str(int(end year) - 1)]
    otherwise.  ["28.12. - 03.01.2026"] starts in 2025 and
    ["02.02. - 07.02.2026"] in 2026. *)
Theorem C2_abbreviated_start_year :
  (forall (pre d1 m1 w1 w2 d2 m2 y2 post : string) (cy : option Z),
      all nondigit pre = true -> all nondigit post = true ->
      digits 2 d1 = true -> digits 2 m1 = true ->
      spaces w1 = true -> spaces w2 = true ->
      digits 2 d2 = true -> digits 2 m2 = true -> digits 4 y2 = true ->
      exists a b y,
        py_int m1 = Ret a /\ py_int m2 = Ret b /\ py_int y2 = Ret y /\
        DateParser.parse_date_range
          (pre ++ short_range d1 m1 w1 w2 d2 m2 y2 ++ post) cy
        = Ret (DateParser.iso (if (a <=? b)%Z then y2 else py_str (y - 1)) m1 d1,
               DateParser.iso y2 m2 d2)) /\
  DateParser.parse_date_range "28.12. - 03.01.2026" None
    = Ret ("2025-12-28", "2026-01-03") /\
  DateParser.parse_date_range "02.02. - 07.02.2026" None
    = Ret ("2026-02-02", "2026-02-07").
Proof.
  split; [|split; reflexivity].
  intros pre d1 m1 w1 w2 d2 m2 y2 post cy Hpre Hpost Hd1 Hm1 Hw1 Hw2 Hd2 Hm2 Hy2.
  apply parse_short_range; assumption.
Qed.

Lemma C2_abbreviated_start_year_witness :
  exists a b y,
    py_int "12" = Ret a /\ py_int "01" = Ret b /\ py_int "2026" = Ret y /\
    (a <=? b)%Z = false /\ py_str (y - 1) = "2025" /\
    DateParser.parse_date_range "gilt 28.12. - 03.01.2026 !" None
    = Ret ("2025-12-28", "2026-01-03").
Proof.
  destruct C2_abbreviated_start_year as (H & _ & _).
  destruct (H "gilt " "28" "12" " " " " "03" "01" "2026" " !" None
              eq_refl eq_refl eq_refl eq_refl eq_refl eq_refl eq_refl eq_refl eq_refl)
    as (a & b & y & Ha & Hb & Hy & Hp).
  exists a, b, y.
  assert (Ea : a = 12%Z) by (vm_compute in Ha; congruence).
  assert (Eb : b = 1%Z) by (vm_compute in Hb; congruence).
  assert (Ey : y = 2026%Z) by (vm_compute in Hy; congruence).
  subst a b y. repeat split; assumption.
Defined.

(** ** Success and failure of [parse_date_range] *)

Section Outcome.

Import Re DateParser.

Lemma parse_ret_iff s cy r :
  parse_date_range s cy = Ret r <-> parse_date_range_body s = Ret r.
Proof.
  unfold parse_date_range.
  destruct (parse_date_range_body s) as [r'|e]; [tauto|].
  split; [|discriminate].
  destruct e; simpl; discriminate.
Qed.

(** The result depends on the text only through its normal form. *)
Lemma parse_body_congr s1 s2 r :
  normalize s1 = normalize s2 ->
  parse_date_range_body s1 = Ret r -> parse_date_range_body s2 = Ret r.
Proof.
  intros E. unfold parse_date_range_body. rewrite <- E.
  destruct (search pattern1 (normalize s1)); [auto|].
  destruct (search pattern2 (normalize s1)); [auto|].
  destruct (search pattern3 (normalize s1)); [auto|discriminate].
Qed.

Lemma parse_congr s1 s2 cy r :
  normalize s1 = normalize s2 ->
  parse_date_range s1 cy = Ret r <-> parse_date_range s2 cy = Ret r.
Proof.
  intros E. rewrite !parse_ret_iff.
  split; apply parse_body_congr; congruence.
Qed.

Ltac shape H :=
  repeat match type of H with
  | Forall2 _ (_ :: _) _ =>
      let H' := fresh "H" in
      inversion H as [|? ? ? ? ? H']; subst; clear H; rename H' into H
  | Forall2 _ [] _ => inversion H; subst; clear H
  end.

(** Whenever one of the patterns is found, the body returns. *)
Lemma body_returns_on_match s :
  (exists gs, search pattern1 (normalize s) = Some gs) \/
  (exists gs, search pattern2 (normalize s) = Some gs) \/
  (exists gs, search pattern3 (normalize s) = Some gs) ->
  exists r, parse_date_range_body s = Ret r.
Proof.
  intros H. unfold parse_date_range_body.
  destruct (search pattern1 (normalize s)) as [gs1|] eqn:E1.
  { apply search_groups in E1. simpl in E1. shape E1. eauto. }
  destruct (search pattern2 (normalize s)) as [gs2|] eqn:E2.
  { apply search_groups in E2. simpl in E2.
    inversion E2 as [|? d1 ? ? Hd1 E2a]; subst; clear E2.
    inversion E2a as [|? m1 ? ? Hm1 E2b]; subst; clear E2a.
    inversion E2b as [|? d2 ? ? Hd2 E2c]; subst; clear E2b.
    inversion E2c as [|? m2 ? ? Hm2 E2d]; subst; clear E2c.
    inversion E2d as [|? y2 ? ? Hy2 E2e]; subst; clear E2d.
    inversion E2e; subst; clear E2e.
    destruct (py_int_digits _ _ Hm1) as (a & ->).
    destruct (py_int_digits _ _ Hm2) as (b & ->).
    destruct (py_int_digits _ _ Hy2) as (y & Hy).
    simpl. destruct (a <=? b)%Z; simpl; [eauto|]. rewrite Hy. simpl. eauto. }
  destruct (search pattern3 (normalize s)) as [gs3|] eqn:E3.
  { apply search_groups in E3. simpl in E3. shape E3. eauto. }
  destruct H as [[gs H]|[[gs H]|[gs H]]]; discriminate.
Qed.

Lemma body_fails_without_match s :
  search pattern1 (normalize s) = None ->
  search pattern2 (normalize s) = None ->
  search pattern3 (normalize s) = None ->
  parse_date_range_body s = Raise (ParsingException ("Unsupported date format: " ++ s)).
Proof.
  intros E1 E2 E3. unfold parse_date_range_body. rewrite E1, E2, E3. reflexivity.
Qed.

(** The only way to fail. *)
Lemma parse_raise_inv s cy e :
  parse_date_range s cy = Raise e ->
  e = ParsingException ("Unsupported date format: " ++ s) /\
  search pattern1 (normalize s) = None /\
  search pattern2 (normalize s) = None /\
  search pattern3 (normalize s) = None.
Proof.
  intros H.
  destruct (search pattern1 (normalize s)) as [gs1|] eqn:E1.
  { destruct (body_returns_on_match s) as (r & Hr); [eauto|].
    apply (parse_ret_iff s cy) in Hr. congruence. }
  destruct (search pattern2 (normalize s)) as [gs2|] eqn:E2.
  { destruct (body_returns_on_match s) as (r & Hr); [eauto|].
    apply (parse_ret_iff s cy) in Hr. congruence. }
  destruct (search pattern3 (normalize s)) as [gs3|] eqn:E3.
  { destruct (body_returns_on_match s) as (r & Hr); [eauto|].
    apply (parse_ret_iff s cy) in Hr. congruence. }
  split; [|auto].
  unfold parse_date_range in H.
  rewrite (body_fails_without_match s E1 E2 E3) in H. congruence.
Qed.

End Outcome.

(** C7.  When none of the three patterns is found in the normalised text,
    [parse_date_range] fails with a [ParsingException] whose message ends
    with the original text, as passed in, before normalisation; and this
    is the only way it fails. *)
Theorem C7_no_pattern_raises :
  (forall (s : string) (cy : option Z),
      Re.search DateParser.pattern1 (DateParser.normalize s) = None ->
      Re.search DateParser.pattern2 (DateParser.normalize s) = None ->
      Re.search DateParser.pattern3 (DateParser.normalize s) = None ->
      DateParser.parse_date_range s cy
      = Raise (ParsingException ("Unsupported date format: " ++ s))) /\
  (forall (s : string) (cy : option Z) (e : exn),
      DateParser.parse_date_range s cy = Raise e ->
      e = ParsingException ("Unsupported date format: " ++ s) /\
      Re.search DateParser.pattern1 (DateParser.normalize s) = None /\
      Re.search DateParser.pattern2 (DateParser.normalize s) = None /\
      Re.search DateParser.pattern3 (DateParser.normalize s) = None).
Proof.
  split.
  - intros s cy E1 E2 E3. unfold DateParser.parse_date_range.
    rewrite (body_fails_without_match s E1 E2 E3). reflexivity.
  - apply parse_raise_inv.
Qed.

Lemma C7_no_pattern_raises_witness :
  DateParser.normalize "  Montag TBD " = "TBD" /\
  DateParser.parse_date_range "  Montag TBD " None
  = Raise (ParsingException "Unsupported date format:   Montag TBD ") /\
  DateParser.parse_date_range "TBD" None
  = Raise (ParsingException "Unsupported date format: TBD").
Proof.
  destruct C7_no_pattern_raises as [H _].
  split; [reflexivity|]. split.
  - apply (H "  Montag TBD " None); reflexivity.
  - apply (H "TBD" None); reflexivity.
Defined.

(** C10.  Matching is substring-based.  If any part of the normalised text
    matches one of the three patterns, [parse_date_range] returns; a single
    date that is the first thing with digits in the normalised text, where
    neither range pattern is found, gives the open-ended result whatever
    follows it; so ["01.10.2025 bis 05.10.2025"] is read as an open-ended
    range from the first date. *)
Theorem C10_substring_matching :
  (forall (s : string) (cy : option Z) (p : Re.regex) (pre m post : string)
          (gs : list string),
      In p [DateParser.pattern1; DateParser.pattern2; DateParser.pattern3] ->
      DateParser.normalize s = (pre ++ m ++ post)%string ->
      Re.match_here p m = Some (gs, "") ->
      exists r, DateParser.parse_date_range s cy = Ret r) /\
  (forall (s : string) (cy : option Z) (pre d m y post : string),
      DateParser.normalize s = (pre ++ single_date d m y ++ post)%string ->
      all nondigit pre = true ->
      digits 2 d = true -> digits 2 m = true -> digits 4 y = true ->
      Re.search DateParser.pattern1 (DateParser.normalize s) = None ->
      Re.search DateParser.pattern2 (DateParser.normalize s) = None ->
      DateParser.parse_date_range s cy = Ret (DateParser.iso y m d, OPEN_ENDED_DATE)) /\
  DateParser.parse_date_range "01.10.2025 bis 05.10.2025" None
  = Ret ("2025-10-01", "9999-12-31").
Proof.
  split; [|split; [|reflexivity]].
  - intros s cy p pre m post gs Hp En Hm.
    destruct (match_here_app p m gs "" post Hm) as (r' & Hm').
    destruct (search_complete p pre (m ++ post) gs r' Hm') as (gs' & Hs).
    rewrite <- En in Hs.
    destruct (body_returns_on_match s) as (r & Hr).
    + simpl in Hp. destruct Hp as [<-|[<-|[<-|[]]]]; eauto.
    + exists r. apply parse_ret_iff. exact Hr.
  - intros s cy pre d m y post En Hpre Hd Hm Hy E1 E2.
    apply parse_ret_iff. unfold DateParser.parse_date_range_body.
    rewrite E1, E2, En.
    unfold DateParser.pattern3 at 1. rewrite search_skip_nondigit by assumption.
    fold DateParser.pattern3.
    rewrite (search_here _ _ _ _ (match_single_date d m y Hd Hm Hy post)).
    reflexivity.
Qed.

Lemma C10_substring_matching_witness :
  DateParser.normalize "01.10.2025 bis 05.10.2025" = "01.10.2025 bis 05.10.2025" /\
  Re.match_here DateParser.pattern3 "01.10.2025" = Some (["01"; "10"; "2025"], "") /\
  (exists r, DateParser.parse_date_range "01.10.2025 bis 05.10.2025" None = Ret r) /\
  DateParser.parse_date_range "x 01.10.2025 bis 05.10.2025" None
  = Ret ("2025-10-01", "9999-12-31").
Proof.
  destruct C10_substring_matching as (H1 & H2 & _).
  split; [reflexivity|]. split; [reflexivity|]. split.
  - apply (H1 "01.10.2025 bis 05.10.2025" None DateParser.pattern3
              "" "01.10.2025" " bis 05.10.2025" ["01"; "10"; "2025"]).
    + simpl. auto.
    + reflexivity.
    + reflexivity.
  - apply (H2 "x 01.10.2025 bis 05.10.2025" None "x " "01" "10" "2025" " bis 05.10.2025");
      reflexivity.
Defined.

(** ** Removed words *)

Lemma removed_word_keyword (K : string) :
  In (lower K) removed_words -> keyword K = true.
Proof.
  intros H. unfold keyword. apply andb_true_iff. split.
  - destruct K; [|reflexivity].
    unfold removed_words, GERMAN_DAYS, PREFIXES in H. simpl in H.
    repeat (destruct H as [H|H]; [discriminate|]). contradiction.
  - unfold removed_words, GERMAN_DAYS, PREFIXES in H. simpl in H.
    repeat (destruct H as [H|H];
            [match type of H with
             | ?k = _ => apply (lower_alpha K k); [rewrite <- H; reflexivity|reflexivity]
             end|]).
    contradiction.
Qed.

Lemma removed_word_among (K : string) :
  In (lower K) removed_words -> existsb (fun alts => among alts K) passes = true.
Proof.
  intros H. unfold among, passes.
  unfold removed_words, GERMAN_DAYS, PREFIXES in *. simpl in *.
  repeat (destruct H as [H|H];
          [rewrite <- H; rewrite ?orb_false_r, ?orb_true_r; reflexivity|]).
  contradiction.
Qed.

(** One of the ten words, in any letter case, standing between non-word
    neighbours, leaves no trace in the normal form. *)
Lemma normalize_removed_word (a K b : string) :
  In (lower K) removed_words ->
  Re.isword_opt (last_char a) = false ->
  Re.isword_opt (head b) = false ->
  DateParser.normalize (a ++ K ++ b) = DateParser.normalize (a ++ b).
Proof.
  intros HK Ha Hb. rewrite !normalize_strip_once. unfold remove_words.
  apply ends_nonword_last in Ha.
  rewrite run_whole_word; try assumption;
    [|apply passes_keywords|apply removed_word_keyword; assumption].
  rewrite removed_word_among by assumption.
  rewrite run_app by (assumption || apply passes_keywords).
  reflexivity.
Qed.

(** Whitespace around the text leaves no trace in the normal form. *)
Lemma normalize_trims (ws s ws' : string) :
  spaces ws = true -> spaces ws' = true ->
  DateParser.normalize (ws ++ s ++ ws') = DateParser.normalize s.
Proof.
  intros H H'. rewrite !normalize_strip_once. unfold remove_words.
  rewrite run_spaces by (assumption || apply passes_keywords).
  apply strip_spaces_around; assumption.
Qed.

(** C5.  [parse_date_range] works on the normalised text: whitespace
    around the text is trimmed, and one of the seven weekday names or of
    [von], [ab], [seit], in any letter case, added as a whole word
    (between non-word neighbours or the ends of the text) leaves the
    normalised text unchanged, so the text with the word and the text
    without it return the same result.  A single [DD.MM.YYYY] date
    surrounded by text without digits, such words included, is open-ended;
    ["ab 01.10.2025"] yields [(2025-10-01, 9999-12-31)] and
    ["von Mittwoch 01.10.2025"] the result of ["01.10.2025"]. *)
Theorem C5_normalisation_removes_words :
  (forall (ws s ws' : string),
      spaces ws = true -> spaces ws' = true ->
      DateParser.normalize (ws ++ s ++ ws') = DateParser.normalize s) /\
  (forall (a K b : string) (cy : option Z),
      In (lower K) removed_words ->
      Re.isword_opt (last_char a) = false ->
      Re.isword_opt (head b) = false ->
      DateParser.normalize (a ++ K ++ b) = DateParser.normalize (a ++ b) /\
      forall r,
        DateParser.parse_date_range (a ++ K ++ b) cy = Ret r <->
        DateParser.parse_date_range (a ++ b) cy = Ret r) /\
  (forall (pre d m y post : string) (cy : option Z),
      all nondigit pre = true -> all nondigit post = true ->
      digits 2 d = true -> digits 2 m = true -> digits 4 y = true ->
      DateParser.parse_date_range (pre ++ single_date d m y ++ post) cy
      = Ret (DateParser.iso y m d, OPEN_ENDED_DATE)) /\
  DateParser.parse_date_range "ab 01.10.2025" None = Ret ("2025-10-01", OPEN_ENDED_DATE) /\
  DateParser.parse_date_range "von Mittwoch 01.10.2025" None
  = DateParser.parse_date_range "01.10.2025" None.
Proof.
  split; [exact normalize_trims|].
  split; [|split; [|split; reflexivity]].
  - intros a K b cy HK Ha Hb.
    pose proof (normalize_removed_word a K b HK Ha Hb) as E.
    split; [exact E|]. intros r. apply parse_congr. exact E.
  - intros pre d m y post cy Hpre Hpost Hd Hm Hy.
    apply parse_single_date; assumption.
Qed.

Lemma C5_normalisation_removes_words_witness :
  DateParser.normalize "01.10.2025 - SONNTAG 05.10.2025"
  = DateParser.normalize "01.10.2025 -  05.10.2025" /\
  DateParser.parse_date_range "01.10.2025 - SONNTAG 05.10.2025" None
  = Ret ("2025-10-01", "2025-10-05") /\
  DateParser.parse_date_range "seit Freitag, 01.10.2025" None
  = Ret ("2025-10-01", "9999-12-31").
Proof.
  destruct C5_normalisation_removes_words as (_ & H1 & H2 & _).
  destruct (H1 "01.10.2025 - " "SONNTAG" " 05.10.2025" None) as [E Hr].
  - simpl. auto 20.
  - reflexivity.
  - reflexivity.
  - split; [exact E|]. split.
    + apply Hr. reflexivity.
    + apply (H2 "seit Freitag, " "01" "10" "2025" "" None); reflexivity.
Defined.

Section FullRangeInversion.

Import Re DateParser.

Lemma skip_spaces_decompose s :
  exists w, spaces w = true /\ s = (w ++ skip_spaces s)%string.
Proof.
  induction s as [|c t IH]; [exists ""; split; reflexivity|].
  simpl. destruct (isspace c) eqn:E.
  - destruct IH as (w & Hw & Ht). exists (String c w).
    unfold spaces in *. simpl. rewrite E, Hw. split; [reflexivity|congruence].
  - exists "". split; reflexivity.
Qed.

(** A match of the full-range pattern is a text of the full-range form. *)
Lemma match_full_range_inv rest gs r :
  match_here pattern1 rest = Some (gs, r) ->
  exists d1 m1 y1 w1 w2 d2 m2 y2,
    gs = [d1; m1; y1; d2; m2; y2] /\
    rest = (full_range d1 m1 y1 w1 w2 d2 m2 y2 ++ r)%string /\
    digits 2 d1 = true /\ digits 2 m1 = true /\ digits 4 y1 = true /\
    spaces w1 = true /\ spaces w2 = true /\
    digits 2 d2 = true /\ digits 2 m2 = true /\ digits 4 y2 = true.
Proof.
  unfold pattern1. intros H.
  cbn [match_here] in H.
  destruct (take_digits 2 rest) as [[d1 r1]|] eqn:E1; [|discriminate].
  apply take_digits_inv in E1. destruct E1 as [-> Hd1].
  destruct r1 as [|c1 r1]; [discriminate|].
  destruct (Ascii.eqb c1 dot) eqn:Ec1; [apply Ascii.eqb_eq in Ec1; subst c1|discriminate].
  destruct (take_digits 2 r1) as [[m1 r2]|] eqn:E2; [|discriminate].
  apply take_digits_inv in E2. destruct E2 as [-> Hm1].
  destruct r2 as [|c2 r2]; [discriminate|].
  destruct (Ascii.eqb c2 dot) eqn:Ec2; [apply Ascii.eqb_eq in Ec2; subst c2|discriminate].
  destruct (take_digits 4 r2) as [[y1 r3]|] eqn:E3; [|discriminate].
  apply take_digits_inv in E3. destruct E3 as [-> Hy1].
  destruct (skip_spaces_decompose r3) as (w1 & Hw1 & Er3).
  destruct (skip_spaces r3) as [|c3 r4]; [discriminate|].
  destruct (Ascii.eqb c3 dash) eqn:Ec3; [apply Ascii.eqb_eq in Ec3; subst c3|discriminate].
  destruct (skip_spaces_decompose r4) as (w2 & Hw2 & Er4).
  destruct (take_digits 2 (skip_spaces r4)) as [[d2 r5]|] eqn:E5; [|discriminate].
  apply take_digits_inv in E5. destruct E5 as [E5 Hd2]. rewrite E5 in Er4.
  destruct r5 as [|c5 r5]; [discriminate|].
  destruct (Ascii.eqb c5 dot) eqn:Ec5; [apply Ascii.eqb_eq in Ec5; subst c5|discriminate].
  destruct (take_digits 2 r5) as [[m2 r6]|] eqn:E6; [|discriminate].
  apply take_digits_inv in E6. destruct E6 as [-> Hm2].
  destruct r6 as [|c6 r6]; [discriminate|].
  destruct (Ascii.eqb c6 dot) eqn:Ec6; [apply Ascii.eqb_eq in Ec6; subst c6|discriminate].
  destruct (take_digits 4 r6) as [[y2 r7]|] eqn:E7; [|discriminate].
  apply take_digits_inv in E7. destruct E7 as [-> Hy2].
  injection H as <- <-.
  exists d1, m1, y1, w1, w2, d2, m2, y2.
  repeat split; try assumption.
  rewrite Er3, Er4. unfold full_range, dot, dash.
  rewrite !sapp_assoc. reflexivity.
Qed.

(** Whenever the full-range pattern is found, the normalised text has the
    full-range form at the leftmost match and the result is read off it. *)
Lemma parse_full_range_inv s cy gs :
  search pattern1 (normalize s) = Some gs ->
  exists pre d1 m1 y1 w1 w2 d2 m2 y2 post,
    normalize s = (pre ++ full_range d1 m1 y1 w1 w2 d2 m2 y2 ++ post)%string /\
    digits 2 d1 = true /\ digits 2 m1 = true /\ digits 4 y1 = true /\
    spaces w1 = true /\ spaces w2 = true /\
    digits 2 d2 = true /\ digits 2 m2 = true /\ digits 4 y2 = true /\
    parse_date_range s cy = Ret (iso y1 m1 d1, iso y2 m2 d2).
Proof.
  intros Hs. pose proof Hs as Hs'.
  apply search_inv in Hs'. destruct Hs' as (pre & rest & r & En & Hm & _).
  apply match_full_range_inv in Hm.
  destruct Hm as (d1 & m1 & y1 & w1 & w2 & d2 & m2 & y2 & -> & -> & H).
  destruct H as (Hd1 & Hm1 & Hy1 & Hw1 & Hw2 & Hd2 & Hm2 & Hy2).
  exists pre, d1, m1, y1, w1, w2, d2, m2, y2, r.
  split; [exact En|].
  repeat (split; [assumption|]).
  apply parse_ret_iff. unfold parse_date_range_body. rewrite Hs. reflexivity.
Qed.

End FullRangeInversion.

(** C3.  For every text that contains two [DD.MM.YYYY] dates separated by
    a dash (with any whitespace around the dash), preceded by text without
    digits and followed by any text, [parse_date_range] returns the pair
    whose year, month and day are the two date groups exactly as written,
    in textual order.  More generally, whenever the full-range pattern is
    found at all, the normalised text has that form at the leftmost match
    and the result is read off its groups.  Nothing compares the two
    dates: both statements hold for all digit groups, whichever date is
    the later one. *)
Theorem C3_full_range_as_written :
  (forall (pre d1 m1 y1 w1 w2 d2 m2 y2 post : string) (cy : option Z),
      all nondigit pre = true ->
      digits 2 d1 = true -> digits 2 m1 = true -> digits 4 y1 = true ->
      spaces w1 = true -> spaces w2 = true ->
      digits 2 d2 = true -> digits 2 m2 = true -> digits 4 y2 = true ->
      DateParser.parse_date_range
        (pre ++ full_range d1 m1 y1 w1 w2 d2 m2 y2 ++ post) cy
      = Ret (DateParser.iso y1 m1 d1, DateParser.iso y2 m2 d2)) /\
  (forall (s : string) (cy : option Z) (gs : list string),
      Re.search DateParser.pattern1 (DateParser.normalize s) = Some gs ->
      exists pre d1 m1 y1 w1 w2 d2 m2 y2 post,
        DateParser.normalize s
        = (pre ++ full_range d1 m1 y1 w1 w2 d2 m2 y2 ++ post)%string /\
        digits 2 d1 = true /\ digits 2 m1 = true /\ digits 4 y1 = true /\
        spaces w1 = true /\ spaces w2 = true /\
        digits 2 d2 = true /\ digits 2 m2 = true /\ digits 4 y2 = true /\
        DateParser.parse_date_range s cy
        = Ret (DateParser.iso y1 m1 d1, DateParser.iso y2 m2 d2)).
Proof.
  split.
  - intros pre d1 m1 y1 w1 w2 d2 m2 y2 post cy Hpre Hd1 Hm1 Hy1 Hw1 Hw2 Hd2 Hm2 Hy2.
    apply parse_full_range; assumption.
  - intros s cy gs. apply parse_full_range_inv.
Qed.

Lemma C3_full_range_as_written_witness :
  DateParser.parse_date_range "Angebot 07.02.2026 - 02.02.2026 (KW 6)" None
  = Ret ("2026-02-07", "2026-02-02").
Proof.
  destruct C3_full_range_as_written as [H _].
  exact (H "Angebot " "07" "02" "2026" " " " " "02" "02" "2026" " (KW 6)" None
           eq_refl eq_refl eq_refl eq_refl eq_refl eq_refl eq_refl eq_refl eq_refl).
Defined.

(** * Further properties *)

(** ** A pass of [re.sub] as a filter on words *)

Section WordRuns.

Import Re.

Variable alts : list string.
Hypothesis alts_keywords : forallb keyword alts = true.

Lemma attempt_word_run b :
  isword_opt (head b) = false ->
  forall k w prev,
  all isalpha_az k = true -> all isword w = true -> isword_opt prev = true ->
  attempt k prev (w ++ b) = (lower k =? lower w)%string.
Proof.
  intros Hb. induction k as [|p k IH]; intros w prev Hk Hw Hprev.
  - unfold attempt, boundary. simpl. rewrite Hprev.
    destruct w as [|c w]; simpl.
    + rewrite Hb. reflexivity.
    + simpl in Hw. apply andb_true_iff in Hw. destruct Hw as [Hc _].
      rewrite Hc. reflexivity.
  - simpl in Hk. apply andb_true_iff in Hk. destruct Hk as [Hp Hk].
    destruct w as [|c w]; simpl.
    + apply attempt_nonalpha.
      * unfold keyword. simpl. rewrite Hp, Hk. reflexivity.
      * destruct b as [|y b]; simpl in *; [exact I|].
        apply nonword_not_alpha. assumption.
    + simpl in Hw. apply andb_true_iff in Hw. destruct Hw as [Hc Hw].
      rewrite attempt_cons, (Ascii.eqb_sym (tolower p) (tolower c)).
      destruct (Ascii.eqb (tolower c) (tolower p)); [|reflexivity].
      simpl. apply IH; assumption.
Qed.

Lemma match_word_word_run ks c w b prev :
  forallb keyword ks = true ->
  all isword (String c w) = true -> isword_opt (head b) = false ->
  match_word ks prev (String c w ++ b) =
  if among ks (String c w) then Some (String.length (String c w)) else None.
Proof.
  intros Hks Hw Hb. induction ks as [|k ks IH]; [reflexivity|].
  simpl in Hks. apply andb_true_iff in Hks. destruct Hks as [Hk Hks].
  rewrite match_word_cons. unfold among in *. cbn [existsb].
  destruct (keyword_inv _ Hk) as (p & k' & -> & Hp & Hk').
  pose proof Hw as Hw'. simpl in Hw'. apply andb_true_iff in Hw'.
  destruct Hw' as [Hc Hw'].
  change ((String c w ++ b)%string) with (String c (w ++ b)).
  rewrite attempt_cons.
  change (lower (String p k') =? lower (String c w))%string
    with (Ascii.eqb (tolower p) (tolower c) && (lower k' =? lower w)%string).
  rewrite (Ascii.eqb_sym (tolower p) (tolower c)).
  change (String c (w ++ b)) with ((String c w ++ b)%string) in IH.
  destruct (Ascii.eqb (tolower c) (tolower p)); cbn [andb orb].
  - rewrite (attempt_word_run b Hb k' w (Some c) Hk' Hw' Hc).
    destruct (lower k' =? lower w)%string eqn:E; cbn [orb].
    + apply String.eqb_eq in E. f_equal. cbn [String.length]. f_equal.
      rewrite <- (lower_length k'), E, lower_length. reflexivity.
    + apply IH. assumption.
  - apply IH. assumption.
Qed.

Lemma sub_aux_inside_run w :
  forall p b,
  isword p = true -> all isword w = true -> isword_opt (head b) = false ->
  sub_aux alts (Some p) 0 (w ++ b) = (w ++ sub_aux alts None 0 b)%string.
Proof.
  induction w as [|c w IH]; intros p b Hp Hw Hb; simpl.
  - apply sub_aux_head_nonword; assumption.
  - simpl in Hw. apply andb_true_iff in Hw. destruct Hw as [Hc Hw].
    unfold match_word_at, boundary. simpl.
    rewrite Hp, Hc. simpl.
    rewrite IH; try assumption. reflexivity.
Qed.

(** A maximal run of word characters is dropped when it is among the
    alternatives and copied otherwise. *)
Lemma sub_aux_word_run c w b prev :
  all isword (String c w) = true ->
  isword_opt prev = false -> isword_opt (head b) = false ->
  sub_aux alts prev 0 (String c w ++ b)
  = ((if among alts (String c w) then "" else String c w)
     ++ sub_aux alts None 0 b)%string.
Proof.
  intros Hw Hprev Hb.
  pose proof Hw as Hw'. simpl in Hw'. apply andb_true_iff in Hw'.
  destruct Hw' as [Hc Hw'].
  change ((String c w ++ b)%string) with (String c (w ++ b)).
  cbn [sub_aux].
  change (String c (w ++ b)) with ((String c w ++ b)%string).
  unfold match_word_at.
  assert (Hbd : boundary prev (head (String c w ++ b)) = true).
  { unfold boundary. simpl. rewrite Hprev, Hc. reflexivity. }
  rewrite Hbd.
  rewrite (match_word_word_run alts c w b prev alts_keywords Hw Hb).
  destruct (among alts (String c w)).
  - cbn [String.length]. simpl. apply sub_aux_skip; assumption.
  - simpl. rewrite sub_aux_inside_run; try assumption. reflexivity.
Qed.

(** The longest prefix of word characters. *)
Lemma word_span s :
  exists w b, s = (w ++ b)%string /\ all isword w = true /\
              isword_opt (head b) = false.
Proof.
  induction s as [|c t IH].
  - exists "", "". auto.
  - destruct (isword c) eqn:Hc.
    + destruct IH as (w & b & -> & Hw & Hb).
      exists (String c w), b. simpl. rewrite Hc, Hw. auto.
    + exists "", (String c t). simpl. auto.
Qed.

Lemma tokenize_word_run w :
  forall c b,
  all isword (String c w) = true -> isword_opt (head b) = false ->
  tokenize (String c w ++ b) = Word (String c w) :: tokenize b.
Proof.
  induction w as [|d w IH]; intros c b Hw Hb.
  - simpl in *. rewrite andb_true_r in Hw. rewrite Hw.
    destruct b as [|y b]; [reflexivity|]. simpl in *. rewrite Hb. reflexivity.
  - pose proof Hw as Hw'. simpl in Hw'. apply andb_true_iff in Hw'.
    destruct Hw' as [Hc Hw'].
    change ((String c (String d w) ++ b)%string)
      with (String c (String d w ++ b)).
    cbn [tokenize]. rewrite Hc.
    rewrite (IH d b) by assumption. reflexivity.
Qed.

Lemma sub_words_tokens_bounded n :
  forall s, (String.length s <= n)%nat ->
  sub_words alts s = untokenize (filter (kept alts) (tokenize s)).
Proof.
  induction n as [|n IH]; intros s Hn.
  - destruct s; [reflexivity|simpl in Hn; lia].
  - destruct s as [|c t]; [reflexivity|].
    destruct (isword c) eqn:Hc.
    + destruct (word_span t) as (w & b & -> & Hw & Hb).
      assert (Hcw : all isword (String c w) = true)
        by (simpl; rewrite Hc, Hw; reflexivity).
      change (String c (w ++ b)) with ((String c w ++ b)%string).
      rewrite tokenize_word_run by assumption.
      unfold sub_words. rewrite sub_aux_word_run by auto.
      fold (sub_words alts b).
      rewrite (IH b).
      * cbn [filter kept]. destruct (among alts (String c w)); reflexivity.
      * simpl in Hn. rewrite slength_app in Hn. lia.
    + change (String c t) with (("" ++ String c t)%string) at 1.
      rewrite (sub_words_split alts alts_keywords "" c t Hc).
      cbn [tokenize]. rewrite Hc. cbn [filter kept untokenize].
      rewrite (IH t) by (simpl in Hn; lia). reflexivity.
Qed.

Lemma sub_words_tokens s :
  sub_words alts s = untokenize (filter (kept alts) (tokenize s)).
Proof. apply (sub_words_tokens_bounded (String.length s)). lia. Qed.

End WordRuns.

Lemma canon_tokenize s : canon (tokenize s) = true.
Proof.
  induction s as [|c t IH]; [reflexivity|].
  simpl. destruct (isword c) eqn:Hc.
  - destruct (tokenize t) as [|[w|d] ts] eqn:E.
    + simpl. rewrite Hc. reflexivity.
    + simpl in *. rewrite Hc.
      apply andb_true_iff in IH. destruct IH as [IH1 IH2].
      apply andb_true_iff in IH1. destruct IH1 as [IH1 IH3].
      apply andb_true_iff in IH1. destruct IH1 as [_ IH1].
      rewrite IH1, IH2, IH3. reflexivity.
    + simpl in *. rewrite Hc, IH. reflexivity.
  - simpl. rewrite Hc, IH. reflexivity.
Qed.

Lemma untokenize_tokenize s : untokenize (tokenize s) = s.
Proof.
  induction s as [|c t IH]; [reflexivity|].
  simpl. destruct (isword c).
  - destruct (tokenize t) as [|[w|d] ts]; simpl in *; congruence.
  - simpl. congruence.
Qed.

Lemma tokenize_untokenize ts : canon ts = true -> tokenize (untokenize ts) = ts.
Proof.
  induction ts as [|[w|c] r IH]; [reflexivity| |].
  - cbn [canon untokenize]. intros H.
    apply andb_true_iff in H. destruct H as [H Hr].
    apply andb_true_iff in H. destruct H as [H Hnext].
    apply andb_true_iff in H. destruct H as [Hne Hw].
    destruct w as [|c w]; [discriminate|].
    rewrite tokenize_word_run; [rewrite IH by assumption; reflexivity|assumption|].
    destruct r as [|[w'|y] r']; [reflexivity|discriminate|].
    simpl in *. apply andb_true_iff in Hr. destruct Hr as [Hy _].
    apply negb_true_iff in Hy. exact Hy.
  - cbn [canon untokenize tokenize]. intros H.
    apply andb_true_iff in H. destruct H as [Hc Hr].
    apply negb_true_iff in Hc. rewrite Hc, IH by assumption. reflexivity.
Qed.

Lemma canon_filter (f : token -> bool) ts :
  (forall c, f (Other c) = true) -> canon ts = true -> canon (filter f ts) = true.
Proof.
  intros Hf. induction ts as [|[w|c] r IH]; [reflexivity| |].
  - cbn [canon]. intros H.
    apply andb_true_iff in H. destruct H as [H Hr].
    apply andb_true_iff in H. destruct H as [H Hnext].
    cbn [filter]. destruct (f (Word w)); [|auto].
    cbn [canon]. rewrite H, (IH Hr). simpl.
    destruct r as [|[w'|y] r']; [reflexivity|discriminate|].
    cbn [filter]. rewrite Hf. reflexivity.
  - cbn [canon filter]. intros H. rewrite Hf.
    apply andb_true_iff in H. destruct H as [Hc Hr].
    cbn [canon]. rewrite Hc, (IH Hr). reflexivity.
Qed.

Lemma filter_filter {A : Type} (f g : A -> bool) (l : list A) :
  filter f (filter g l) = filter (fun x => g x && f x) l.
Proof.
  induction l as [|x l IH]; [reflexivity|].
  simpl. destruct (g x); simpl; [destruct (f x)|]; congruence.
Qed.

(** A sequence of passes is one filter. *)
Lemma run_tokens L :
  forallb (forallb keyword) L = true ->
  forall ts, canon ts = true ->
  run L (untokenize ts) = untokenize (filter (kept_by_all L) ts).
Proof.
  induction L as [|alts L IH]; intros HL ts Hts.
  - unfold run, kept_by_all. simpl.
    induction ts as [|t r IHr]; [reflexivity|].
    simpl. destruct t; simpl in *.
    + rewrite IHr; [reflexivity|].
      apply andb_true_iff in Hts. tauto.
    + rewrite IHr; [reflexivity|].
      apply andb_true_iff in Hts. tauto.
  - simpl in HL. apply andb_true_iff in HL. destruct HL as [Hk HL].
    unfold run. cbn [fold_left]. fold (run L).
    rewrite (sub_words_tokens alts Hk), (tokenize_untokenize ts Hts).
    rewrite IH; [|assumption|apply canon_filter; [reflexivity|assumption]].
    rewrite filter_filter. reflexivity.
Qed.

(** ** What the normalisation removes *)

Lemma kept_by_all_passes (t : token) : kept_by_all passes t = stays t.
Proof.
  destruct t as [w|c]; [|reflexivity].
  unfold kept_by_all, stays, kept, among, passes, removed_words, GERMAN_DAYS, PREFIXES.
  cbn [map app forallb existsb].
  change (lower "montag") with "montag". change (lower "dienstag") with "dienstag".
  change (lower "mittwoch") with "mittwoch". change (lower "donnerstag") with "donnerstag".
  change (lower "freitag") with "freitag". change (lower "samstag") with "samstag".
  change (lower "sonntag") with "sonntag". change (lower "von") with "von".
  change (lower "ab") with "ab". change (lower "seit") with "seit".
  rewrite !(String.eqb_sym (lower w)).
  destruct ("montag" =? lower w)%string; destruct ("dienstag" =? lower w)%string;
  destruct ("mittwoch" =? lower w)%string; destruct ("donnerstag" =? lower w)%string;
  destruct ("freitag" =? lower w)%string; destruct ("samstag" =? lower w)%string;
  destruct ("sonntag" =? lower w)%string; destruct ("von" =? lower w)%string;
  destruct ("ab" =? lower w)%string; destruct ("seit" =? lower w)%string;
  reflexivity.
Qed.

Lemma remove_words_tokens (s : string) :
  remove_words s = untokenize (filter stays (tokenize s)).
Proof.
  unfold remove_words. rewrite <- (untokenize_tokenize s) at 1.
  rewrite (run_tokens passes passes_keywords) by apply canon_tokenize.
  f_equal. apply filter_ext. exact kept_by_all_passes.
Qed.


Lemma sapp_inv_head (a x y : string) : (a ++ x)%string = (a ++ y)%string -> x = y.
Proof. induction a; simpl; intros H; [assumption|injection H; auto]. Qed.

Lemma sapp_inv_tail (a : string) :
  forall x y, (x ++ a)%string = (y ++ a)%string -> x = y.
Proof.
  induction x as [|c x IH]; intros y H.
  - destruct y as [|d y]; [reflexivity|].
    apply (f_equal String.length) in H. simpl in H. rewrite slength_app in H. lia.
  - destruct y as [|d y].
    + apply (f_equal String.length) in H. simpl in H. rewrite slength_app in H. lia.
    + simpl in H. injection H as -> H. f_equal. auto.
Qed.

Lemma strip_idempotent (s : string) : strip (strip s) = strip s.
Proof.
  destruct (strip_decompose s) as (ws & ws' & Hws & Hws' & E).
  rewrite E at 2. rewrite strip_spaces_around by assumption. reflexivity.
Qed.

Lemma remove_words_idempotent (s : string) :
  remove_words (remove_words s) = remove_words s.
Proof.
  rewrite (remove_words_tokens s). rewrite remove_words_tokens.
  rewrite tokenize_untokenize
    by (apply canon_filter; [reflexivity|apply canon_tokenize]).
  rewrite filter_filter. f_equal. apply filter_ext.
  intros t. destruct (stays t); reflexivity.
Qed.

(** Normalising a normalised text changes nothing. *)
Theorem normalize_idempotent (s : string) :
  DateParser.normalize (DateParser.normalize s) = DateParser.normalize s.
Proof.
  rewrite (normalize_strip_once s).
  set (R := remove_words s).
  rewrite normalize_strip_once.
  destruct (strip_decompose R) as (ws & ws' & Hws & Hws' & E).
  assert (H : remove_words (strip R) = strip R).
  { pose proof (remove_words_idempotent s) as Hi. fold R in Hi.
    rewrite E in Hi at 1. unfold remove_words in Hi.
    rewrite run_spaces in Hi by (assumption || apply passes_keywords).
    rewrite E in Hi at 2.
    apply sapp_inv_head in Hi. apply sapp_inv_tail in Hi. exact Hi. }
  rewrite H. apply strip_idempotent.
Qed.

Lemma forallb_perm {A : Type} (f : A -> bool) (l l' : list A) :
  Permutation.Permutation l l' -> forallb f l = forallb f l'.
Proof.
  induction 1; simpl; try congruence.
  destruct (f x), (f y); reflexivity.
Qed.

(** The passes filter independently of one another: their order does not
    matter, whether among the day names or between day names and
    prefixes. *)
Theorem removal_order_irrelevant (L L' : list (list string)) (s : string) :
  forallb (forallb keyword) L = true ->
  Permutation.Permutation L L' ->
  run L s = run L' s.
Proof.
  intros HL HP.
  assert (HL' : forallb (forallb keyword) L' = true).
  { rewrite <- (forallb_perm _ _ _ HP). exact HL. }
  rewrite <- (untokenize_tokenize s).
  rewrite !run_tokens by (assumption || apply canon_tokenize).
  f_equal. apply filter_ext. intros t. unfold kept_by_all.
  apply forallb_perm. exact HP.
Qed.

Lemma removal_order_irrelevant_witness :
  run (rev passes) "Seit Montag, 01.10.2025" = run passes "Seit Montag, 01.10.2025".
Proof.
  apply removal_order_irrelevant.
  - reflexivity.
  - apply Permutation.Permutation_sym, Permutation.Permutation_rev.
Defined.

(** ** The form of what [parse_date_range] returns *)

(** Whatever text it is given, a result of [parse_date_range] has an end
    date of the form [YYYY-MM-DD] (the sentinel included) and a start date
    whose month and day are two digits each; the start year is four
    digits, except in the abbreviated form, where it may be
    [str(int(end year) - 1)]. *)
Theorem parse_date_range_shape (s : string) (cy : option Z) (vf vt : string) :
  DateParser.parse_date_range s cy = Ret (vf, vt) ->
  exists y1 m1 d1 y2 m2 d2,
    vf = DateParser.iso y1 m1 d1 /\ vt = DateParser.iso y2 m2 d2 /\
    digits 2 m1 = true /\ digits 2 d1 = true /\
    digits 4 y2 = true /\ digits 2 m2 = true /\ digits 2 d2 = true /\
    (digits 4 y1 = true \/
     exists y, py_int y2 = Ret y /\ y1 = py_str (y - 1)).
Proof.
  intros H. apply parse_ret_iff in H.
  unfold DateParser.parse_date_range_body in H.
  destruct (Re.search DateParser.pattern1 (DateParser.normalize s)) as [gs1|] eqn:E1.
  { apply search_groups in E1. simpl in E1.
    inversion E1 as [|? d1 ? ? Hd1 Ea]; subst; clear E1.
    inversion Ea as [|? m1 ? ? Hm1 Eb]; subst; clear Ea.
    inversion Eb as [|? y1 ? ? Hy1 Ec]; subst; clear Eb.
    inversion Ec as [|? d2 ? ? Hd2 Ed]; subst; clear Ec.
    inversion Ed as [|? m2 ? ? Hm2 Ee]; subst; clear Ed.
    inversion Ee as [|? y2 ? ? Hy2 Ef]; subst; clear Ee.
    inversion Ef; subst; clear Ef.
    injection H as <- <-.
    exists y1, m1, d1, y2, m2, d2. repeat split; auto. }
  destruct (Re.search DateParser.pattern2 (DateParser.normalize s)) as [gs2|] eqn:E2.
  { apply search_groups in E2. simpl in E2.
    inversion E2 as [|? d1 ? ? Hd1 Ea]; subst; clear E2.
    inversion Ea as [|? m1 ? ? Hm1 Eb]; subst; clear Ea.
    inversion Eb as [|? d2 ? ? Hd2 Ec]; subst; clear Eb.
    inversion Ec as [|? m2 ? ? Hm2 Ed]; subst; clear Ec.
    inversion Ed as [|? y2 ? ? Hy2 Ee]; subst; clear Ed.
    inversion Ee; subst; clear Ee.
    destruct (py_int_digits _ _ Hm1) as (a & Ha).
    destruct (py_int_digits _ _ Hm2) as (b & Hb).
    destruct (py_int_digits _ _ Hy2) as (y & Hy).
    rewrite Ha, Hb in H. simpl in H.
    destruct (a <=? b)%Z; simpl in H.
    - injection H as <- <-.
      exists y2, m1, d1, y2, m2, d2. repeat split; auto.
    - rewrite Hy in H. simpl in H. injection H as <- <-.
      exists (py_str (y - 1)), m1, d1, y2, m2, d2. repeat split; eauto. }
  destruct (Re.search DateParser.pattern3 (DateParser.normalize s)) as [gs3|] eqn:E3;
    [|discriminate].
  apply search_groups in E3. simpl in E3.
  inversion E3 as [|? d1 ? ? Hd1 Ea]; subst; clear E3.
  inversion Ea as [|? m1 ? ? Hm1 Eb]; subst; clear Ea.
  inversion Eb as [|? y1 ? ? Hy1 Ec]; subst; clear Eb.
  inversion Ec; subst; clear Ec.
  injection H as <- <-.
  exists y1, m1, d1, "9999", "12", "31". repeat split; auto.
Qed.

Lemma parse_date_range_shape_witness :
  exists y1 m1 d1 y2 m2 d2,
    "2025-12-28" = DateParser.iso y1 m1 d1 /\ "2026-01-03" = DateParser.iso y2 m2 d2 /\
    digits 2 m1 = true /\ digits 2 d1 = true /\
    digits 4 y2 = true /\ digits 2 m2 = true /\ digits 2 d2 = true /\
    (digits 4 y1 = true \/
     exists y, py_int y2 = Ret y /\ y1 = py_str (y - 1)).
Proof.
  apply (parse_date_range_shape "28.12. - 03.01.2026" None). reflexivity.
Defined.

(** ** The validator, check by check *)

Section ValidatorChecks.

Import Strptime Model.

Lemma strip_nonempty_truthy (s : string) : strip s <> "" -> truthy s = true.
Proof.
  intros H. apply truthy_true. intros E. rewrite E in H. apply H. reflexivity.
Qed.

Lemma validate_ok (l : Leaflet) d1 d2 t :
  strip (title l) <> "" ->
  startswith "http" (thumbnail l) = true ->
  strip (shop_name l) <> "" ->
  strptime_date (valid_from l) = Ret d1 ->
  strptime_date (valid_to l) = Ret d2 ->
  strptime_datetime (parsed_time l) = Ret t ->
  (valid_to l <> OPEN_ENDED_DATE -> datetime_le d1 d2 = true) ->
  validate l = Ret true.
Proof.
  intros Ht Hu Hs H1 H2 H3 Ho. unfold validate.
  rewrite (strip_nonempty_truthy _ Ht), (strip_nonempty_truthy _ Hs).
  apply truthy_true in Ht, Hs. rewrite Ht, Hs, Hu.
  assert (Hut : truthy (thumbnail l) = true).
  { apply truthy_true. intros E. rewrite E in Hu. discriminate. }
  rewrite Hut. simpl.
  rewrite (check_formats_ok l d1 d2 t H1 H2 H3). simpl.
  unfold check_order.
  destruct (valid_to l =? OPEN_ENDED_DATE)%string eqn:E; simpl; [reflexivity|].
  rewrite H1, H2. simpl.
  apply String.eqb_neq in E. specialize (Ho E).
  unfold datetime_le in Ho. apply negb_true_iff in Ho. rewrite Ho. reflexivity.
Qed.

End ValidatorChecks.

(** [validate] never returns [False]: it returns [True] exactly when the
    title and the shop name are non-empty after stripping, the thumbnail
    begins with [http], the two dates and the time stamp are accepted by
    [strptime], and the start is not after the end unless the end is the
    sentinel; in every other case it raises. *)
Theorem validate_succeeds_iff (l : Leaflet) :
  (forall b, validate l = Ret b -> b = true) /\
  (validate l = Ret true <->
   strip (title l) <> "" /\
   startswith "http" (thumbnail l) = true /\
   strip (shop_name l) <> "" /\
   exists d1 d2 t,
     strptime_date (valid_from l) = Ret d1 /\
     strptime_date (valid_to l) = Ret d2 /\
     strptime_datetime (parsed_time l) = Ret t /\
     (valid_to l <> OPEN_ENDED_DATE -> datetime_le d1 d2 = true)).
Proof.
  split.
  - intros b H. apply validate_inv in H. tauto.
  - split.
    + intros H. apply validate_inv in H. tauto.
    + intros (Ht & Hu & Hs & d1 & d2 & t & H1 & H2 & H3 & Ho).
      eapply validate_ok; eassumption.
Qed.

(** [validate] reports the first check that fails, in the order title,
    thumbnail, shop name, date formats ([valid_from], [valid_to],
    [parsed_time]), date order, each with its own message. *)
Theorem validate_reports_first_failure (l : Leaflet) :
  (strip (title l) = "" ->
   validate l = Raise (ValidationException "Title cannot be empty")) /\
  (strip (title l) <> "" -> startswith "http" (thumbnail l) = false ->
   validate l = Raise (ValidationException ("Invalid thumbnail URL: " ++ thumbnail l))) /\
  (strip (title l) <> "" -> startswith "http" (thumbnail l) = true ->
   strip (shop_name l) = "" ->
   validate l = Raise (ValidationException "Shop name cannot be empty")) /\
  (strip (title l) <> "" -> startswith "http" (thumbnail l) = true ->
   strip (shop_name l) <> "" ->
   (forall m, strptime_date (valid_from l) = Raise (ValueError m) ->
      validate l = Raise (ValidationException ("Invalid date format: " ++ m))) /\
   (forall d1 m, strptime_date (valid_from l) = Ret d1 ->
      strptime_date (valid_to l) = Raise (ValueError m) ->
      validate l = Raise (ValidationException ("Invalid date format: " ++ m))) /\
   (forall d1 d2 m, strptime_date (valid_from l) = Ret d1 ->
      strptime_date (valid_to l) = Ret d2 ->
      strptime_datetime (parsed_time l) = Raise (ValueError m) ->
      validate l = Raise (ValidationException ("Invalid date format: " ++ m))) /\
   (forall d1 d2 t, strptime_date (valid_from l) = Ret d1 ->
      strptime_date (valid_to l) = Ret d2 ->
      strptime_datetime (parsed_time l) = Ret t ->
      valid_to l <> OPEN_ENDED_DATE -> datetime_gt d1 d2 = true ->
      validate l = Raise (order_error l))).
Proof.
  split; [|split; [|split]].
  - intros Ht. unfold validate.
    assert (E : truthy (strip (title l)) = false).
    { rewrite Ht. reflexivity. }
    rewrite E, orb_true_r. reflexivity.
  - apply validate_thumbnail_message.
  - intros Ht Hu Hs. unfold validate.
    rewrite (strip_nonempty_truthy _ Ht).
    apply truthy_true in Ht. rewrite Ht, Hu.
    assert (Hut : truthy (thumbnail l) = true).
    { apply truthy_true. intros E. rewrite E in Hu. discriminate. }
    rewrite Hut. simpl.
    assert (E : truthy (strip (shop_name l)) = false).
    { rewrite Hs. reflexivity. }
    rewrite E, orb_true_r. reflexivity.
  - intros Ht Hu Hs.
    assert (Hpre : validate l
                   = (_ <- check_formats l ;; _ <- check_order l ;; Ret true)).
    { unfold validate.
      rewrite (strip_nonempty_truthy _ Ht), (strip_nonempty_truthy _ Hs).
      apply truthy_true in Ht, Hs. rewrite Ht, Hs, Hu.
      assert (Hut : truthy (thumbnail l) = true).
      { apply truthy_true. intros E. rewrite E in Hu. discriminate. }
      rewrite Hut. reflexivity. }
    split; [|split; [|split]].
    + intros m H1. rewrite Hpre. unfold check_formats. rewrite H1. reflexivity.
    + intros d1 m H1 H2. rewrite Hpre. unfold check_formats. rewrite H1, H2. reflexivity.
    + intros d1 d2 m H1 H2 H3. rewrite Hpre. unfold check_formats.
      rewrite H1, H2, H3. reflexivity.
    + intros d1 d2 t H1 H2 H3 Hne Hgt. rewrite Hpre.
      rewrite (check_formats_ok l d1 d2 t H1 H2 H3). simpl.
      unfold check_order. apply String.eqb_neq in Hne. rewrite Hne. simpl.
      rewrite H1, H2. simpl. rewrite Hgt. reflexivity.
Qed.

Lemma validate_reports_first_failure_witness :
  validate (mkLeaflet "  " "x" "" "2026-02-30" "2026-02-01" "now")
    = Raise (ValidationException "Title cannot be empty") /\
  validate (mkLeaflet "A" "https://x/a.png" "Lidl" "2026-02-08" "2026-02-07"
                      "2026-02-03 10:15:00")
    = Raise (ValidationException
               "valid_from (2026-02-08) is after valid_to (2026-02-07)").
Proof.
  split.
  - destruct (validate_reports_first_failure
                (mkLeaflet "  " "x" "" "2026-02-30" "2026-02-01" "now")) as [H _].
    apply H. reflexivity.
  - destruct (validate_reports_first_failure
                (mkLeaflet "A" "https://x/a.png" "Lidl" "2026-02-08" "2026-02-07"
                           "2026-02-03 10:15:00")) as (_ & _ & _ & H).
    specialize (H ltac:(vm_compute; discriminate) eq_refl
                  ltac:(vm_compute; discriminate)).
    destruct H as (_ & _ & _ & H).
    eapply H; try reflexivity. vm_compute. discriminate.
Defined.

(** ** [strptime] on dates written [YYYY-MM-DD] *)

Section IsoDates.

Import Strptime.

Lemma digit_cases c : isdigit c = true -> In c digit_chars.
Proof.
  destruct c as [[] [] [] [] [] [] [] []]; try discriminate; intros _;
    simpl; auto 12.
Qed.

Lemma digits2_inv g :
  digits 2 g = true ->
  exists c1 c2, g = two c1 c2 /\ In c1 digit_chars /\ In c2 digit_chars.
Proof.
  destruct g as [|c1 [|c2 [|? ?]]]; try discriminate.
  intros H. apply digits_cons in H. destruct H as [H1 H].
  apply digits_cons in H. destruct H as [H2 _].
  exists c1, c2. split; [reflexivity|]. split; apply digit_cases; assumption.
Qed.

Lemma month_day_check_all :
  forallb (fun c1 => forallb (fun c2 => forallb (fun e1 => forallb (fun e2 =>
    month_day_check c1 c2 e1 e2) digit_chars) digit_chars) digit_chars) digit_chars
  = true.
Proof. vm_compute. reflexivity. Qed.

Lemma month_day_checked c1 c2 e1 e2 :
  In c1 digit_chars -> In c2 digit_chars -> In e1 digit_chars -> In e2 digit_chars ->
  month_day_check c1 c2 e1 e2 = true.
Proof.
  intros H1 H2 H3 H4. pose proof month_day_check_all as H.
  rewrite forallb_forall in H. specialize (H c1 H1).
  rewrite forallb_forall in H. specialize (H c2 H2).
  rewrite forallb_forall in H. specialize (H e1 H3).
  rewrite forallb_forall in H. exact (H e2 H4).
Qed.

(** The year directive has one alternative: four digits. *)
Lemma match_fmt_year y rest :
  digits 4 y = true ->
  match_fmt fmt_date (y ++ "-" ++ rest) =
  match match_fmt [dir_m; Sep "-"; dir_d] rest with
  | Some (gs, r) => Some (y :: gs, r)
  | None => None
  end.
Proof.
  destruct y as [|y1 [|y2 [|y3 [|y4 [|? ?]]]]]; try discriminate.
  intros H.
  apply digits_cons in H. destruct H as [H1 H].
  apply digits_cons in H. destruct H as [H2 H].
  apply digits_cons in H. destruct H as [H3 H].
  apply digits_cons in H. destruct H as [H4 _].
  unfold fmt_date, dir_Y.
  cbn [match_fmt match_classes String.append].
  rewrite H1, H2, H3, H4. cbn [Ascii.eqb Bool.eqb].
  destruct (match_fmt [dir_m; Sep "-"; dir_d] rest) as [[gs r]|]; reflexivity.
Qed.

Lemma make_datetime_ok y m d :
  (1 <= y <= 9999)%Z -> (1 <= m <= 12)%Z -> (1 <= d <= days_in_month y m)%Z ->
  make_datetime y m d 0 0 0 = Ret (mkdatetime y m d 0 0 0).
Proof.
  intros Hy Hm Hd. unfold make_datetime.
  assert (E1 : ((1 <=? y) && (y <=? 9999))%Z = true)
    by (apply andb_true_iff; split; apply Z.leb_le; lia).
  assert (E2 : ((1 <=? m) && (m <=? 12))%Z = true)
    by (apply andb_true_iff; split; apply Z.leb_le; lia).
  assert (E3 : ((1 <=? d) && (d <=? days_in_month y m))%Z = true)
    by (apply andb_true_iff; split; apply Z.leb_le; lia).
  rewrite E1, E2, E3. reflexivity.
Qed.

Lemma strptime_date_calendar (y m d : string) (a b c : Z) (t : datetime) :
  digits 4 y = true -> digits 2 m = true -> digits 2 d = true ->
  py_int y = Ret a -> py_int m = Ret b -> py_int d = Ret c ->
  (strptime_date (DateParser.iso y m d) = Ret t <->
   t = mkdatetime a b c 0 0 0 /\
   (1 <= a <= 9999)%Z /\ (1 <= b <= 12)%Z /\ (1 <= c <= days_in_month a b)%Z).
Proof.
  intros Hy Hm Hd Ha Hb Hc.
  destruct (digits2_inv m Hm) as (c1 & c2 & -> & Hc1 & Hc2).
  destruct (digits2_inv d Hd) as (e1 & e2 & -> & He1 & He2).
  pose proof (month_day_checked c1 c2 e1 e2 Hc1 Hc2 He1 He2) as Hchk.
  unfold month_day_check in Hchk. rewrite Hb, Hc in Hchk.
  unfold strptime_date, DateParser.iso.
  rewrite (match_fmt_year y _ Hy).
  pose proof (days_in_month_le_31 a b) as H31.
  destruct (match_fmt [dir_m; Sep "-"; dir_d] (two c1 c2 ++ "-" ++ two e1 e2))
    as [[gs r]|].
  - destruct gs as [|gm [|gd [|? ?]]].
    + apply negb_true_iff in Hchk. split; [discriminate|].
      intros (_ & _ & H1 & H2).
      assert (((1 <=? b) && (b <=? 12) && (1 <=? c) && (c <=? 31))%Z = true)
        by (repeat (apply andb_true_iff; split); apply Z.leb_le; lia).
      congruence.
    + apply negb_true_iff in Hchk. split; [discriminate|].
      intros (_ & _ & H1 & H2).
      assert (((1 <=? b) && (b <=? 12) && (1 <=? c) && (c <=? 31))%Z = true)
        by (repeat (apply andb_true_iff; split); apply Z.leb_le; lia).
      congruence.
    + destruct r as [|r1 r'].
      * apply andb_true_iff in Hchk. destruct Hchk as [Hchk Egd].
        apply andb_true_iff in Hchk. destruct Hchk as [Hok Egm].
        apply String.eqb_eq in Egm, Egd. subst gm gd.
        cbn [negb String.eqb]. rewrite Ha, Hb, Hc. cbn [bind].
        split.
        -- intros H. apply make_datetime_inv in H. tauto.
        -- intros (-> & H1 & H2 & H3). apply make_datetime_ok; assumption.
      * apply negb_true_iff in Hchk. split; [discriminate|].
        intros (_ & _ & H1 & H2).
        assert (((1 <=? b) && (b <=? 12) && (1 <=? c) && (c <=? 31))%Z = true)
          by (repeat (apply andb_true_iff; split); apply Z.leb_le; lia).
        congruence.
    + apply negb_true_iff in Hchk. split; [discriminate|].
      intros (_ & _ & H1 & H2).
      assert (((1 <=? b) && (b <=? 12) && (1 <=? c) && (c <=? 31))%Z = true)
        by (repeat (apply andb_true_iff; split); apply Z.leb_le; lia).
      congruence.
  - apply negb_true_iff in Hchk. split; [discriminate|].
    intros (_ & _ & H1 & H2).
    assert (((1 <=? b) && (b <=? 12) && (1 <=? c) && (c <=? 31))%Z = true)
      by (repeat (apply andb_true_iff; split); apply Z.leb_le; lia).
    congruence.
Qed.

(** A date written with a four-digit year and two-digit month and day is
    accepted by [strptime(..., '%Y-%m-%d')] exactly when it names a day of
    the calendar in the years 1 to 9999, leap years included; the value is
    then that day at midnight. *)
Theorem strptime_date_iso (y m d : string) (a b c : Z) (t : datetime) :
  digits 4 y = true -> digits 2 m = true -> digits 2 d = true ->
  py_int y = Ret a -> py_int m = Ret b -> py_int d = Ret c ->
  (strptime_date (DateParser.iso y m d) = Ret t <->
   t = mkdatetime a b c 0 0 0 /\
   (1 <= a <= 9999)%Z /\ (1 <= b <= 12)%Z /\ (1 <= c <= days_in_month a b)%Z).
Proof. apply strptime_date_calendar. Qed.

End IsoDates.

Lemma strptime_date_iso_witness :
  Strptime.strptime_date "2024-02-29" = Ret (Strptime.mkdatetime 2024 2 29 0 0 0) /\
  ~ (exists t, Strptime.strptime_date "2026-02-29" = Ret t).
Proof.
  split.
  - apply (strptime_date_iso "2024" "02" "29" 2024 2 29); try reflexivity.
    repeat split; vm_compute; discriminate.
  - intros [t H].
    apply (strptime_date_iso "2026" "02" "29" 2026 2 29) in H; try reflexivity.
    destruct H as (_ & _ & _ & _ & H). vm_compute in H. apply H. reflexivity.
Defined.

(** ** The thumbnail fallback chain *)

Section ThumbnailFacts.

Import LeafletParser.

Lemma lstrip_nil_spaces s : lstrip s = "" -> spaces s = true.
Proof.
  intros H. destruct (lstrip_decompose s) as (ws & Hws & E).
  rewrite H, sapp_nil_r in E. subst. assumption.
Qed.

Lemma lstrip_head s c t : lstrip s = String c t -> isspace c = false.
Proof.
  induction s as [|x s IH]; simpl; [discriminate|].
  destruct (isspace x) eqn:E; [exact IH|].
  intros H. injection H as <- _. assumption.
Qed.

Lemma until_space_no_space s : all (fun c => negb (isspace c)) (until_space s) = true.
Proof.
  induction s as [|c s IH]; simpl; [reflexivity|].
  destruct (isspace c) eqn:E; simpl; [reflexivity|]. rewrite E, IH. reflexivity.
Qed.

Lemma first_token_ret s u :
  first_token s = Ret u ->
  u <> "" /\ all (fun c => negb (isspace c)) u = true.
Proof.
  unfold first_token. destruct (lstrip s) as [|c t] eqn:E; [discriminate|].
  intros H. injection H as <-. split.
  - simpl. rewrite (lstrip_head _ _ _ E). discriminate.
  - apply (until_space_no_space (String c t)).
Qed.

Lemma first_token_raise s e :
  first_token s = Raise e <->
  spaces s = true /\ e = IndexError "list index out of range".
Proof.
  unfold first_token. split.
  - destruct (lstrip s) as [|c t] eqn:E; [|discriminate].
    intros H. injection H as <-. split; [|reflexivity].
    apply lstrip_nil_spaces. assumption.
  - intros [H ->]. rewrite (lstrip_spaces _ H). reflexivity.
Qed.

Lemma truthy_nonempty s : truthy s = true -> s <> "".
Proof. destruct s; [discriminate|discriminate]. Qed.

Lemma truthy_opt_some v :
  truthy_opt v = true -> exists u, v = Some u /\ u <> "".
Proof.
  destruct v as [u|]; [|discriminate]. simpl. intros H.
  exists u. split; [reflexivity|]. apply truthy_nonempty. assumption.
Qed.

Lemma src_or_data_src_nonempty img u :
  src_or_data_src img = Some u -> u <> "".
Proof.
  unfold src_or_data_src, py_or.
  destruct (truthy_opt (src img)) eqn:E1.
  - rewrite E1. intros H. rewrite H in E1. apply truthy_nonempty. exact E1.
  - destruct (truthy_opt (data_src img)) eqn:E2; [|discriminate].
    intros H. rewrite H in E2. apply truthy_nonempty. exact E2.
Qed.

Variable urljoin : string -> string -> res string.
Variable self : LeafletParser.t.

Lemma extract_thumbnail_result (element : pyobj) (u : string) :
  _extract_thumbnail element = Ret (Some u) ->
  u <> "" /\
  forall tag img,
    element = Element tag -> picture_img tag = Some img ->
    truthy_opt (src img) = false -> truthy_opt (data_src img) = false ->
    truthy_opt (srcset img) = true ->
    all (fun c => negb (isspace c)) u = true.
Proof.
  destruct element as [tag|ty]; [|discriminate].
  intros H. split.
  - unfold _extract_thumbnail in H. simpl in H.
    assert (Hlate :
      (match (match wrapper_img tag with
              | Some i => src_or_data_src i | None => None end) with
       | Some thumbnail => Ret (Some thumbnail)
       | None => img_elem <- Ret (figure_img tag) ;;
                 match img_elem with
                 | Some i => Ret (src_or_data_src i)
                 | None => Ret None
                 end
       end) = Ret (Some u) -> u <> "").
    { destruct (wrapper_img tag) as [i|].
      - destruct (src_or_data_src i) as [v|] eqn:E.
        + intros H'. injection H' as <-. eapply src_or_data_src_nonempty; eassumption.
        + simpl. destruct (figure_img tag) as [j|]; [|discriminate].
          intros H'. injection H' as H'.
          eapply src_or_data_src_nonempty; eassumption.
      - simpl. destruct (figure_img tag) as [j|]; [|discriminate].
        intros H'. injection H' as H'.
        eapply src_or_data_src_nonempty; eassumption. }
    destruct (picture_img tag) as [img|]; [|exact (Hlate H)].
    destruct (truthy_opt (src img)) eqn:E1.
    { destruct (truthy_opt_some _ E1) as (v & Ev & Hv). rewrite Ev in H.
      simpl in H. injection H as <-. assumption. }
    destruct (truthy_opt (data_src img)) eqn:E2.
    { destruct (truthy_opt_some _ E2) as (v & Ev & Hv). rewrite Ev in H.
      simpl in H. injection H as <-. assumption. }
    destruct (srcset img) as [set|]; [|exact (Hlate H)].
    destruct (truthy set); [|exact (Hlate H)].
    destruct (first_token (before "," set)) as [v|e] eqn:E5; [|discriminate].
    simpl in H. injection H as <-. apply (first_token_ret _ _ E5).
  - intros tag' img Et Ep E1 E2 E3. injection Et as <-.
    unfold _extract_thumbnail in H. simpl in H.
    rewrite Ep, E1, E2 in H.
    destruct (srcset img) as [set|]; [|discriminate].
    simpl in E3. rewrite E3 in H.
    destruct (first_token (before "," set)) as [v|e] eqn:E5; [|discriminate].
    simpl in H. injection H as <-. apply (first_token_ret _ _ E5).
Qed.

(** [_extract_thumbnail] never hands back an empty text: its result is
    [None] or a reference of at least one character; a reference taken
    from [srcset] holds no white space. *)
Theorem thumbnail_never_empty (element : pyobj) (u : string) :
  _extract_thumbnail element = Ret (Some u) ->
  u <> "" /\
  forall tag img,
    element = Element tag -> picture_img tag = Some img ->
    truthy_opt (src img) = false -> truthy_opt (data_src img) = false ->
    truthy_opt (srcset img) = true ->
    all (fun c => negb (isspace c)) u = true.
Proof. apply extract_thumbnail_result. Qed.

(** On a tag, [_extract_thumbnail] raises in one situation only: the image
    under [picture] has neither [src] nor [data-src], and its non-empty
    [srcset] has nothing but white space before the first comma.  The
    exception is the [IndexError] of the empty [split()], and the images
    of the two later strategies are not consulted. *)
Theorem thumbnail_raises_iff (tag : Tag) (e : exn) :
  _extract_thumbnail (Element tag) = Raise e <->
  exists img set,
    picture_img tag = Some img /\
    truthy_opt (src img) = false /\ truthy_opt (data_src img) = false /\
    srcset img = Some set /\ set <> "" /\
    spaces (before "," set) = true /\
    e = IndexError "list index out of range".
Proof.
  unfold _extract_thumbnail. simpl.
  assert (Hlate : forall e',
    (match (match wrapper_img tag with
            | Some i => src_or_data_src i | None => None end) with
     | Some thumbnail => Ret (Some thumbnail)
     | None => img_elem <- Ret (figure_img tag) ;;
               match img_elem with
               | Some i => Ret (src_or_data_src i)
               | None => Ret None
               end
     end) <> Raise e').
  { intros e'.
    destruct (match wrapper_img tag with
              | Some i => src_or_data_src i | None => None end); [discriminate|].
    simpl. destruct (figure_img tag); discriminate. }
  split.
  - destruct (picture_img tag) as [img|] eqn:Ep.
    + destruct (truthy_opt (src img)) eqn:E1.
      { destruct (truthy_opt_some _ E1) as (v & Ev & _). rewrite Ev. discriminate. }
      destruct (truthy_opt (data_src img)) eqn:E2.
      { destruct (truthy_opt_some _ E2) as (v & Ev & _). rewrite Ev. discriminate. }
      destruct (srcset img) as [set|] eqn:E3.
      * destruct (truthy set) eqn:E4.
        -- destruct (first_token (before "," set)) as [v|e'] eqn:E5;
             [simpl; discriminate|].
           simpl. intros H. injection H as <-.
           apply first_token_raise in E5. destruct E5 as [Hs ->].
           exists img, set. repeat split; try assumption; try reflexivity.
           apply truthy_nonempty; assumption.
        -- simpl. intros H. exfalso. exact (Hlate e H).
      * simpl. intros H. exfalso. exact (Hlate e H).
    + simpl. intros H. exfalso. exact (Hlate e H).
  - intros (img & set & Ep & E1 & E2 & E3 & Hne & Hs & ->).
    rewrite Ep, E1, E2, E3.
    assert (E4 : truthy set = true) by (destruct set; [congruence|reflexivity]).
    rewrite E4.
    assert (E5 : first_token (before "," set)
                 = Raise (IndexError "list index out of range"))
      by (apply first_token_raise; split; [assumption|reflexivity]).
    rewrite E5. reflexivity.
Qed.

End ThumbnailFacts.

Lemma thumbnail_never_empty_witness :
  LeafletParser._extract_thumbnail
    (Element (mkTag None (Some (mkImg (Some "") None (Some " a.png 1x, b.png 2x")))
                    None None None None None))
    = Ret (Some "a.png") /\
  "a.png" <> "".
Proof.
  assert (H : LeafletParser._extract_thumbnail
    (Element (mkTag None (Some (mkImg (Some "") None (Some " a.png 1x, b.png 2x")))
                    None None None None None))
    = Ret (Some "a.png")) by reflexivity.
  split; [exact H|].
  exact (proj1 (thumbnail_never_empty _ _ H)).
Defined.

(** ** The assembler, end to end *)

Section AssemblerOutcome.

Import Strptime Model LeafletParser.

Variable urljoin : string -> string -> res string.
Variable self : LeafletParser.t.

Lemma parse_body_validate element shop index now l tag raw date_string :
  element = Element tag ->
  h2 tag = Some (title l) ->
  _extract_thumbnail element = Ret (Some raw) ->
  (if negb (startswith "http" raw) then urljoin (base_url self) raw else Ret raw)
    = Ret (thumbnail l) ->
  (if negb (truthy_opt shop) then shop_name_span tag else shop) = Some (shop_name l) ->
  (if negb (truthy_opt (hidden_sm tag)) then visible_sm tag else hidden_sm tag)
    = Some date_string ->
  DateParser.parse_date_range date_string None = Ret (valid_from l, valid_to l) ->
  parsed_time l = now ->
  parse_body urljoin self element shop index now = (_ <- validate l ;; Ret (Some l)).
Proof.
  intros -> Hh Ht Hu Hs Hd Hp Hn.
  assert (Hraw : truthy raw = true).
  { pose proof (extract_thumbnail_result (Element tag) raw Ht) as [Hne _].
    apply truthy_true. assumption. }
  unfold parse_body. simpl select_one. cbn [bind]. rewrite Hh, Ht. cbn [bind].
  simpl truthy_opt. rewrite Hraw. cbn [negb]. rewrite Hu. cbn [bind].
  destruct (negb (truthy_opt shop)); cbn [bind]; rewrite Hs;
    (destruct (negb (truthy_opt (hidden_sm tag))); cbn [bind]; rewrite Hd, Hp;
     cbn [bind fst snd]; subst now;
     replace (mkLeaflet (title l) (thumbnail l) (shop_name l) (valid_from l)
                (valid_to l) (parsed_time l)) with l by (destruct l; reflexivity);
     reflexivity).
Qed.

Lemma parse_body_some element shop index now l tag raw date_string :
  element = Element tag ->
  h2 tag = Some (title l) ->
  _extract_thumbnail element = Ret (Some raw) ->
  (if negb (startswith "http" raw) then urljoin (base_url self) raw else Ret raw)
    = Ret (thumbnail l) ->
  (if negb (truthy_opt shop) then shop_name_span tag else shop) = Some (shop_name l) ->
  (if negb (truthy_opt (hidden_sm tag)) then visible_sm tag else hidden_sm tag)
    = Some date_string ->
  DateParser.parse_date_range date_string None = Ret (valid_from l, valid_to l) ->
  parsed_time l = now ->
  validate l = Ret true ->
  parse_body urljoin self element shop index now = Ret (Some l).
Proof.
  intros He Hh Ht Hu Hs Hd Hp Hn Hv.
  rewrite (parse_body_validate element shop index now l tag raw date_string)
    by assumption.
  rewrite Hv. reflexivity.
Qed.

Lemma iso_sentinel y m d :
  digits 4 y = true -> digits 2 m = true -> digits 2 d = true ->
  DateParser.iso y m d = OPEN_ENDED_DATE ->
  y = "9999" /\ m = "12" /\ d = "31".
Proof.
  destruct y as [|y1 [|y2 [|y3 [|y4 [|? ?]]]]]; try discriminate.
  destruct m as [|m1 [|m2 [|? ?]]]; try discriminate.
  destruct d as [|e1 [|e2 [|? ?]]]; try discriminate.
  intros _ _ _ H. unfold DateParser.iso, OPEN_ENDED_DATE in H. simpl in H.
  injection H as -> -> -> -> -> -> -> ->. auto.
Qed.

Lemma sentinel_latest a b c :
  (1 <= a <= 9999)%Z -> (1 <= b <= 12)%Z -> (1 <= c <= 31)%Z ->
  datetime_le (mkdatetime a b c 0 0 0) (mkdatetime 9999 12 31 0 0 0) = true.
Proof.
  intros Ha Hb Hc. unfold datetime_le, datetime_gt, key. simpl.
  apply negb_true_iff.
  destruct (9999 <? a)%Z eqn:E1; [apply Z.ltb_lt in E1; lia|].
  destruct (a =? 9999)%Z; simpl; [|reflexivity].
  destruct (12 <? b)%Z eqn:E2; [apply Z.ltb_lt in E2; lia|].
  destruct (b =? 12)%Z; simpl; [|reflexivity].
  destruct (31 <? c)%Z eqn:E3; [apply Z.ltb_lt in E3; lia|].
  destruct (c =? 31)%Z; reflexivity.
Qed.

(** A fragment with a non-blank title, a thumbnail that begins with
    [http], a non-blank shop name and a label that holds a full date range
    of calendar days yields a record exactly when the range is not
    reversed: the record carries the title, thumbnail and shop name as
    found and the two dates in ISO form; a reversed range yields [None]. *)
Theorem parse_full_range_label (tag : Tag) (shop : option string) (index : nat)
  (now ttl u sh pre d1 m1 y1 w1 w2 d2 m2 y2 post : string)
  (a1 b1 c1 a2 b2 c2 : Z) (t : datetime) :
  h2 tag = Some ttl -> strip ttl <> "" ->
  _extract_thumbnail (Element tag) = Ret (Some u) -> startswith "http" u = true ->
  (if truthy_opt shop then shop else shop_name_span tag) = Some sh -> strip sh <> "" ->
  hidden_sm tag = Some (pre ++ full_range d1 m1 y1 w1 w2 d2 m2 y2 ++ post)%string ->
  all nondigit pre = true ->
  digits 2 d1 = true -> digits 2 m1 = true -> digits 4 y1 = true ->
  spaces w1 = true -> spaces w2 = true ->
  digits 2 d2 = true -> digits 2 m2 = true -> digits 4 y2 = true ->
  py_int y1 = Ret a1 -> py_int m1 = Ret b1 -> py_int d1 = Ret c1 ->
  py_int y2 = Ret a2 -> py_int m2 = Ret b2 -> py_int d2 = Ret c2 ->
  (1 <= a1 <= 9999)%Z -> (1 <= b1 <= 12)%Z -> (1 <= c1 <= days_in_month a1 b1)%Z ->
  (1 <= a2 <= 9999)%Z -> (1 <= b2 <= 12)%Z -> (1 <= c2 <= days_in_month a2 b2)%Z ->
  strptime_datetime now = Ret t ->
  parse urljoin self (Element tag) shop index now =
  Ret (if datetime_le (mkdatetime a1 b1 c1 0 0 0) (mkdatetime a2 b2 c2 0 0 0)
       then Some (mkLeaflet ttl u sh (DateParser.iso y1 m1 d1)
                    (DateParser.iso y2 m2 d2) now)
       else None).
Proof.
  intros Hh Httl Hthumb Hu Hshop Hsh Hlabel Hpre Hd1 Hm1 Hy1 Hw1 Hw2 Hd2 Hm2 Hy2
    Ea1 Eb1 Ec1 Ea2 Eb2 Ec2 Ra1 Rb1 Rc1 Ra2 Rb2 Rc2 Hnow.
  set (l := mkLeaflet ttl u sh (DateParser.iso y1 m1 d1) (DateParser.iso y2 m2 d2) now).
  assert (S1 : strptime_date (valid_from l) = Ret (mkdatetime a1 b1 c1 0 0 0)).
  { apply (strptime_date_calendar y1 m1 d1 a1 b1 c1); auto. }
  assert (S2 : strptime_date (valid_to l) = Ret (mkdatetime a2 b2 c2 0 0 0)).
  { apply (strptime_date_calendar y2 m2 d2 a2 b2 c2); auto. }
  assert (Hparse : DateParser.parse_date_range
            (pre ++ full_range d1 m1 y1 w1 w2 d2 m2 y2 ++ post) None
          = Ret (valid_from l, valid_to l)).
  { apply parse_full_range; assumption. }
  assert (Hlab : truthy_opt (hidden_sm tag) = true).
  { rewrite Hlabel. simpl. apply truthy_true.
    destruct (full_range_head d1 m1 y1 w1 w2 d2 m2 y2 Hd1) as (x & m & E & _).
    rewrite E. destruct pre; discriminate. }
  destruct (datetime_le (mkdatetime a1 b1 c1 0 0 0) (mkdatetime a2 b2 c2 0 0 0)) eqn:Ele.
  - assert (Hv : validate l = Ret true).
    { apply (validate_ok l (mkdatetime a1 b1 c1 0 0 0) (mkdatetime a2 b2 c2 0 0 0) t);
        try assumption. intros _. exact Ele. }
    unfold parse.
    rewrite (parse_body_some (Element tag) shop index now l tag u
               (pre ++ full_range d1 m1 y1 w1 w2 d2 m2 y2 ++ post)); try reflexivity;
      try assumption.
    + simpl. rewrite Hu. reflexivity.
    + destruct (truthy_opt shop); exact Hshop.
    + rewrite Hlab. exact Hlabel.
  - unfold parse.
    rewrite (parse_body_validate (Element tag) shop index now l tag u
               (pre ++ full_range d1 m1 y1 w1 w2 d2 m2 y2 ++ post)); try reflexivity;
      try assumption.
    2:{ simpl. rewrite Hu. reflexivity. }
    2:{ destruct (truthy_opt shop); exact Hshop. }
    2:{ rewrite Hlab. exact Hlabel. }
    destruct (validate l) as [b|e] eqn:Ev.
    + exfalso. apply validate_inv in Ev.
      destruct Ev as (_ & _ & _ & _ & t1 & t2 & _ & T1 & T2 & _ & Ho).
      rewrite S1 in T1. rewrite S2 in T2. injection T1 as <-. injection T2 as <-.
      destruct (string_dec (valid_to l) OPEN_ENDED_DATE) as [E|E].
      * simpl in E.
        destruct (iso_sentinel _ _ _ Hy2 Hm2 Hd2 E) as (-> & -> & ->).
        vm_compute in Ea2, Eb2, Ec2.
        injection Ea2 as <-. injection Eb2 as <-. injection Ec2 as <-.
        pose proof (days_in_month_le_31 a1 b1).
        rewrite sentinel_latest in Ele by lia. discriminate.
      * rewrite (Ho E) in Ele. discriminate.
    + destruct (validate_raises _ _ Ev) as (msg & ->). reflexivity.
Qed.

(** [parse] returns a record exactly when the fragment has a title, a
    thumbnail, a shop name and a date label, the label is understood and
    the assembled record passes [validate]; the record's fields are then
    the title text, the thumbnail (resolved against the base URL unless it
    begins with [http]), the override or else the shop label, the two
    parsed dates and the clock reading. *)
Theorem parse_some_iff (tag : Tag) (shop : option string) (index : nat)
  (now : string) (l : Leaflet) :
  parse urljoin self (Element tag) shop index now = Ret (Some l) <->
  exists raw date_string,
    h2 tag = Some (title l) /\
    _extract_thumbnail (Element tag) = Ret (Some raw) /\
    (if startswith "http" raw then Ret raw else urljoin (base_url self) raw)
      = Ret (thumbnail l) /\
    (if truthy_opt shop then shop else shop_name_span tag) = Some (shop_name l) /\
    (if truthy_opt (hidden_sm tag) then hidden_sm tag else visible_sm tag)
      = Some date_string /\
    DateParser.parse_date_range date_string None = Ret (valid_from l, valid_to l) /\
    parsed_time l = now /\
    validate l = Ret true.
Proof.
  split.
  - intros H. apply parse_some_body in H.
    apply (parse_body_some_inv urljoin self (Element tag) shop index now) in H.
    destruct H as (tag' & raw & ds & Et & Hh & Ht & Hu & Hs & Hd & Hp & Hn & Hv).
    injection Et as <-. exists raw, ds.
    repeat split; try assumption.
    + destruct (startswith "http" raw); exact Hu.
    + destruct (truthy_opt shop); exact Hs.
    + destruct (truthy_opt (hidden_sm tag)); exact Hd.
  - intros (raw & ds & Hh & Ht & Hu & Hs & Hd & Hp & Hn & Hv).
    unfold parse.
    rewrite (parse_body_some (Element tag) shop index now l tag raw ds);
      try reflexivity; try assumption.
    + destruct (startswith "http" raw); exact Hu.
    + destruct (truthy_opt shop); exact Hs.
    + destruct (truthy_opt (hidden_sm tag)); exact Hd.
Qed.

End AssemblerOutcome.

Lemma parse_full_range_label_witness :
  LeafletParser.parse urljoin_sample parser_sample
    (Element (mkTag (Some "Angebote")
                    (Some (mkImg (Some "https://cdn.example/a.jpg") None None))
                    None None (Some "Lidl") (Some "Mo. 29.02.2024 - 02.03.2024") None))
    None 1 now_sample
  = Ret (Some (mkLeaflet "Angebote" "https://cdn.example/a.jpg" "Lidl"
                 "2024-02-29" "2024-03-02" now_sample)) /\
  LeafletParser.parse urljoin_sample parser_sample
    (Element (mkTag (Some "Angebote")
                    (Some (mkImg (Some "https://cdn.example/a.jpg") None None))
                    None None (Some "Lidl") (Some "07.02.2026 - 02.02.2026") None))
    None 1 now_sample
  = Ret None.
Proof.
  split.
  - apply (parse_full_range_label urljoin_sample parser_sample _ None 1 now_sample
             "Angebote" "https://cdn.example/a.jpg" "Lidl"
             "Mo. " "29" "02" "2024" " " " " "02" "03" "2024" ""
             2024 2 29 2024 3 2 (Strptime.mkdatetime 2026 2 3 10 15 0));
      try reflexivity; try (vm_compute; discriminate);
      try (split; vm_compute; discriminate).
  - apply (parse_full_range_label urljoin_sample parser_sample _ None 1 now_sample
             "Angebote" "https://cdn.example/a.jpg" "Lidl"
             "" "07" "02" "2026" " " " " "02" "02" "2026" ""
             2026 2 7 2026 2 2 (Strptime.mkdatetime 2026 2 3 10 15 0));
      try reflexivity; try (vm_compute; discriminate);
      try (split; vm_compute; discriminate).
Defined.

(** ** The page pipeline and the shop visit *)

Section PageFacts.

Variable urljoin : string -> string -> res string.
Variable debug : bool.

Lemma parse_collected clock shop tag idx l :
  LeafletParser.parse urljoin (LeafletScraper.leaflet_parser debug)
    (Element tag) shop idx clock = Ret (Some l) ->
  collected shop [tag] l.
Proof.
  intros H. apply parse_some_body in H.
  apply (parse_body_some_inv urljoin _ (Element tag) shop idx clock) in H.
  destruct H as (tag' & raw & ds & Et & Hh & _ & _ & Hs & _ & _ & _ & Hv).
  injection Et as <-. split; [exact Hv|]. split.
  - intros Ht. rewrite Ht in Hs. simpl in Hs. congruence.
  - exists tag. split; [left; reflexivity|exact Hh].
Qed.

Lemma collected_incl shop es es' l :
  incl es es' -> collected shop es l -> collected shop es' l.
Proof.
  intros Hi (Hv & Hs & tag & Hin & Hh). split; [exact Hv|]. split; [exact Hs|].
  exists tag. split; [apply Hi; exact Hin|exact Hh].
Qed.

Lemma extract_loop_collected clock shop elements :
  forall idx acc out,
  LeafletScraper.extract_loop urljoin debug clock shop elements idx acc = Ret out ->
  exists news,
    out = acc ++ news /\
    (List.length news <= List.length elements)%nat /\
    Forall (collected shop elements) news.
Proof.
  induction elements as [|element rest IH]; intros idx acc out H.
  - simpl in H. injection H as <-. exists []. rewrite app_nil_r.
    split; [reflexivity|]. split; [apply Nat.le_refl|constructor].
  - simpl in H. apply bind_ret_inv in H. destruct H as (r & Hr & H).
    apply IH in H. destruct H as (news & -> & Hlen & Hall).
    assert (Hrest : Forall (collected shop (element :: rest)) news).
    { eapply Forall_impl; [|exact Hall]. intros l.
      apply collected_incl. intros x Hx. right. exact Hx. }
    destruct r as [l|].
    + exists (l :: news). rewrite <- app_assoc. split; [reflexivity|].
      split; [simpl; lia|]. constructor; [|exact Hrest].
      apply (collected_incl shop [element]); [|eapply parse_collected; exact Hr].
      intros x [<-|[]]. left. reflexivity.
    + exists news. split; [reflexivity|]. split; [simpl; lia|exact Hrest].
Qed.

Lemma page_collected clock page shop out :
  LeafletScraper.extract_leaflets_from_page urljoin debug clock page shop = Ret out ->
  (List.length out <= List.length (fragments page))%nat /\
  Forall (collected shop (fragments page)) out.
Proof.
  unfold LeafletScraper.extract_leaflets_from_page, fragments.
  destruct (letaky_grid page) as [elements|].
  2:{ intros H. injection H as <-. split; [apply Nat.le_refl|constructor]. }
  destruct elements as [|e rest].
  { intros H. injection H as <-. split; [apply Nat.le_refl|constructor]. }
  intros H. apply extract_loop_collected in H.
  destruct H as (news & -> & Hlen & Hall). simpl app. auto.
Qed.

(** Whatever [extract_leaflets_from_page] returns holds at most one
    record per item fragment of the page, and every record has passed
    [validate], carries the shop-name override when one was given, and has
    the heading of one of the fragments for its title. *)
Theorem page_records_collected (clock : nat -> string) (page : Page)
  (shop : option string) (out : list Leaflet) :
  LeafletScraper.extract_leaflets_from_page urljoin debug clock page shop = Ret out ->
  (List.length out <= List.length (fragments page))%nat /\
  Forall (collected shop (fragments page)) out.
Proof. apply page_collected. Qed.

Hypothesis urljoin_only : forall b u, only_Exception (urljoin b u).

Lemma page_returns clock page shop :
  exists out,
    LeafletScraper.extract_leaflets_from_page urljoin debug clock page shop = Ret out.
Proof.
  unfold LeafletScraper.extract_leaflets_from_page.
  destruct (letaky_grid page) as [elements|]; [|eauto].
  destruct elements as [|e rest]; [eauto|].
  destruct (extract_loop_spec urljoin urljoin_only debug clock shop (e :: rest) 1 [])
    as (rs & _ & H).
  eauto.
Qed.

Variable fetch_page : nat -> string -> res string.
Variable page_of : string -> Page.
Variable clock : nat -> nat -> string.

Lemma scrape_shop_fetched visit shop html :
  fetch_page visit (url shop) = Ret html ->
  exists out,
    LeafletScraper.scrape_shop urljoin debug fetch_page page_of clock visit shop
      = Ret out /\
    LeafletScraper.extract_leaflets_from_page urljoin debug (clock visit)
      (page_of html) (Some (name shop)) = Ret out.
Proof.
  intros Hf. destruct (page_returns (clock visit) (page_of html) (Some (name shop)))
    as (out & Hout).
  exists out. split; [|exact Hout].
  unfold LeafletScraper.scrape_shop. rewrite Hf. cbn [bind]. rewrite Hout. reflexivity.
Qed.

Lemma scrape_shop_failed visit shop e :
  fetch_page visit (url shop) = Raise e ->
  LeafletScraper.scrape_shop urljoin debug fetch_page page_of clock visit shop
    = if is_Exception e then Ret [] else Raise e.
Proof. intros Hf. unfold LeafletScraper.scrape_shop. rewrite Hf. reflexivity. Qed.

(** [scrape_shop] turns every failure of the request that is an
    [Exception] into an empty list and lets any other exception through;
    when the page was fetched it returns, without raising, at most one
    record per item fragment, each validated and, when the shop has a
    non-empty name, carrying that name. *)
Theorem scrape_shop_outcome visit shop :
  (forall e,
      fetch_page visit (url shop) = Raise e ->
      LeafletScraper.scrape_shop urljoin debug fetch_page page_of clock visit shop
        = if is_Exception e then Ret [] else Raise e) /\
  (forall html,
      fetch_page visit (url shop) = Ret html ->
      exists out,
        LeafletScraper.scrape_shop urljoin debug fetch_page page_of clock visit shop
          = Ret out /\
        (List.length out <= List.length (fragments (page_of html)))%nat /\
        Forall (fun l => Model.validate l = Ret true /\
                         (name shop <> "" -> shop_name l = name shop)) out).
Proof.
  split; [apply scrape_shop_failed|].
  intros html Hf. destruct (scrape_shop_fetched visit shop html Hf) as (out & Hs & Hp).
  exists out. split; [exact Hs|].
  apply page_collected in Hp. destruct Hp as [Hlen Hall].
  split; [exact Hlen|].
  eapply Forall_impl; [|exact Hall].
  intros l (Hv & Hn & _). split; [exact Hv|].
  intros Hne. simpl in Hn. apply truthy_true in Hne. specialize (Hn Hne).
  congruence.
Qed.

End PageFacts.

Lemma page_records_collected_witness :
  exists out,
    LeafletScraper.extract_leaflets_from_page urljoin_sample false clock_sample
      page_sample (Some "Kaufland") = Ret out /\
    (List.length out <= List.length (fragments page_sample))%nat /\
    Forall (collected (Some "Kaufland") (fragments page_sample)) out.
Proof.
  eexists. split; [vm_compute; reflexivity|].
  apply (page_records_collected urljoin_sample false clock_sample page_sample
           (Some "Kaufland")).
  vm_compute. reflexivity.
Defined.

Lemma scrape_shop_outcome_witness :
  LeafletScraper.scrape_shop urljoin_sample false fetch_sample page_of_sample
    visit_clock_sample 2 (mkShop "Kaufland" "https://www.prospektmaschine.de/kaufland/")
  = Ret [] /\
  exists out,
    LeafletScraper.scrape_shop urljoin_sample false fetch_sample page_of_sample
      visit_clock_sample 1 (mkShop "Lidl" "https://www.prospektmaschine.de/lidl/")
    = Ret out /\
    (List.length out <= 3)%nat /\
    Forall (fun l => Model.validate l = Ret true /\
                     ("Lidl" <> "" -> shop_name l = "Lidl")) out.
Proof.
  split.
  - apply (proj1 (scrape_shop_outcome urljoin_sample false urljoin_sample_only fetch_sample
                    page_of_sample
                    visit_clock_sample 2
                    (mkShop "Kaufland" "https://www.prospektmaschine.de/kaufland/"))
             (FetchException "Failed to fetch page: 404 Client Error")).
    reflexivity.
  - apply (proj2 (scrape_shop_outcome urljoin_sample false urljoin_sample_only fetch_sample
                    page_of_sample
                    visit_clock_sample 1
                    (mkShop "Lidl" "https://www.prospektmaschine.de/lidl/")) "lidl").
    reflexivity.
Defined.

(** ** The visit of all shops *)

Section ScrapingFacts.

Variable urljoin : string -> string -> res string.
Variable debug : bool.
Variable fetch_page : nat -> string -> res string.
Variable page_of : string -> Page.
Variable menu_of : string -> Menu.
Variable clock : nat -> nat -> string.

Import LeafletScraper.

Abbreviation visit_shop :=
  (LeafletScraper.scrape_shop urljoin debug fetch_page page_of clock).
Abbreviation loop_from :=
  (LeafletScraper.scrape_loop urljoin debug fetch_page page_of clock).
Abbreviation visits_from := (visits urljoin debug fetch_page page_of clock).
Abbreviation shops_of :=
  (ShopExtractor.extract_shops urljoin LeafletScraper.shop_extractor).
Abbreviation totals :=
  (LeafletScraper.scrape_all_shops_totals urljoin debug fetch_page page_of menu_of clock).
Abbreviation scrape_all :=
  (LeafletScraper.scrape_all_shops urljoin debug fetch_page page_of menu_of clock).

Lemma count_open_ended_app a b :
  count_open_ended (a ++ b) = (count_open_ended a + count_open_ended b)%nat.
Proof. unfold count_open_ended. rewrite filter_app, length_app. reflexivity. Qed.

Lemma count_open_ended_le a : (count_open_ended a <= List.length a)%nat.
Proof.
  unfold count_open_ended. induction a as [|l a IH]; simpl; [lia|].
  destruct (Model.is_open_ended l); simpl; lia.
Qed.

Lemma visits_cons idx shop rest :
  visits_from idx (shop :: rest) = visit_shop idx shop :: visits_from (S idx) rest.
Proof. reflexivity. Qed.

Lemma scrape_loop_spec shops :
  forall idx st outs,
  visits_from idx shops = map Ret outs ->
  loop_from shops idx st =
  Ret (mkTotals (all_leaflets st ++ List.concat outs)
                (successful_shops st + with_leaflets outs)
                (failed_shops st + without_leaflets outs)
                (open_ended_total st + count_open_ended (List.concat outs))).
Proof.
  induction shops as [|shop rest IH]; intros idx st outs H.
  - destruct outs; [|discriminate]. simpl.
    unfold with_leaflets, without_leaflets, count_open_ended. simpl.
    rewrite app_nil_r, !Nat.add_0_r. destruct st; reflexivity.
  - rewrite visits_cons in H. destruct outs as [|o outs]; [discriminate|].
    simpl in H. injection H as Ho Hrest.
    cbn [scrape_loop]. rewrite Ho. cbn [bind].
    rewrite (IH (S idx) _ outs Hrest).
    f_equal. destruct o as [|l o];
      cbn [all_leaflets successful_shops failed_shops open_ended_total]; f_equal.
    all: try (unfold with_leaflets, without_leaflets; simpl; lia).
    all: change (List.concat ((l :: o) :: outs)) with ((l :: o) ++ List.concat outs).
    all: try (rewrite app_assoc; reflexivity).
    all: rewrite count_open_ended_app; lia.
Qed.

Lemma scrape_loop_raise shops :
  forall idx st outs e rest,
  visits_from idx shops = map Ret outs ++ Raise e :: rest ->
  loop_from shops idx st = Raise e.
Proof.
  induction shops as [|shop more IH]; intros idx st outs e rest H.
  - destruct outs; discriminate.
  - rewrite visits_cons in H. destruct outs as [|o outs].
    + simpl in H. injection H as Ho _. simpl. rewrite Ho. reflexivity.
    + simpl in H. injection H as Ho Hrest. simpl. rewrite Ho. cbn [bind].
      eapply IH. exact Hrest.
Qed.

Lemma with_without outs :
  (with_leaflets outs + without_leaflets outs = List.length outs)%nat.
Proof.
  unfold with_leaflets, without_leaflets.
  induction outs as [|o outs IH]; [reflexivity|].
  destruct o; simpl; lia.
Qed.

Lemma with_leaflets_le outs : (with_leaflets outs <= List.length (List.concat outs))%nat.
Proof.
  unfold with_leaflets. induction outs as [|o outs IH]; [apply Nat.le_refl|].
  destruct o as [|l o]; simpl; [exact IH|]. rewrite length_app. lia.
Qed.

Lemma visits_length idx shops outs :
  visits_from idx shops = map Ret outs -> List.length outs = List.length shops.
Proof.
  intros H. apply (f_equal (@List.length _)) in H.
  unfold visits in H. rewrite !length_map, length_combine, length_seq in H. lia.
Qed.

Lemma visits_return idx shops :
  (forall b u, only_Exception (urljoin b u)) ->
  (forall i u, only_Exception (fetch_page i u)) ->
  exists outs, visits_from idx shops = map Ret outs.
Proof.
  intros Hu Hf. revert idx. induction shops as [|shop rest IH]; intros idx.
  - exists []. reflexivity.
  - destruct (IH (S idx)) as (outs & Hrest).
    rewrite visits_cons, Hrest.
    destruct (fetch_page idx (url shop)) as [html|e] eqn:E.
    + destruct (scrape_shop_fetched urljoin debug Hu fetch_page page_of clock
                  idx shop html E) as (out & Hs & _).
      exists (out :: outs). rewrite Hs. reflexivity.
    + exists ([] :: outs).
      rewrite (scrape_shop_failed urljoin debug fetch_page page_of clock idx shop e E).
      rewrite (Hf idx (url shop) e E). reflexivity.
Qed.

(** [scrape_all_shops] has no handler of its own: a failure of the request
    for the hypermarket page, or of the extraction of the shop list,
    leaves it as raised, and an empty shop list is reported by the
    [ScraperException]; otherwise the shops are visited in the order of the
    list and the result is the concatenation of what each visit returned,
    unless a visit raises, which ends the run with that exception.  When
    [urljoin] and the requests raise nothing but [Exception]s every visit
    returns. *)
Theorem scrape_all_shops_outcome :
  (forall e,
      fetch_page 0 HYPERMARKETS_URL = Raise e -> scrape_all = Raise e) /\
  (forall html e,
      fetch_page 0 HYPERMARKETS_URL = Ret html ->
      shops_of (menu_of html) = Raise e -> scrape_all = Raise e) /\
  (forall html,
      fetch_page 0 HYPERMARKETS_URL = Ret html ->
      shops_of (menu_of html) = Ret [] ->
      scrape_all = Raise (ScraperException "No shops found in sidebar menu")) /\
  (forall html shops,
      fetch_page 0 HYPERMARKETS_URL = Ret html ->
      shops_of (menu_of html) = Ret shops -> shops <> [] ->
      (forall outs,
          visits_from 1 shops = map Ret outs -> scrape_all = Ret (List.concat outs)) /\
      (forall outs e rest,
          visits_from 1 shops = map Ret outs ++ Raise e :: rest ->
          scrape_all = Raise e) /\
      ((forall b u, only_Exception (urljoin b u)) ->
       (forall i u, only_Exception (fetch_page i u)) ->
       exists outs, visits_from 1 shops = map Ret outs)).
Proof.
  unfold LeafletScraper.scrape_all_shops, LeafletScraper.scrape_all_shops_totals.
  split; [intros e Hf; rewrite Hf; reflexivity|].
  split; [intros html e Hf He; rewrite Hf; cbn [bind]; rewrite He; reflexivity|].
  split; [intros html Hf He; rewrite Hf; cbn [bind]; rewrite He; reflexivity|].
  intros html shops Hf He Hne. rewrite Hf. cbn [bind]. rewrite He. cbn [bind].
  destruct shops as [|shop rest]; [contradiction|].
  split; [|split].
  - intros outs H. rewrite (scrape_loop_spec _ _ _ outs H). reflexivity.
  - intros outs e more H. rewrite (scrape_loop_raise _ _ _ outs e more H). reflexivity.
  - intros Hu Ho. apply visits_return; assumption.
Qed.

Lemma scrape_all_totals st :
  totals = Ret st ->
  exists html shops outs,
    fetch_page 0 HYPERMARKETS_URL = Ret html /\
    shops_of (menu_of html) = Ret shops /\
    shops <> [] /\
    visits_from 1 shops = map Ret outs /\
    all_leaflets st = List.concat outs /\
    successful_shops st = with_leaflets outs /\
    failed_shops st = without_leaflets outs /\
    (successful_shops st + failed_shops st = List.length shops)%nat /\
    open_ended_total st = count_open_ended (all_leaflets st) /\
    (open_ended_total st <= List.length (all_leaflets st))%nat /\
    (successful_shops st <= List.length (all_leaflets st))%nat.
Proof.
  unfold LeafletScraper.scrape_all_shops_totals. intros H.
  apply bind_ret_inv in H. destruct H as (html & Hf & H).
  apply bind_ret_inv in H. destruct H as (shops & Hs & H).
  destruct shops as [|shop rest]; [discriminate|].
  assert (Hv : exists outs, visits_from 1 (shop :: rest) = map Ret outs).
  { clear Hs. revert H. generalize (mkTotals [] 0 0 0). generalize 1%nat.
    generalize (shop :: rest). clear shop rest.
    intros shops. induction shops as [|s more IH]; intros idx st0 H.
    - exists []. reflexivity.
    - simpl in H. apply bind_ret_inv in H. destruct H as (o & Ho & H).
      apply IH in H. destruct H as (outs & Houts).
      exists (o :: outs). rewrite visits_cons, Ho, Houts. reflexivity. }
  destruct Hv as (outs & Hv).
  rewrite (scrape_loop_spec _ _ _ outs Hv) in H. injection H as <-.
  exists html, (shop :: rest), outs. cbn [all_leaflets successful_shops failed_shops
    open_ended_total app Nat.add].
  repeat split; try assumption; try reflexivity.
  - discriminate.
  - rewrite with_without. apply (visits_length _ _ _ Hv).
  - apply count_open_ended_le.
  - apply with_leaflets_le.
Qed.

End ScrapingFacts.

Lemma scrape_all_shops_outcome_witness :
  exists outs,
    visits urljoin_sample false fetch_sample page_of_sample visit_clock_sample 1
      [mkShop "Lidl" "https://www.prospektmaschine.de/lidl/";
       mkShop "Kaufland" "https://www.prospektmaschine.de/kaufland/"]
    = map Ret outs /\
    LeafletScraper.scrape_all_shops urljoin_sample false fetch_sample page_of_sample
      menu_of_sample visit_clock_sample = Ret (List.concat outs).
Proof.
  eexists. split.
  - instantiate (1 := [[_; _; _]; []]). vm_compute. reflexivity.
  - destruct (scrape_all_shops_outcome urljoin_sample false fetch_sample page_of_sample
                menu_of_sample visit_clock_sample) as (_ & _ & _ & H).
    destruct (H "menu"
                [mkShop "Lidl" "https://www.prospektmaschine.de/lidl/";
                 mkShop "Kaufland" "https://www.prospektmaschine.de/kaufland/"])
      as (Hret & _); [reflexivity|reflexivity|discriminate|].
    apply Hret. vm_compute. reflexivity.
Defined.

(** The counters of [scrape_all_shops] at the end of its loop: the shops
    with and without records add up to the number of shops, the count of
    open-ended records is that of the collected list, so the number of
    regular records reported is never negative, and every shop counted as
    successful contributed at least one record. *)
Theorem scrape_all_shops_counters
  (urljoin : string -> string -> res string) (debug : bool)
  (fetch_page : nat -> string -> res string) (page_of : string -> Page)
  (menu_of : string -> Menu) (clock : nat -> nat -> string)
  (st : LeafletScraper.Totals) :
  LeafletScraper.scrape_all_shops_totals urljoin debug fetch_page page_of menu_of clock
    = Ret st ->
  exists html shops outs,
    fetch_page 0 HYPERMARKETS_URL = Ret html /\
    ShopExtractor.extract_shops urljoin LeafletScraper.shop_extractor (menu_of html)
      = Ret shops /\
    shops <> [] /\
    visits urljoin debug fetch_page page_of clock 1 shops = map Ret outs /\
    LeafletScraper.all_leaflets st = List.concat outs /\
    LeafletScraper.successful_shops st = with_leaflets outs /\
    LeafletScraper.failed_shops st = without_leaflets outs /\
    (LeafletScraper.successful_shops st + LeafletScraper.failed_shops st
     = List.length shops)%nat /\
    LeafletScraper.open_ended_total st
    = LeafletScraper.count_open_ended (LeafletScraper.all_leaflets st) /\
    (LeafletScraper.open_ended_total st
     <= List.length (LeafletScraper.all_leaflets st))%nat /\
    (LeafletScraper.successful_shops st
     <= List.length (LeafletScraper.all_leaflets st))%nat.
Proof. apply scrape_all_totals. Qed.

Lemma scrape_all_shops_counters_witness :
  exists st,
    LeafletScraper.scrape_all_shops_totals urljoin_sample false fetch_sample
      page_of_sample menu_of_sample visit_clock_sample = Ret st /\
    (LeafletScraper.successful_shops st + LeafletScraper.failed_shops st = 2)%nat /\
    LeafletScraper.open_ended_total st
    = LeafletScraper.count_open_ended (LeafletScraper.all_leaflets st).
Proof.
  eexists. split; [vm_compute; reflexivity|].
  match goal with
  | |- (LeafletScraper.successful_shops ?s + _ = _)%nat /\ _ =>
      destruct (scrape_all_shops_counters urljoin_sample false fetch_sample
                  page_of_sample menu_of_sample visit_clock_sample s)
        as (html & shops & outs & Hf & Hs & _ & _ & _ & _ & _ & Hsum & Hopen & _)
  end.
  - vm_compute. reflexivity.
  - split; [|exact Hopen].
    rewrite Hsum. injection Hf as <-. vm_compute in Hs. injection Hs as <-. reflexivity.
Defined.

(** ** The shop list *)

Section ShopListFacts.

Variable urljoin : string -> string -> res string.
Variable self : ShopExtractor.t.

Abbreviation made := (shop_of urljoin (ShopExtractor.base_url self)).

Lemma map_Ret_inj {A : Type} (a b : list A) :
  map (@Ret A) a = map (@Ret A) b -> a = b.
Proof.
  revert b. induction a as [|x a IH]; intros [|y b] H; try discriminate.
  - reflexivity.
  - simpl in H. injection H as -> H. f_equal. auto.
Qed.

Lemma map_Ret_no_raise {A : Type} (a b : list A) e rest :
  map (@Ret A) a <> map (@Ret A) b ++ Raise e :: rest.
Proof.
  revert a. induction b as [|y b IH]; intros [|x a] H; try discriminate.
  simpl in H. injection H as _ H. exact (IH _ H).
Qed.

Lemma raise_prefix_unique {A : Type} (a b : list A) e e' rest rest' :
  map (@Ret A) a ++ Raise e :: rest = map (@Ret A) b ++ Raise e' :: rest' -> e = e'.
Proof.
  revert b. induction a as [|x a IH]; intros [|y b] H; simpl in H; try discriminate.
  - injection H as -> _. reflexivity.
  - injection H as _ H. exact (IH _ H).
Qed.

Lemma made_unfold link :
  made link =
  (url <- (if startswith "http" match href link with Some u => u | None => "" end
           then Ret match href link with Some u => u | None => "" end
           else urljoin (ShopExtractor.base_url self)
                  match href link with Some u => u | None => "" end) ;;
   Ret (mkShop (link_text link) url)).
Proof. reflexivity. Qed.

Lemma extract_loop_cases (links : list Link) :
  forall acc,
  (exists news,
      map made (filter has_href links) = map Ret news /\
      ShopExtractor.extract_loop urljoin self links acc = Ret (acc ++ news)) \/
  (exists news e rest,
      map made (filter has_href links) = map Ret news ++ Raise e :: rest /\
      ShopExtractor.extract_loop urljoin self links acc = Raise e).
Proof.
  induction links as [|link rest IH]; intros acc.
  - left. exists []. rewrite app_nil_r. split; reflexivity.
  - cbn [ShopExtractor.extract_loop filter].
    change (has_href link) with (truthy_opt (href link)).
    destruct (truthy_opt (href link)) eqn:Eh; cbn [negb]; [|apply IH].
    cbn [map]. rewrite made_unfold.
    destruct (startswith "http" match href link with Some u => u | None => "" end)
      eqn:Es; cbn [negb bind].
    + destruct (IH (acc ++ [mkShop (link_text link)
                              match href link with Some u => u | None => "" end]))
        as [(news & Hm & Hl)|(news & e & more & Hm & Hl)].
      * left. eexists (_ :: news). rewrite Hm, Hl, <- app_assoc. split; reflexivity.
      * right. exists (mkShop (link_text link)
                         match href link with Some u => u | None => "" end :: news),
                 e, more.
        rewrite Hm, Hl. split; reflexivity.
    + destruct (urljoin (ShopExtractor.base_url self)
                  match href link with Some u => u | None => "" end) as [u|e].
      * cbn [bind].
        destruct (IH (acc ++ [mkShop (link_text link) u]))
          as [(news & Hm & Hl)|(news & e & more & Hm & Hl)].
        -- left. eexists (_ :: news). rewrite Hm, Hl, <- app_assoc.
           split; reflexivity.
        -- right. exists (mkShop (link_text link) u :: news), e, more.
           rewrite Hm, Hl. split; reflexivity.
      * right. exists [], e, (map made (filter has_href rest)). split; reflexivity.
Qed.

Lemma made_name link shop : made link = Ret shop -> name shop = link_text link.
Proof.
  unfold shop_of. intros H. apply bind_ret_inv in H. destruct H as (u & _ & H).
  injection H as <-. reflexivity.
Qed.

Lemma made_names links shops :
  map made links = map Ret shops -> map name shops = map link_text links.
Proof.
  revert shops. induction links as [|link rest IH]; intros [|shop shops] H;
    try discriminate; [reflexivity|].
  simpl in H. injection H as H1 H2. simpl.
  rewrite (made_name _ _ H1), (IH _ H2). reflexivity.
Qed.

(** [extract_shops] makes one shop of every link of the sidebar that has a
    non-empty [href], in document order and without removing repetitions;
    the shop's name is the link text, its URL the [href] as found when it
    begins with [http] and otherwise the [href] joined to the base URL.  It
    has no handler: the first [urljoin] that raises ends the extraction with
    that exception and no shop is returned.  A page without the sidebar
    gives the empty list. *)
Theorem extract_shops_outcome (html : Menu) :
  (sidebar html = None -> ShopExtractor.extract_shops urljoin self html = Ret []) /\
  (forall links shops,
      sidebar html = Some links ->
      (ShopExtractor.extract_shops urljoin self html = Ret shops <->
       map made (filter has_href links) = map Ret shops)) /\
  (forall links e,
      sidebar html = Some links ->
      (ShopExtractor.extract_shops urljoin self html = Raise e <->
       exists shops rest,
         map made (filter has_href links) = map Ret shops ++ Raise e :: rest)) /\
  (forall links shops,
      sidebar html = Some links ->
      ShopExtractor.extract_shops urljoin self html = Ret shops ->
      map name shops = map link_text (filter has_href links)).
Proof.
  unfold ShopExtractor.extract_shops.
  split; [intros ->; reflexivity|].
  assert (H2 : forall links shops,
      sidebar html = Some links ->
      (match sidebar html with
       | Some shop_links => ShopExtractor.extract_loop urljoin self shop_links []
       | None => Ret []
       end = Ret shops <->
       map made (filter has_href links) = map Ret shops)).
  { intros links shops ->.
    destruct (extract_loop_cases links [])
      as [(news & Hm & Hl)|(news & e & more & Hm & Hl)]; rewrite Hl, Hm.
    - simpl. split.
      + intros H. injection H as <-. reflexivity.
      + intros H. apply map_Ret_inj in H. subst. reflexivity.
    - split; [discriminate|]. intros H. symmetry in H.
      exfalso. exact (map_Ret_no_raise _ _ _ _ H). }
  split; [exact H2|]. split.
  - intros links e ->.
    destruct (extract_loop_cases links [])
      as [(news & Hm & Hl)|(news & e' & more & Hm & Hl)]; rewrite Hl, Hm.
    + split; [discriminate|]. intros (shops & rest & H).
      exfalso. exact (map_Ret_no_raise _ _ _ _ H).
    + split.
      * intros H. injection H as <-. eauto.
      * intros (shops & rest & H). apply raise_prefix_unique in H. subst. reflexivity.
  - intros links shops Hs H. apply (H2 links shops Hs) in H.
    apply made_names. exact H.
Qed.

End ShopListFacts.

Lemma extract_shops_outcome_witness :
  ShopExtractor.extract_shops urljoin_sample LeafletScraper.shop_extractor
    (menu_of_sample "menu")
  = Ret [mkShop "Lidl" "https://www.prospektmaschine.de/lidl/";
         mkShop "Kaufland" "https://www.prospektmaschine.de/kaufland/"] /\
  ShopExtractor.extract_shops urljoin_sample LeafletScraper.shop_extractor
    (mkMenu (Some [mkLink "Lidl" (Some "/lidl/"); mkLink "Netto" (Some "netto/");
                   mkLink "Kaufland" (Some "/kaufland/")]))
  = Raise (ValueError "reference not covered").
Proof.
  split.
  - destruct (extract_shops_outcome urljoin_sample LeafletScraper.shop_extractor
                (menu_of_sample "menu")) as (_ & H & _).
    apply (H [mkLink "Lidl" (Some "/lidl/"); mkLink "Angebote" None;
              mkLink "Kaufland" (Some "https://www.prospektmaschine.de/kaufland/")]);
      reflexivity.
  - destruct (extract_shops_outcome urljoin_sample LeafletScraper.shop_extractor
                (mkMenu (Some [mkLink "Lidl" (Some "/lidl/");
                               mkLink "Netto" (Some "netto/");
                               mkLink "Kaufland" (Some "/kaufland/")])))
      as (_ & _ & H & _).
    apply (H [mkLink "Lidl" (Some "/lidl/"); mkLink "Netto" (Some "netto/");
              mkLink "Kaufland" (Some "/kaufland/")]); [reflexivity|].
    exists [mkShop "Lidl" "https://www.prospektmaschine.de/lidl/"],
           [Ret (mkShop "Kaufland" "https://www.prospektmaschine.de/kaufland/")].
    reflexivity.
Defined.

(** Shops are compared by URL alone: [==] is reflexive, symmetric and
    transitive, holds exactly when the URLs are the same text whatever the
    names, is [False] against an object that is no shop, and equal shops
    have equal hashes. *)
Theorem shop_equality_by_url :
  (forall a, ShopModel.eq a (AShop a) = true) /\
  (forall a b, ShopModel.eq a (AShop b) = ShopModel.eq b (AShop a)) /\
  (forall a b c,
      ShopModel.eq a (AShop b) = true -> ShopModel.eq b (AShop c) = true ->
      ShopModel.eq a (AShop c) = true) /\
  (forall a b, ShopModel.eq a (AShop b) = true <-> url a = url b) /\
  (forall a, ShopModel.eq a NotAShop = false) /\
  (forall (hash : string -> Z) a b,
      ShopModel.eq a (AShop b) = true ->
      ShopModel.hash_ hash a = ShopModel.hash_ hash b).
Proof.
  unfold ShopModel.eq, ShopModel.hash_.
  split; [intros a; apply String.eqb_refl|].
  split; [intros a b; apply String.eqb_sym|].
  split.
  { intros a b c H1 H2. apply String.eqb_eq in H1, H2. apply String.eqb_eq.
    congruence. }
  split; [intros a b; apply String.eqb_eq|].
  split; [reflexivity|].
  intros hash a b H. apply String.eqb_eq in H. rewrite H. reflexivity.
Qed.

Lemma shop_equality_by_url_witness :
  ShopModel.eq (mkShop "Lidl" "https://www.prospektmaschine.de/lidl/")
    (AShop (mkShop "LIDL Prospekt" "https://www.prospektmaschine.de/lidl/")) = true /\
  ShopModel.hash_ (fun s => Z.of_nat (String.length s))
    (mkShop "Lidl" "https://www.prospektmaschine.de/lidl/")
  = ShopModel.hash_ (fun s => Z.of_nat (String.length s))
      (mkShop "LIDL Prospekt" "https://www.prospektmaschine.de/lidl/").
Proof.
  destruct shop_equality_by_url as (_ & _ & _ & Hiff & _ & Hhash).
  assert (H : ShopModel.eq (mkShop "Lidl" "https://www.prospektmaschine.de/lidl/")
    (AShop (mkShop "LIDL Prospekt" "https://www.prospektmaschine.de/lidl/")) = true)
    by (apply Hiff; reflexivity).
  split; [exact H|]. apply Hhash. exact H.
Defined.

(** ** Open-ended labels, and the records of a whole run *)

Section OpenEndedLabel.

Import Strptime Model LeafletParser.

Variable urljoin : string -> string -> res string.
Variable self : LeafletParser.t.

(** A fragment with a non-blank title, a thumbnail that begins with
    [http], a non-blank shop name and a label that holds one calendar date
    and no other digit yields an open-ended record: the date is its start
    and the sentinel its end. *)
Theorem parse_open_ended_label (tag : Tag) (shop : option string) (index : nat)
  (now ttl u sh pre d m y post : string) (a b c : Z) (t : datetime) :
  h2 tag = Some ttl -> strip ttl <> "" ->
  _extract_thumbnail (Element tag) = Ret (Some u) -> startswith "http" u = true ->
  (if truthy_opt shop then shop else shop_name_span tag) = Some sh -> strip sh <> "" ->
  (if truthy_opt (hidden_sm tag) then hidden_sm tag else visible_sm tag)
    = Some (pre ++ single_date d m y ++ post)%string ->
  all nondigit pre = true -> all nondigit post = true ->
  digits 2 d = true -> digits 2 m = true -> digits 4 y = true ->
  py_int y = Ret a -> py_int m = Ret b -> py_int d = Ret c ->
  (1 <= a <= 9999)%Z -> (1 <= b <= 12)%Z -> (1 <= c <= days_in_month a b)%Z ->
  strptime_datetime now = Ret t ->
  parse urljoin self (Element tag) shop index now
    = Ret (Some (mkLeaflet ttl u sh (DateParser.iso y m d) OPEN_ENDED_DATE now)) /\
  is_open_ended (mkLeaflet ttl u sh (DateParser.iso y m d) OPEN_ENDED_DATE now) = true.
Proof.
  intros Hh Httl Hthumb Hu Hshop Hsh Hlabel Hpre Hpost Hd Hm Hy Ea Eb Ec Ra Rb Rc Hnow.
  split; [|reflexivity].
  set (l := mkLeaflet ttl u sh (DateParser.iso y m d) OPEN_ENDED_DATE now).
  assert (S1 : strptime_date (valid_from l) = Ret (mkdatetime a b c 0 0 0)).
  { apply (strptime_date_calendar y m d a b c); auto. }
  assert (Hv : validate l = Ret true).
  { apply (validate_ok l (mkdatetime a b c 0 0 0) sentinel t); try assumption.
    - reflexivity.
    - intros Hne. exfalso. apply Hne. reflexivity. }
  unfold parse.
  rewrite (parse_body_some urljoin self (Element tag) shop index now l tag u
             (pre ++ single_date d m y ++ post)); try reflexivity; try assumption.
  - simpl. rewrite Hu. reflexivity.
  - destruct (truthy_opt shop); exact Hshop.
  - destruct (truthy_opt (hidden_sm tag)); exact Hlabel.
  - apply parse_single_date; assumption.
Qed.

End OpenEndedLabel.

Lemma parse_open_ended_label_witness :
  LeafletParser.parse urljoin_sample parser_sample (Element tag_lazy) None 3 now_sample
    = Ret (Some leaflet_lazy) /\
  Model.is_open_ended leaflet_lazy = true.
Proof.
  apply (parse_open_ended_label urljoin_sample parser_sample tag_lazy None 3 now_sample
           "Dauerangebote" "https://cdn.example/c.jpg" "Kaufland"
           "ab " "01" "10" "2025" "" 2025 10 1 (Strptime.mkdatetime 2026 2 3 10 15 0));
    try reflexivity; try (vm_compute; discriminate);
    try (split; vm_compute; discriminate).
Defined.

Section RunFacts.

Variable urljoin : string -> string -> res string.
Variable debug : bool.
Variable fetch_page : nat -> string -> res string.
Variable page_of : string -> Page.
Variable menu_of : string -> Menu.
Variable clock : nat -> nat -> string.

Lemma scrape_shop_ret visit shop out :
  LeafletScraper.scrape_shop urljoin debug fetch_page page_of clock visit shop = Ret out ->
  Forall (fun l => Model.validate l = Ret true /\
                   (name shop <> "" -> shop_name l = name shop)) out.
Proof.
  unfold LeafletScraper.scrape_shop.
  destruct (fetch_page visit (url shop)) as [html|e]; cbn [bind].
  2:{ destruct (is_Exception e); [|discriminate].
      intros H. injection H as <-. constructor. }
  destruct (LeafletScraper.extract_leaflets_from_page urljoin debug (clock visit)
              (page_of html) (Some (name shop))) as [o|e] eqn:E; cbn [bind].
  2:{ destruct (is_Exception e); [|discriminate].
      intros H. injection H as <-. constructor. }
  intros H. injection H as <-.
  apply page_collected in E. destruct E as [_ Hall].
  eapply Forall_impl; [|exact Hall].
  intros l (Hv & Hn & _). split; [exact Hv|].
  intros Hne. simpl in Hn. apply truthy_true in Hne. specialize (Hn Hne). congruence.
Qed.

Lemma visits_records shops :
  forall idx outs,
  visits urljoin debug fetch_page page_of clock idx shops = map Ret outs ->
  Forall (fun l => Model.validate l = Ret true /\
                   exists shop, In shop shops /\
                                (name shop <> "" -> shop_name l = name shop))
         (List.concat outs).
Proof.
  induction shops as [|shop rest IH]; intros idx outs H.
  - destruct outs; [constructor|discriminate].
  - rewrite visits_cons in H. destruct outs as [|o outs]; [discriminate|].
    simpl in H. injection H as Ho Hrest. simpl. apply Forall_app. split.
    + apply scrape_shop_ret in Ho. eapply Forall_impl; [|exact Ho].
      intros l [Hv Hn]. split; [exact Hv|]. exists shop. split; [left; reflexivity|exact Hn].
    + apply IH in Hrest. eapply Forall_impl; [|exact Hrest].
      intros l (Hv & s & Hin & Hn). split; [exact Hv|].
      exists s. split; [right; exact Hin|exact Hn].
Qed.

(** Every record that [scrape_all_shops] (and so [scrape]) returns has
    passed [validate] and belongs to one of the shops of the sidebar list,
    whose name it carries when that name is not empty. *)
Theorem scraped_records_validated (out : list Leaflet) :
  LeafletScraper.scrape urljoin debug fetch_page page_of menu_of clock = Ret out ->
  exists html shops,
    fetch_page 0 HYPERMARKETS_URL = Ret html /\
    ShopExtractor.extract_shops urljoin LeafletScraper.shop_extractor (menu_of html)
      = Ret shops /\
    Forall (fun l => Model.validate l = Ret true /\
                     exists shop, In shop shops /\
                                  (name shop <> "" -> shop_name l = name shop)) out.
Proof.
  unfold LeafletScraper.scrape, LeafletScraper.scrape_all_shops. intros H.
  apply bind_ret_inv in H. destruct H as (st & Hst & H). injection H as <-.
  apply scrape_all_totals in Hst.
  destruct Hst as (html & shops & outs & Hf & Hs & _ & Hv & Hall & _).
  exists html, shops. split; [exact Hf|]. split; [exact Hs|].
  rewrite Hall. eapply visits_records. exact Hv.
Qed.

End RunFacts.

Lemma scraped_records_validated_witness :
  exists out,
    LeafletScraper.scrape urljoin_sample false fetch_sample page_of_sample
      menu_of_sample visit_clock_sample = Ret out /\
    List.length out = 3%nat /\
    Forall (fun l => Model.validate l = Ret true) out.
Proof.
  eexists. split; [vm_compute; reflexivity|]. split; [reflexivity|].
  match goal with
  | |- Forall _ ?o =>
      destruct (scraped_records_validated urljoin_sample false fetch_sample
                  page_of_sample menu_of_sample visit_clock_sample o)
        as (html & shops & _ & _ & Hall)
  end.
  - vm_compute. reflexivity.
  - eapply Forall_impl; [|exact Hall]. intros l [Hv _]. exact Hv.
Defined.
